(** * LocalRAG: topic registry, folder usage tree, pause coordinator and
      retrieval service, embedded from the TypeScript sources.

    Sources embedded here:
    - [src/managers/topicManager.ts]   (class [TopicManager])
    - [src/utils/progressTracker.ts]   (class [ProgressTracker])
    - [src/utils/fileWatcherService.ts] (the per-file loops of
      [processQueuedChanges])
    - [src/server/restServer.ts]       (class [RestServer])

    Conventions.  A JavaScript [number] is a [Z]; a JavaScript string is a
    [string].  A JavaScript [Map] or plain object that the code iterates
    over is an insertion-ordered association list ([OMap]); a [Map] that is
    only read and written by key is a [gmap].  An [async] method that can
    reject is a function into [result], threaded through the state. *)

From Stdlib Require Import ZArith Lia Ascii.
From stdpp Require Import base option list strings pretty gmap.

Local Open Scope Z_scope.

(* ===================================================================== *)
(** ** Strings *)
(* ===================================================================== *)

(** The double quote character, as it appears inside template literals. *)
Definition dq : string := String (ascii_of_nat 34) EmptyString.


(** [String.prototype.startsWith]. *)
Fixpoint startsWith (s p : string) : bool :=
  match p, s with
  | EmptyString, _ => true
  | String c p', String d s' => if decide (c = d) then startsWith s' p' else false
  | String _ _, EmptyString => false
  end.

(** [s.substring(n)]: drop the first [n] characters. *)
Fixpoint dropString (n : nat) (s : string) : string :=
  match n, s with
  | O, _ => s
  | S n', String _ r => dropString n' r
  | S _, EmptyString => EmptyString
  end.

(** [s.split(sep)] for a one-character separator. *)
Fixpoint splitOn (sep : ascii) (s : string) : list string :=
  match s with
  | EmptyString => [EmptyString]
  | String c r =>
      if decide (c = sep) then EmptyString :: splitOn sep r
      else match splitOn sep r with
           | [] => [String c EmptyString]
           | h :: t => String c h :: t
           end
  end.

Definition nonEmpty (s : string) : bool :=
  match s with EmptyString => false | _ => true end.

(* ===================================================================== *)
(** ** Insertion-ordered maps: JavaScript [Map] and plain objects *)
(* ===================================================================== *)

Module OMap.
Section Defs.
Context {V : Type}.

Fixpoint get (k : string) (m : list (string * V)) : option V :=
  match m with
  | [] => None
  | (k', v) :: r => if decide (k = k') then Some v else get k r
  end.

Definition has (k : string) (m : list (string * V)) : bool :=
  match get k m with Some _ => true | None => false end.

(** [Map.prototype.set]: an existing key keeps its position, a new key is
    appended. *)
Fixpoint set (k : string) (v : V) (m : list (string * V)) : list (string * V) :=
  match m with
  | [] => [(k, v)]
  | (k', v') :: r =>
      if decide (k = k') then (k', v) :: r else (k', v') :: set k v r
  end.

(** [Map.prototype.delete] and the [delete obj[k]] operator. *)
Fixpoint delete (k : string) (m : list (string * V)) : list (string * V) :=
  match m with
  | [] => []
  | (k', v') :: r =>
      if decide (k = k') then delete k r else (k', v') :: delete k r
  end.

Definition values (m : list (string * V)) : list V := map snd m.
Definition keys (m : list (string * V)) : list string := map fst m.
Definition size (m : list (string * V)) : Z := Z.of_nat (length m).
End Defs.
End OMap.

(* ===================================================================== *)
(** ** Results of fallible calls *)
(* ===================================================================== *)

Inductive result (A : Type) : Type :=
| Ok (a : A)
| Throw (message : string).
Arguments Ok {A} a.
Arguments Throw {A} message.

(* ===================================================================== *)
(** ** The platform: Node's [path] module and string primitives *)
(* ===================================================================== *)

(** The functions of Node's [path] module and of [String.prototype] that the
    sources call.  They are collaborators of the program, so the development
    is parametric in them; [posix] below is the instance used to run the
    definitions on concrete inputs. *)
Class Platform := {
  path_sep : ascii;
  path_normalize : string -> string;
  path_isAbsolute : string -> bool;
  path_resolve : string -> string -> string;
  path_basename : string -> string;
  path_dirname : string -> string;
  path_extname : string -> string;
  path_relative : string -> string -> string;
  path_join : string -> string -> string;
  str_trim : string -> string;
  toLowerCase : string -> string;
}.

(** The workspace configuration read through [vscode.workspace]. *)
Record WatchConfig := {
  watchFolders : list string;       (* CONFIG.WATCH_FOLDERS *)
  legacyWatchFolder : string;       (* CONFIG.WATCH_FOLDER *)
  workspaceRoot : string;           (* workspaceFolders?.[0]?.uri.fsPath, or empty *)
}.

(* ===================================================================== *)
(** ** Folder usage tree ([topicManager.ts], lines 875-1120) *)
(* ===================================================================== *)

Module FolderTree.

(** [FolderChunkNode]: [children] is a [Map<string, FolderChunkNode>]. *)
#[local] Unset Elimination Schemes.
Inductive FolderChunkNode : Type :=
  mkNode (name path : string) (isFile : bool) (chunkCount : Z)
         (children : list (string * FolderChunkNode)).
#[local] Set Elimination Schemes.

Definition name (n : FolderChunkNode) := let 'mkNode x _ _ _ _ := n in x.
Definition path (n : FolderChunkNode) := let 'mkNode _ x _ _ _ := n in x.
Definition isFile (n : FolderChunkNode) := let 'mkNode _ _ x _ _ := n in x.
Definition chunkCount (n : FolderChunkNode) := let 'mkNode _ _ _ x _ := n in x.
Definition children (n : FolderChunkNode) := let 'mkNode _ _ _ _ x := n in x.

Definition withChildren (n : FolderChunkNode) (ch : list (string * FolderChunkNode)) :=
  mkNode (name n) (path n) (isFile n) (chunkCount n) ch.

(** [FolderChunkStats]: [roots] is a [Map<string, FolderChunkNode>]. *)
Record FolderChunkStats := mkStats {
  roots : list (string * FolderChunkNode);
  totalChunks : Z;
  lastUpdated : Z;
}.

(** The induction principle that reaches the children. *)
Section NodeInd.
Variable P : FolderChunkNode -> Prop.
Hypothesis step : forall nm p f c ch,
  Forall (fun kv => P (snd kv)) ch -> P (mkNode nm p f c ch).

Fixpoint node_ind' (n : FolderChunkNode) : P n :=
  match n with
  | mkNode nm p f c ch =>
      step nm p f c ch
        ((fix go (l : list (string * FolderChunkNode)) :
            Forall (fun kv => P (snd kv)) l :=
            match l with
            | [] => @List.Forall_nil _ _
            | (k, x) :: r =>
                @List.Forall_cons _ (fun kv => P (snd kv)) (k, x) r (node_ind' x) (go r)
            end) ch)
  end.
End NodeInd.

(** *** [recalculateFolderTotals] *)

(** The inner [calculateNodeTotal]: returns the total and the node as the
    in-place assignment [node.chunkCount = total] leaves it. *)
Fixpoint calculateNodeTotal (node : FolderChunkNode) : Z * FolderChunkNode :=
  match node with
  | mkNode nm p f c ch =>
      if f then (c, node)
      else
        let '(total, ch') :=
          (fix loop (l : list (string * FolderChunkNode)) (total : Z)
             : Z * list (string * FolderChunkNode) :=
             match l with
             | [] => (total, [])
             | (k, child) :: rest =>
                 let '(t, child') := calculateNodeTotal child in
                 let '(total', rest') := loop rest (total + t) in
                 (total', (k, child') :: rest')
             end) ch 0 in
        (total, mkNode nm p f total ch')
  end.

(** The loop over the children, named so that lemmas can speak of it. *)
Fixpoint calculateChildren (l : list (string * FolderChunkNode)) (total : Z)
  : Z * list (string * FolderChunkNode) :=
  match l with
  | [] => (total, [])
  | (k, child) :: rest =>
      let '(t, child') := calculateNodeTotal child in
      let '(total', rest') := calculateChildren rest (total + t) in
      (total', (k, child') :: rest')
  end.

Definition recalculateFolderTotals (stats : FolderChunkStats) : FolderChunkStats :=
  let '(totalChunks, roots') := calculateChildren (roots stats) 0 in
  mkStats roots' totalChunks (lastUpdated stats).

(** [stats.lastUpdated = Date.now()]. *)
Definition touch (now : Z) (stats : FolderChunkStats) : FolderChunkStats :=
  mkStats (roots stats) (totalChunks stats) now.

(** *** [getWatchFolderForPath] *)

Section WithPlatform.
Context {platform : Platform}.

Definition sepString : string := String path_sep EmptyString.

Definition allFolders (cfg : WatchConfig) : list string :=
  watchFolders cfg ++
  (if nonEmpty (legacyWatchFolder cfg) && nonEmpty (str_trim (legacyWatchFolder cfg))
   then [legacyWatchFolder cfg] else []).

Fixpoint findWatchFolder (normalizedFilePath workspaceRoot : string)
    (folders : list string) : option (string * string) :=
  match folders with
  | [] => None
  | folder :: rest =>
      let trimmedFolder := str_trim folder in
      if negb (nonEmpty trimmedFolder) then
        findWatchFolder normalizedFilePath workspaceRoot rest
      else
        let resolvedFolder :=
          if path_isAbsolute trimmedFolder then trimmedFolder
          else path_resolve workspaceRoot trimmedFolder in
        let normalizedWatchFolder := path_normalize resolvedFolder in
        if startsWith normalizedFilePath (normalizedWatchFolder +:+ sepString)
           || bool_decide (normalizedFilePath = normalizedWatchFolder)
        then Some (normalizedWatchFolder, path_basename normalizedWatchFolder)
        else findWatchFolder normalizedFilePath workspaceRoot rest
  end.

(** Returns [(watchFolder, displayName)]. *)
Definition getWatchFolderForPath (cfg : WatchConfig) (filePath : string)
  : option (string * string) :=
  findWatchFolder (path_normalize filePath) (workspaceRoot cfg) (allFolders cfg).

(** The root key, the root's display name and the path segments below the
    root, as both [updateFolderChunkStats] and [removeFolderChunkStats]
    compute them. *)
Definition locate (cfg : WatchConfig) (filePath : string)
  : string * string * list string :=
  let normalizedFilePath := path_normalize filePath in
  match getWatchFolderForPath cfg filePath with
  | Some (watchFolder, displayName) =>
      let relativePath := path_relative watchFolder normalizedFilePath in
      (watchFolder, displayName, filter (fun p => nonEmpty p = true) (splitOn path_sep relativePath))
  | None =>
      let parentDir := path_dirname normalizedFilePath in
      (parentDir, path_basename parentDir, [path_basename normalizedFilePath])
  end.

(** *** [updateFolderChunkStats] *)

(** The traversal loop: walks [parts] below [node], creating the missing
    nodes and marking the last one as a file with the given count. *)
Fixpoint insertPath (node : FolderChunkNode) (currentPath : string)
    (parts : list string) (count : Z) : FolderChunkNode :=
  match parts with
  | [] => node
  | part :: rest =>
      let currentPath' := path_join currentPath part in
      let isLastPart := match rest with [] => true | _ => false end in
      let child :=
        match OMap.get part (children node) with
        | Some c => c
        | None => mkNode part currentPath' isLastPart 0 []
        end in
      let child' :=
        if isLastPart
        then mkNode (name child) (path child) true count (children child)
        else child in
      withChildren node
        (OMap.set part (insertPath child' currentPath' rest count) (children node))
  end.

Definition emptyStats (now : Z) : FolderChunkStats := mkStats [] 0 now.

(** The body of [updateFolderChunkStats] on the topic's statistics. *)
Definition updateStats (cfg : WatchConfig) (stats : FolderChunkStats)
    (filePath : string) (count : Z) (now : Z) : FolderChunkStats :=
  let '(rootKey, rootDisplayName, relativeParts) := locate cfg filePath in
  match relativeParts with
  | [] => stats
  | _ =>
      let root :=
        match OMap.get rootKey (roots stats) with
        | Some r => r
        | None => mkNode rootDisplayName rootKey false 0 []
        end in
      let root' := insertPath root rootKey relativeParts count in
      touch now
        (recalculateFolderTotals
           (mkStats (OMap.set rootKey root' (roots stats))
                    (totalChunks stats) (lastUpdated stats)))
  end.

(** *** [removeFolderChunkStats] *)

(** The navigation, the deletion of the file node and the clean-up loop
    over [pathStack].  [None]: some segment is missing (the early return).
    The boolean is [true] while the clean-up loop has not reached its
    [break]. *)
Fixpoint removePath (node : FolderChunkNode) (parts : list string)
  : option (FolderChunkNode * bool) :=
  match parts with
  | [] => Some (node, true)
  | part :: rest =>
      match OMap.get part (children node) with
      | None => None
      | Some child =>
          match rest with
          | [] => Some (withChildren node (OMap.delete part (children node)), true)
          | _ =>
              match removePath child rest with
              | None => None
              | Some (child', cleaning) =>
                  if cleaning && bool_decide (children child' = []) && negb (isFile child')
                  then Some (withChildren node (OMap.delete part (children node)), true)
                  else Some (withChildren node (OMap.set part child' (children node)), false)
              end
          end
      end
  end.

(** The body of [removeFolderChunkStats] on the topic's statistics. *)
Definition removeStats (cfg : WatchConfig) (stats : FolderChunkStats)
    (filePath : string) (now : Z) : FolderChunkStats :=
  let '(rootKey, _, relativeParts) := locate cfg filePath in
  match relativeParts with
  | [] => stats
  | _ =>
      match OMap.get rootKey (roots stats) with
      | None => stats
      | Some root =>
          match removePath root relativeParts with
          | None => stats
          | Some (root', _) =>
              let roots' :=
                if bool_decide (children root' = []) && negb (isFile root')
                then OMap.delete rootKey (roots stats)
                else OMap.set rootKey root' (roots stats) in
              touch now
                (recalculateFolderTotals
                   (mkStats roots' (totalChunks stats) (lastUpdated stats)))
          end
      end
  end.

End WithPlatform.

(** *** The aggregate invariant *)

Definition sumChunkCounts (l : list (string * FolderChunkNode)) : Z :=
  foldr (fun kv acc => chunkCount (snd kv) + acc) 0 l.

(** Every folder node of the subtree, wherever it sits, carries the sum of
    its children's counts. *)
Fixpoint everyFolderSummed (n : FolderChunkNode) : bool :=
  match n with
  | mkNode _ _ f c ch =>
      (f || bool_decide (c = sumChunkCounts ch))
      && (fix all (l : list (string * FolderChunkNode)) : bool :=
            match l with
            | [] => true
            | (_, x) :: r => everyFolderSummed x && all r
            end) ch
  end.

(** The same, for the folder nodes that [calculateNodeTotal] visits: those
    with no file node above them. *)
Fixpoint visitedFoldersSummed (n : FolderChunkNode) : bool :=
  match n with
  | mkNode _ _ f c ch =>
      f || (bool_decide (c = sumChunkCounts ch)
            && (fix all (l : list (string * FolderChunkNode)) : bool :=
                  match l with
                  | [] => true
                  | (_, x) :: r => visitedFoldersSummed x && all r
                  end) ch)
  end.

(** The node reached from [n] along the given child keys. *)
Fixpoint nodeAt (keys : list string) (n : FolderChunkNode) : option FolderChunkNode :=
  match keys with
  | [] => Some n
  | k :: rest =>
      match OMap.get k (children n) with
      | Some c => nodeAt rest c
      | None => None
      end
  end.

Definition statsConsistent (check : FolderChunkNode -> bool)
    (stats : FolderChunkStats) : bool :=
  forallb (fun kv => check (snd kv)) (roots stats)
  && bool_decide (totalChunks stats = sumChunkCounts (roots stats)).

End FolderTree.

(* ===================================================================== *)
(** ** A POSIX instance of the platform *)
(* ===================================================================== *)

(** Node's [path.posix] restricted to normalized absolute paths, and ASCII
    case folding; used to evaluate the definitions on concrete inputs. *)
Module Posix.

Fixpoint joinWith (sep : string) (l : list string) : string :=
  match l with
  | [] => EmptyString
  | [x] => x
  | x :: r => x +:+ sep +:+ joinWith sep r
  end.

Definition slash : ascii := ascii_of_nat 47.

Definition basename (p : string) : string :=
  List.last (splitOn slash p) EmptyString.

Definition dirname (p : string) : string :=
  joinWith (String slash EmptyString) (List.removelast (splitOn slash p)).

(** The extension of the last segment, with its dot. *)
Fixpoint extnameFrom (seen : bool) (s : string) : string :=
  match s with
  | EmptyString => EmptyString
  | String c r =>
      let rest := extnameFrom true r in
      if nonEmpty rest then rest
      else if seen && bool_decide (c = ascii_of_nat 46) then s
      else EmptyString
  end.

Definition extname (p : string) : string := extnameFrom false (basename p).

Definition relative (from to : string) : string :=
  if startsWith to (from +:+ String slash EmptyString)
  then dropString (S (String.length from)) to
  else if bool_decide (to = from) then EmptyString else to.

Definition lowerAscii (c : ascii) : ascii :=
  let n := nat_of_ascii c in
  if (Nat.leb 65 n && Nat.leb n 90)%bool then ascii_of_nat (n + 32) else c.

Fixpoint lower (s : string) : string :=
  match s with
  | EmptyString => EmptyString
  | String c r => String (lowerAscii c) (lower r)
  end.

#[export] Instance posix : Platform := {|
  path_sep := slash;
  path_normalize := fun p => p;
  path_isAbsolute := fun p => startsWith p (String slash EmptyString);
  path_resolve := fun root rel => root +:+ String slash EmptyString +:+ rel;
  path_basename := basename;
  path_dirname := dirname;
  path_extname := extname;
  path_relative := relative;
  path_join := fun a b => a +:+ String slash EmptyString +:+ b;
  str_trim := fun s => s;
  toLowerCase := lower;
|}.

End Posix.

(* ===================================================================== *)
(** ** State and error monad *)
(* ===================================================================== *)

(** An [async] method over the mutable state [S]: it returns or throws, and
    the mutations made before a throw stay. *)
Definition M (S A : Type) : Type := S -> result A * S.

Definition ret {S A : Type} (a : A) : M S A := fun s => (Ok a, s).

Definition throw {S A : Type} (message : string) : M S A :=
  fun s => (Throw message, s).

Definition bind {S A B : Type} (m : M S A) (k : A -> M S B) : M S B :=
  fun s => match m s with
           | (Ok a, s') => k a s'
           | (Throw e, s') => (Throw e, s')
           end.

(** [try { m } catch (error) { h error.message }]. *)
Definition tryCatch {S A : Type} (m : M S A) (h : string -> M S A) : M S A :=
  fun s => match m s with
           | (Ok a, s') => (Ok a, s')
           | (Throw e, s') => h e s'
           end.

Definition gets {S A : Type} (f : S -> A) : M S A := fun s => (Ok (f s), s).

Definition modify {S : Type} (f : S -> S) : M S unit := fun s => (Ok tt, f s).

(** [m] keeps [P], whether it returns or throws. *)
Definition preserves {S A : Type} (P : S -> Prop) (m : M S A) : Prop :=
  forall s, P s -> P (m s).2.

Notation "x <- c ;; k" := (bind c (fun x => k))
  (at level 100, c at next level, right associativity).
Notation "c ;; k" := (bind c (fun _ => k))
  (at level 100, right associativity).

(** JavaScript truthiness of an optional string. *)
Definition truthy (o : option string) : option string :=
  match o with
  | Some s => if nonEmpty s then Some s else None
  | None => None
  end.

(* ===================================================================== *)
(** ** Topic registry and vector-store lifecycle ([topicManager.ts]) *)
(* ===================================================================== *)

Module Registry.

(** *** Data ([utils/types]) *)

Inductive TopicSource := local | common.

Record Topic := mkTopic {
  t_id : string;
  t_name : string;
  t_description : option string;
  t_createdAt : Z;
  t_updatedAt : Z;
  t_documentCount : Z;
  t_source : option TopicSource;
}.

Inductive FileType := pdf | markdown | html.

Record TopicDocument := mkDocument {
  d_id : string;
  d_topicId : string;
  d_name : string;
  d_filePath : string;
  d_fileType : FileType;
  d_addedAt : Z;
  d_chunkCount : Z;
}.

(** [TopicsIndex]: [topics] is the object [{ [id]: Topic }]. *)
Record TopicsIndex := mkIndex {
  topics : list (string * Topic);
  modelName : string;
  lastUpdated : Z;
}.

Record TopicStats := mkTopicStats {
  ts_documentCount : Z;
  ts_chunkCount : Z;
  ts_lastUpdated : Z;
  ts_embeddingModel : string;
}.

Record ExportedTopicData := mkExport {
  x_version : string;
  x_topic : Topic;
  x_documents : list TopicDocument;
  x_embeddingModel : string;
  x_exportedAt : Z;
}.

(** *** Collaborators *)

(** A row of a topic's LanceDB table. *)
Record Chunk := mkChunk {
  documentName : string;
  pageContent : string;
}.

(** [vector-<topicId>-metadata.json]. *)
Record StoreMetadata := mkStoreMetadata {
  sm_topicId : string;
  sm_embeddingModel : option string;
  sm_chunkCount : Z;
}.

(** An entry of [EmbeddingService.listAvailableModels()]. *)
Record AvailableModel := mkModel {
  m_name : string;
  m_downloaded : bool;
  m_source : string;
}.

(** A vector-store handle: the topic it was opened for and the root it was
    opened from ([None]: the database directory, [Some p]: the common
    database path). *)
Record VectorStore := mkStore {
  vs_topicId : string;
  vs_root : option string;
}.

(** What an archive entry holds. *)
Inductive EntryData :=
| TopicJson (payload : ExportedTopicData)
| MetadataJson (payload : StoreMetadata)
| TableFile (rows : list Chunk).

Record ZipEntry := mkEntry {
  entryName : string;
  isDirectory : bool;
  entryData : EntryData;
}.

(** What is found under the configured common database path. *)
Inductive CommonDisk :=
| PathInaccessible (message : string)   (* [fs.access(commonPath)] rejects *)
| IndexMissing                          (* no [topics.json] there *)
| IndexUnreadable (message : string)    (* [readFile] or [JSON.parse] throws *)
| IndexParsed (index : option TopicsIndex)
              (documents : gmap string (list TopicDocument)).

(** Everything outside the manager object that its methods read or write:
    the embedding service, the configuration and the files. *)
Record World := mkWorld {
  currentModel : string;                          (* getCurrentModel() *)
  availableModels : list AvailableModel;          (* listAvailableModels() *)
  watchConfig : WatchConfig;
  commonPathSetting : option string;              (* CONFIG.COMMON_DATABASE_PATH *)
  commonDisk : CommonDisk;
  indexFile : option TopicsIndex;                 (* topics.json *)
  documentsFiles : gmap string (list TopicDocument); (* topic-<id>-documents.json *)
  storeMetadata : gmap string StoreMetadata;      (* in the database directory *)
  commonStoreMetadata : gmap string StoreMetadata; (* under the common path *)
  tables : gmap string (list (string * list Chunk)); (* lancedb/<id>.lance/<file> *)
  commonTables : gmap string (list (string * list Chunk));
  archives : gmap string (list ZipEntry);         (* .rag files by path *)
  cleanupCalls : list string;  (* arguments the cleanup callback was called with *)
}.

Inductive PipelineOutcome :=
| Stored (chunksStored : Z)         (* [success: true] *)
| Rejected                          (* [success: false] *)
| PipelineThrows (message : string).

(** The outcomes, during one call of a method, of what the method does not
    decide itself: the clock, the random source, the ingestion pipeline and
    the calls that may reject. *)
Record Env := mkEnv {
  now : Z;                                 (* Date.now() *)
  idClock : nat -> Z;     (* Date.now() in the n-th generated identifier *)
  idRandom : nat -> string; (* Math.random().toString(36).substring(2, 9), ditto *)
  processDocument : string -> PipelineOutcome;
  failSaveIndex : option string;           (* writeFile of topics.json *)
  failSaveDocuments : option string;       (* writeFile of the documents file *)
  failDeleteStore : option string;         (* vectorStoreFactory.deleteStore *)
  failLoadStore : option string;           (* vectorStoreFactory.loadStore *)
  failTableDelete : option string;         (* lanceTable.delete *)
  callbackThrows : bool;                   (* the cleanup callback throws *)
}.

(** *** The manager object *)

Record TopicManager := mkManager {
  topicsIndex : option TopicsIndex;
  vectorStoreFactory : option string;   (* the factory, by its model name *)
  vectorStoreCache : gmap string VectorStore;
  topicDocuments : gmap string (list (string * TopicDocument));
  folderChunkStats : gmap string FolderTree.FolderChunkStats;
  commonTopicsIndex : option TopicsIndex;
  commonTopicDocuments : gmap string (list (string * TopicDocument));
  commonDatabasePath : option string;
  agentCacheCleanupCallback : bool;     (* a callback is registered *)
}.

Record Sys := mkSys { tm : TopicManager; world : World }.

Definition onTm (f : TopicManager -> TopicManager) : M Sys unit :=
  modify (fun s => mkSys (f (tm s)) (world s)).

Definition onWorld (f : World -> World) : M Sys unit :=
  modify (fun s => mkSys (tm s) (f (world s))).

Definition setTopicsIndex (v : option TopicsIndex) (m : TopicManager) :=
  mkManager v (vectorStoreFactory m) (vectorStoreCache m) (topicDocuments m)
    (folderChunkStats m) (commonTopicsIndex m) (commonTopicDocuments m)
    (commonDatabasePath m) (agentCacheCleanupCallback m).

Definition setVectorStoreCache (v : gmap string VectorStore) (m : TopicManager) :=
  mkManager (topicsIndex m) (vectorStoreFactory m) v (topicDocuments m)
    (folderChunkStats m) (commonTopicsIndex m) (commonTopicDocuments m)
    (commonDatabasePath m) (agentCacheCleanupCallback m).

Definition setTopicDocuments (v : gmap string (list (string * TopicDocument)))
    (m : TopicManager) :=
  mkManager (topicsIndex m) (vectorStoreFactory m) (vectorStoreCache m) v
    (folderChunkStats m) (commonTopicsIndex m) (commonTopicDocuments m)
    (commonDatabasePath m) (agentCacheCleanupCallback m).

Definition setFolderChunkStats (v : gmap string FolderTree.FolderChunkStats)
    (m : TopicManager) :=
  mkManager (topicsIndex m) (vectorStoreFactory m) (vectorStoreCache m)
    (topicDocuments m) v (commonTopicsIndex m) (commonTopicDocuments m)
    (commonDatabasePath m) (agentCacheCleanupCallback m).

(** The three fields of the common database, assigned together. *)
Definition setCommon (index : option TopicsIndex)
    (documents : gmap string (list (string * TopicDocument)))
    (databasePath : option string) (m : TopicManager) :=
  mkManager (topicsIndex m) (vectorStoreFactory m) (vectorStoreCache m)
    (topicDocuments m) (folderChunkStats m) index documents databasePath
    (agentCacheCleanupCallback m).

Definition setTopicFields (name : string) (description : option string)
    (updatedAt documentCount : Z) (t : Topic) : Topic :=
  mkTopic (t_id t) name description (t_createdAt t) updatedAt documentCount
    (t_source t).

Definition setWorldModel (model : string) (w : World) : World :=
  mkWorld model (availableModels w) (watchConfig w) (commonPathSetting w)
    (commonDisk w) (indexFile w) (documentsFiles w) (storeMetadata w)
    (commonStoreMetadata w) (tables w) (commonTables w) (archives w)
    (cleanupCalls w).

Definition setIndexFile (v : option TopicsIndex) (w : World) : World :=
  mkWorld (currentModel w) (availableModels w) (watchConfig w)
    (commonPathSetting w) (commonDisk w) v (documentsFiles w)
    (storeMetadata w) (commonStoreMetadata w) (tables w) (commonTables w)
    (archives w) (cleanupCalls w).

Definition setDocumentsFiles (v : gmap string (list TopicDocument)) (w : World)
  : World :=
  mkWorld (currentModel w) (availableModels w) (watchConfig w)
    (commonPathSetting w) (commonDisk w) (indexFile w) v
    (storeMetadata w) (commonStoreMetadata w) (tables w) (commonTables w)
    (archives w) (cleanupCalls w).

Definition setStoreFiles (metadata : gmap string StoreMetadata)
    (tbls : gmap string (list (string * list Chunk))) (w : World) : World :=
  mkWorld (currentModel w) (availableModels w) (watchConfig w)
    (commonPathSetting w) (commonDisk w) (indexFile w) (documentsFiles w)
    metadata (commonStoreMetadata w) tbls (commonTables w)
    (archives w) (cleanupCalls w).

Definition setArchives (v : gmap string (list ZipEntry)) (w : World) : World :=
  mkWorld (currentModel w) (availableModels w) (watchConfig w)
    (commonPathSetting w) (commonDisk w) (indexFile w) (documentsFiles w)
    (storeMetadata w) (commonStoreMetadata w) (tables w) (commonTables w)
    v (cleanupCalls w).

Definition setCleanupCalls (v : list string) (w : World) : World :=
  mkWorld (currentModel w) (availableModels w) (watchConfig w)
    (commonPathSetting w) (commonDisk w) (indexFile w) (documentsFiles w)
    (storeMetadata w) (commonStoreMetadata w) (tables w) (commonTables w)
    (archives w) v.

(** *** Methods *)

Section Methods.
Context {platform : Platform}.

Definition notInitialized : string := "TopicManager not initialized".

(** The message of the guard [if (!this.topicsIndex.topics[topicId])].
    The methods below read [topics[topicId]] on the plain object of the
    index and test what they find for truthiness.  They are modelled on
    the own properties of the object, read by [OMap.get]: that is what the
    read finds for every identifier other than the names a plain object
    inherits ([JsObject.inheritedKeys]: [constructor], [toString],
    [__proto__], ...), for which the read finds the inherited value
    instead.  Identifiers as [generateTopicId] makes them are none of
    these. *)
Definition topicNotFound (topicId : string) : string :=
  "Topic not found: " +:+ topicId.

Definition alreadyExists (name : string) : string :=
  "Topic with name " +:+ dq +:+ name +:+ dq +:+ " already exists".

(** [`topic-${Date.now()}-${Math.random().toString(36).substring(2, 9)}`],
    for the [n]-th identifier generated during the call. *)
Definition generateTopicId (env : Env) (n : nat) : string :=
  "topic-" +:+ pretty (idClock env n) +:+ "-" +:+ idRandom env n.

Definition generateDocumentId (env : Env) (n : nat) : string :=
  "doc-" +:+ pretty (idClock env n) +:+ "-" +:+ idRandom env n.

Definition mapFileType (extension : string) : FileType :=
  let e := toLowerCase extension in
  if bool_decide (e = "pdf") then pdf
  else if bool_decide (e = "md") || bool_decide (e = "markdown") then markdown
  else if bool_decide (e = "html") || bool_decide (e = "htm") then html
  else markdown.

(** [Object.values(topics).find(t => t.name.toLowerCase() ===
    name.toLowerCase())]. *)
Definition findByName (name : string) (ts : list (string * Topic))
  : option Topic :=
  List.find (fun t => bool_decide (toLowerCase (t_name t) = toLowerCase name))
            (OMap.values ts).

(** **** Persistence *)

Definition saveTopicsIndex (env : Env) : M Sys unit :=
  index <- gets (fun s => topicsIndex (tm s)) ;;
  match index with
  | None => ret tt
  | Some idx =>
      match failSaveIndex env with
      | Some e => throw e
      | None => onWorld (setIndexFile (Some idx))
      end
  end.

Definition saveTopicDocuments (env : Env) (topicId : string) : M Sys unit :=
  documents <- gets (fun s => topicDocuments (tm s) !! topicId) ;;
  match documents with
  | None => ret tt
  | Some docs =>
      match failSaveDocuments env with
      | Some e => throw e
      | None =>
          onWorld (fun w =>
            setDocumentsFiles (<[topicId := OMap.values docs]> (documentsFiles w)) w)
      end
  end.

(** **** Folder usage, per topic *)

Definition updateFolderChunkStats (env : Env) (topicId filePath : string)
    (count : Z) : M Sys unit :=
  cfg <- gets (fun s => watchConfig (world s)) ;;
  onTm (fun m =>
    let stats :=
      match folderChunkStats m !! topicId with
      | Some st => st
      | None => FolderTree.emptyStats (now env)
      end in
    setFolderChunkStats
      (<[topicId := FolderTree.updateStats cfg stats filePath count (now env)]>
         (folderChunkStats m)) m).

Definition removeFolderChunkStats (env : Env) (topicId filePath : string)
  : M Sys unit :=
  cfg <- gets (fun s => watchConfig (world s)) ;;
  onTm (fun m =>
    match folderChunkStats m !! topicId with
    | None => m
    | Some stats =>
        setFolderChunkStats
          (<[topicId := FolderTree.removeStats cfg stats filePath (now env)]>
             (folderChunkStats m)) m
    end).

Definition getFolderChunkStats (m : TopicManager) (topicId : string)
  : option FolderTree.FolderChunkStats :=
  folderChunkStats m !! topicId.

(** **** Cleanup callback *)

Definition notifyAgentCacheCleanup (env : Env) (topicId : string) : M Sys unit :=
  registered <- gets (fun s => agentCacheCleanupCallback (tm s)) ;;
  if registered then
    tryCatch
      (onWorld (fun w => setCleanupCalls (cleanupCalls w ++ [topicId]) w) ;;
       if callbackThrows env then throw "callback failed" else ret tt)
      (fun _ => ret tt)
  else ret tt.

(** **** The vector-store factory *)

(** Modelled from the spec: [VectorStoreFactory.deleteStore] is not among
    the sources.  It removes the topic's vector-store data, that is its
    table and its metadata file, or rejects. *)
Definition deleteStore (env : Env) (topicId : string) : M Sys unit :=
  match failDeleteStore env with
  | Some e => throw e
  | None =>
      onWorld (fun w =>
        setStoreFiles (delete topicId (storeMetadata w))
                      (delete topicId (tables w)) w)
  end.

(** Modelled from the spec: [VectorStoreFactory.loadStore] is not among the
    sources.  It opens the topic's store under the given root, answers
    [null] when there is none, or rejects. *)
Definition loadStore (env : Env) (topicId : string) (root : option string)
  : M Sys (option VectorStore) :=
  match failLoadStore env with
  | Some e => throw e
  | None =>
      w <- gets world ;;
      let found :=
        match root with
        | None => tables w !! topicId
        | Some _ => commonTables w !! topicId
        end in
      ret (match found with
           | Some _ => Some (mkStore topicId root)
           | None => None
           end)
  end.

(** **** Reads *)

Definition isCommonTopic (m : TopicManager) (topicId : string) : bool :=
  match commonTopicsIndex m with
  | Some cidx => OMap.has topicId (topics cidx)
  | None => false
  end.

Definition withSource (src : TopicSource) (t : Topic) : Topic :=
  mkTopic (t_id t) (t_name t) (t_description t) (t_createdAt t)
    (t_updatedAt t) (t_documentCount t) (Some src).

Definition getTopic (m : TopicManager) (topicId : string) : option Topic :=
  match
    match topicsIndex m with
    | Some idx => OMap.get topicId (topics idx)
    | None => None
    end
  with
  | Some t => Some (withSource local t)
  | None =>
      match commonTopicsIndex m with
      | Some cidx => withSource common <$> OMap.get topicId (topics cidx)
      | None => None
      end
  end.

Definition getAllTopics (m : TopicManager) : list Topic :=
  let localTopics :=
    match topicsIndex m with
    | Some idx => map (withSource local) (OMap.values (topics idx))
    | None => []
    end in
  let commonTopics :=
    match commonTopicsIndex m with
    | Some cidx => map (withSource common) (OMap.values (topics cidx))
    | None => []
    end in
  localTopics ++ commonTopics.

Definition getTopicDocuments (m : TopicManager) (topicId : string)
  : list TopicDocument :=
  match topicDocuments m !! topicId with
  | Some localDocs => OMap.values localDocs
  | None =>
      match commonTopicDocuments m !! topicId with
      | Some commonDocs => OMap.values commonDocs
      | None => []
      end
  end.

(** **** Embedding-model compatibility and [getVectorStore] *)

Definition mismatchMessage (topicName storedModel current : string) : string :=
  "Topic " +:+ dq +:+ topicName +:+ dq
  +:+ " was indexed with embedding model " +:+ dq +:+ storedModel +:+ dq
  +:+ ", but the current setting is " +:+ dq +:+ current +:+ dq +:+ ". "
  +:+ "The model " +:+ dq +:+ storedModel +:+ dq
  +:+ " is not currently available/downloaded. "
  +:+ "Please switch back to " +:+ dq +:+ storedModel +:+ dq
  +:+ " in settings to download it, or recreate the topic.".

Definition isModelAvailable (w : World) (storedModel : string) : bool :=
  existsb (fun m => bool_decide (m_name m = storedModel)
                    && (m_downloaded m || bool_decide (m_source m = "local")))
          (availableModels w).

Definition ensureEmbeddingModelCompatibility (topicId : string) : M Sys unit :=
  s <- gets (fun s => s) ;;
  match vectorStoreFactory (tm s) with
  | None => ret tt
  | Some _ =>
      (* vectorStoreFactory.getStoreMetadata(topicId) *)
      match storeMetadata (world s) !! topicId with
      | None => ret tt
      | Some metadata =>
          match truthy (sm_embeddingModel metadata) with
          | None => ret tt
          | Some storedModel =>
              let current := currentModel (world s) in
              if bool_decide (storedModel = current) then ret tt
              else if isModelAvailable (world s) storedModel then ret tt
              else
                let topicName :=
                  match topicsIndex (tm s) with
                  | Some idx =>
                      match OMap.get topicId (topics idx) with
                      | Some t => t_name t
                      | None => topicId
                      end
                  | None => topicId
                  end in
                throw (mismatchMessage topicName storedModel current)
          end
      end
  end.

Definition getVectorStore (env : Env) (topicId : string)
  : M Sys (option VectorStore) :=
  factory <- gets (fun s => vectorStoreFactory (tm s)) ;;
  match factory with
  | None => throw notInitialized
  | Some _ =>
      ensureEmbeddingModelCompatibility topicId ;;
      m <- gets tm ;;
      match vectorStoreCache m !! topicId with
      | Some cachedStore => ret (Some cachedStore)
      | None =>
          store <-
            (match isCommonTopic m topicId, truthy (commonDatabasePath m) with
             | true, Some p => loadStore env topicId (Some p)
             | _, _ => loadStore env topicId None
             end) ;;
          match store with
          | Some st =>
              onTm (fun m => setVectorStoreCache
                               (<[topicId := st]> (vectorStoreCache m)) m) ;;
              ret (Some st)
          | None => ret None
          end
      end
  end.

Definition getTopicStats (s : Sys) (topicId : string) : option TopicStats :=
  match topicsIndex (tm s), vectorStoreFactory (tm s) with
  | Some idx, Some _ =>
      let commonTopic :=
        match commonTopicsIndex (tm s) with
        | Some cidx => OMap.get topicId (topics cidx)
        | None => None
        end in
      let '(topic, isCommon) :=
        match OMap.get topicId (topics idx), commonTopic with
        | Some t, _ => (Some t, false)
        | None, Some ct =>
            (Some ct, match truthy (commonDatabasePath (tm s)) with
                      | Some _ => true
                      | None => false
                      end)
        | None, None => (None, false)
        end in
      match topic with
      | None => None
      | Some topic =>
          let documents :=
            if isCommon then commonTopicDocuments (tm s) !! topicId
            else topicDocuments (tm s) !! topicId in
          let documentCount :=
            match documents with Some d => OMap.size d | None => 0 end in
          let metadataFile :=
            if isCommon then commonStoreMetadata (world s) !! topicId
            else storeMetadata (world s) !! topicId in
          let fallback :=
            match truthy (Some (currentModel (world s))),
                  truthy (Some (modelName idx)) with
            | Some c, _ => c
            | None, Some n => n
            | None, None => "unknown"
            end in
          Some (mkTopicStats documentCount
                  (match metadataFile with
                   | Some md => sm_chunkCount md
                   | None => 0
                   end)
                  (t_updatedAt topic)
                  (match metadataFile with
                   | Some md =>
                       match truthy (sm_embeddingModel md) with
                       | Some model => model
                       | None => fallback
                       end
                   | None => fallback
                   end))
      end
  | _, _ => None
  end.

(** **** Mutations of the local registry *)

(** The in-place assignment to the fields of [topicsIndex.topics[topicId]]
    followed by [topicsIndex.lastUpdated = Date.now()]. *)
Definition assignTopic (env : Env) (topicId : string) (f : Topic -> Topic)
  : M Sys unit :=
  onTm (fun m =>
    match topicsIndex m with
    | None => m
    | Some idx =>
        let ts :=
          match OMap.get topicId (topics idx) with
          | Some t => OMap.set topicId (f t) (topics idx)
          | None => topics idx
          end in
        setTopicsIndex (Some (mkIndex ts (modelName idx) (now env))) m
    end).

Definition setDocumentCount (env : Env) (count : Z) (t : Topic) : Topic :=
  setTopicFields (t_name t) (t_description t) (now env) count t.

Definition deleteTopicVectorStore (env : Env) (topicId : string) : M Sys unit :=
  m <- gets tm ;;
  match topicsIndex m, vectorStoreFactory m with
  | Some idx, Some _ =>
      match OMap.get topicId (topics idx) with
      | None => throw (topicNotFound topicId)
      | Some _ =>
          deleteStore env topicId ;;
          onTm (fun m => setVectorStoreCache (delete topicId (vectorStoreCache m)) m) ;;
          onTm (fun m => setFolderChunkStats (delete topicId (folderChunkStats m)) m) ;;
          notifyAgentCacheCleanup env topicId
      end
  | _, _ => throw notInitialized
  end.

Definition deleteTopic (env : Env) (topicId : string) : M Sys unit :=
  m <- gets tm ;;
  match topicsIndex m, vectorStoreFactory m with
  | Some idx, Some _ =>
      match OMap.get topicId (topics idx) with
      | None => throw (topicNotFound topicId)
      | Some _ =>
          deleteStore env topicId ;;
          onTm (fun m => setVectorStoreCache (delete topicId (vectorStoreCache m)) m) ;;
          onTm (fun m => setTopicDocuments (delete topicId (topicDocuments m)) m) ;;
          (* fs.unlink of the documents file, errors ignored *)
          onWorld (fun w => setDocumentsFiles (delete topicId (documentsFiles w)) w) ;;
          onTm (fun m =>
            match topicsIndex m with
            | Some idx =>
                setTopicsIndex
                  (Some (mkIndex (OMap.delete topicId (topics idx))
                                 (modelName idx) (now env))) m
            | None => m
            end) ;;
          saveTopicsIndex env ;;
          notifyAgentCacheCleanup env topicId
      end
  | _, _ => throw notInitialized
  end.

(** [updates] of [updateTopic]: [Partial<Pick<Topic, "name" | "description">>]. *)
Record TopicUpdates := mkUpdates {
  u_name : option string;
  u_description : option string;
}.

Definition updateTopic (env : Env) (topicId : string) (updates : TopicUpdates)
  : M Sys Topic :=
  m <- gets tm ;;
  match topicsIndex m with
  | None => throw notInitialized
  | Some idx =>
      match OMap.get topicId (topics idx) with
      | None => throw (topicNotFound topicId)
      | Some topic =>
          let conflict :=
            match truthy (u_name updates) with
            | Some newName =>
                if bool_decide (newName = t_name topic) then None
                else
                  List.find
                    (fun t => negb (bool_decide (t_id t = topicId))
                              && bool_decide (toLowerCase (t_name t) = toLowerCase newName))
                    (OMap.values (topics idx))
            | None => None
            end in
          match conflict, u_name updates with
          | Some _, Some newName => throw (alreadyExists newName)
          | _, _ =>
              let topic' :=
                setTopicFields
                  (match truthy (u_name updates) with
                   | Some n => n
                   | None => t_name topic
                   end)
                  (match u_description updates with
                   | Some d => Some d
                   | None => t_description topic
                   end)
                  (now env) (t_documentCount topic) topic in
              assignTopic env topicId (fun _ => topic') ;;
              saveTopicsIndex env ;;
              ret topic'
          end
      end
  end.

(** [lanceTable.delete(`documentName = '...'`)] on the store's table. *)
Definition deleteRows (env : Env) (store : VectorStore) (fileName : string)
  : M Sys unit :=
  match failTableDelete env with
  | Some e => throw e
  | None =>
      let keep := filter (fun c => documentName c <> fileName) in
      let sweep := map (fun f : string * list Chunk => (f.1, keep f.2)) in
      onWorld (fun w =>
        match vs_root store with
        | None =>
            setStoreFiles (storeMetadata w)
              (alter sweep (vs_topicId store) (tables w)) w
        | Some _ =>
            mkWorld (currentModel w) (availableModels w) (watchConfig w)
              (commonPathSetting w) (commonDisk w) (indexFile w)
              (documentsFiles w) (storeMetadata w) (commonStoreMetadata w)
              (tables w) (alter sweep (vs_topicId store) (commonTables w))
              (archives w) (cleanupCalls w)
        end)
  end.

Definition removeDocumentByFilePath (env : Env) (topicId filePath : string)
  : M Sys bool :=
  m <- gets tm ;;
  match topicsIndex m, vectorStoreFactory m with
  | Some idx, Some _ =>
      match OMap.get topicId (topics idx) with
      | None => throw (topicNotFound topicId)
      | Some _ =>
          match topicDocuments m !! topicId with
          | None => ret false
          | Some documents =>
              match List.find (fun doc => bool_decide (d_filePath doc = filePath))
                              (OMap.values documents) with
              | None => ret false
              | Some documentToRemove =>
                  (* Remove document metadata from cache *)
                  let documents' := OMap.delete (d_id documentToRemove) documents in
                  onTm (fun m => setTopicDocuments
                                   (<[topicId := documents']> (topicDocuments m)) m) ;;
                  (* Remove chunks from vector store *)
                  vectorStore <- getVectorStore env topicId ;;
                  match vectorStore with
                  | Some store =>
                      tryCatch (deleteRows env store (path_basename filePath))
                               (fun _ => ret tt)
                  | None => ret tt
                  end ;;
                  (* Update topic document count *)
                  assignTopic env topicId
                    (setDocumentCount env (OMap.size documents')) ;;
                  saveTopicsIndex env ;;
                  saveTopicDocuments env topicId ;;
                  removeFolderChunkStats env topicId filePath ;;
                  ret true
              end
          end
      end
  | _, _ => throw notInitialized
  end.

(** The loop of [addDocuments]; [n] counts the identifiers generated so far
    and [results] collects the documents added. *)
Fixpoint addEach (env : Env) (topicId : string) (filePaths : list string)
    (n : nat) (results : list TopicDocument) : M Sys (list TopicDocument) :=
  match filePaths with
  | [] => ret results
  | filePath :: rest =>
      match processDocument env filePath with
      | PipelineThrows _ | Rejected => addEach env topicId rest n results
      | Stored chunksStored =>
          let document :=
            mkDocument (generateDocumentId env n) topicId
              (path_basename filePath) filePath
              (mapFileType (dropString 1 (path_extname filePath)))
              (now env) chunksStored in
          onTm (fun m =>
            let docs :=
              match topicDocuments m !! topicId with
              | Some d => d
              | None => []
              end in
            setTopicDocuments
              (<[topicId := OMap.set (d_id document) document docs]>
                 (topicDocuments m)) m) ;;
          updateFolderChunkStats env topicId filePath (d_chunkCount document) ;;
          addEach env topicId rest (S n) (results ++ [document])
      end
  end.

Definition addDocumentsFrom (n : nat) (env : Env) (topicId : string)
    (filePaths : list string) : M Sys (list TopicDocument) :=
  m <- gets tm ;;
  match topicsIndex m with
  | None => throw notInitialized
  | Some idx =>
      match OMap.get topicId (topics idx) with
      | None => throw (topicNotFound topicId)
      | Some _ =>
          results <- addEach env topicId filePaths n [] ;;
          m <- gets tm ;;
          assignTopic env topicId
            (setDocumentCount env
               (match topicDocuments m !! topicId with
                | Some d => OMap.size d
                | None => 0
                end)) ;;
          saveTopicsIndex env ;;
          saveTopicDocuments env topicId ;;
          ret results
      end
  end.

Definition addDocuments := addDocumentsFrom 0.

Record CreateTopicOptions := mkOptions {
  o_name : string;
  o_description : option string;
  o_initialDocuments : list string;
}.

Definition createTopic (env : Env) (options : CreateTopicOptions) : M Sys Topic :=
  m <- gets tm ;;
  match topicsIndex m with
  | None => throw notInitialized
  | Some idx =>
      match findByName (o_name options) (topics idx) with
      | Some _ => throw (alreadyExists (o_name options))
      | None =>
          let topic :=
            mkTopic (generateTopicId env 0) (o_name options)
              (o_description options) (now env) (now env) 0 None in
          onTm (setTopicsIndex
                  (Some (mkIndex (OMap.set (t_id topic) topic (topics idx))
                                 (modelName idx) (now env)))) ;;
          saveTopicsIndex env ;;
          onTm (fun m => setTopicDocuments
                           (<[t_id topic := []]> (topicDocuments m)) m) ;;
          match o_initialDocuments options with
          | [] => ret tt
          | docs => addDocumentsFrom 1 env (t_id topic) docs ;; ret tt
          end ;;
          (* the object returned is the one stored in the index *)
          m <- gets tm ;;
          ret (match topicsIndex m with
               | Some idx' =>
                   match OMap.get (t_id topic) (topics idx') with
                   | Some t => t
                   | None => topic
                   end
               | None => topic
               end)
      end
  end.

(** **** Export and import *)

Definition EXPORT_FORMAT_VERSION : string := "1.0".

Definition lancePrefix (topicId : string) : string :=
  "lancedb/" +:+ topicId +:+ ".lance/".

Definition legacyPrefix (topicId : string) : string :=
  "lancedb/" +:+ topicId +:+ "/".

Definition metadataEntryName (topicId : string) : string :=
  "vector-" +:+ topicId +:+ "-metadata.json".

Definition exportTopic (env : Env) (topicId exportPath : string) : M Sys unit :=
  s <- gets (fun s => s) ;;
  match topicsIndex (tm s) with
  | None => throw notInitialized
  | Some idx =>
      if isCommonTopic (tm s) topicId
      then throw "Cannot export topics from common database"
      else
        match OMap.get topicId (topics idx) with
        | None => throw (topicNotFound topicId)
        | Some topic =>
            let exportData :=
              mkExport EXPORT_FORMAT_VERSION topic
                (getTopicDocuments (tm s) topicId) (modelName idx) (now env) in
            let tableEntries :=
              match tables (world s) !! topicId with
              | Some files =>
                  map (fun f : string * list Chunk =>
                         mkEntry (lancePrefix topicId +:+ f.1) false (TableFile f.2))
                      files
              | None => []
              end in
            let metadataEntries :=
              match storeMetadata (world s) !! topicId with
              | Some md => [mkEntry (metadataEntryName topicId) false (MetadataJson md)]
              | None => []
              end in
            onWorld (fun w =>
              setArchives
                (<[exportPath :=
                     mkEntry "topic.json" false (TopicJson exportData)
                     :: tableEntries ++ metadataEntries]> (archives w)) w)
        end
  end.

(** The extraction loop of [importTopic]: the files of the exported table,
    under either prefix, written below the new table directory. *)
Fixpoint extractTable (originalTopicId : string) (entries : list ZipEntry)
    (files : list (string * list Chunk)) : list (string * list Chunk) :=
  match entries with
  | [] => files
  | entry :: rest =>
      let rows :=
        match entryData entry with TableFile r => r | _ => [] end in
      let write (pre : string) :=
        if isDirectory entry then files
        else OMap.set (dropString (String.length pre) (entryName entry)) rows files in
      extractTable originalTopicId rest
        (if startsWith (entryName entry) (lancePrefix originalTopicId)
         then write (lancePrefix originalTopicId)
         else if startsWith (entryName entry) (legacyPrefix originalTopicId)
         then write (legacyPrefix originalTopicId)
         else files)
  end.

(** [exportData.documents.map(doc => ({...doc, id: generateDocumentId(),
    topicId: newTopicId}))]; identifier [n] is the next one to generate. *)
Fixpoint remapDocuments (env : Env) (newTopicId : string) (n : nat)
    (docs : list TopicDocument) : list TopicDocument :=
  match docs with
  | [] => []
  | doc :: rest =>
      mkDocument (generateDocumentId env n) newTopicId (d_name doc)
        (d_filePath doc) (d_fileType doc) (d_addedAt doc) (d_chunkCount doc)
      :: remapDocuments env newTopicId (S n) rest
  end.

(** [for (const doc of docs) documentsMap.set(doc.id, doc)]. *)
Definition documentsMapOf (docs : list TopicDocument)
  : list (string * TopicDocument) :=
  foldl (fun acc doc => OMap.set (d_id doc) doc acc) [] docs.

Definition importTopic (env : Env) (archivePath : string) : M Sys Topic :=
  s <- gets (fun s => s) ;;
  match topicsIndex (tm s) with
  | None => throw notInitialized
  | Some idx =>
      match archives (world s) !! archivePath with
      | None => throw "Invalid filename"   (* thrown by the zip reader *)
      | Some entries =>
          match List.find (fun e => bool_decide (entryName e = "topic.json")) entries with
          | None => throw "Invalid archive: topic.json not found"
          | Some topicEntry =>
              match entryData topicEntry with
              | TopicJson exportData =>
                  let newTopicId := generateTopicId env 0 in
                  let originalTopicId := t_id (x_topic exportData) in
                  let importedName := t_name (x_topic exportData) in
                  let newTopic :=
                    mkTopic newTopicId
                      (match findByName importedName (topics idx) with
                       | Some _ => importedName +:+ " (imported)"
                       | None => importedName
                       end)
                      (t_description (x_topic exportData)) (now env) (now env)
                      (t_documentCount (x_topic exportData)) (Some local) in
                  (* Extract LanceDB files with new topic ID *)
                  onWorld (fun w =>
                    let dir :=
                      match tables w !! newTopicId with
                      | Some files => files
                      | None => []
                      end in
                    setStoreFiles
                      (match List.find
                               (fun e => bool_decide
                                  (entryName e = metadataEntryName originalTopicId))
                               entries with
                       | Some (mkEntry _ _ (MetadataJson md)) =>
                           <[newTopicId :=
                               mkStoreMetadata newTopicId (sm_embeddingModel md)
                                 (sm_chunkCount md)]> (storeMetadata w)
                       | _ => storeMetadata w
                       end)
                      (<[newTopicId := extractTable originalTopicId entries dir]>
                         (tables w)) w) ;;
                  (* Update document IDs and topic references *)
                  let newDocuments :=
                    remapDocuments env newTopicId 1 (x_documents exportData) in
                  (* Save to index *)
                  onTm (fun m =>
                    match topicsIndex m with
                    | Some idx =>
                        setTopicsIndex
                          (Some (mkIndex (OMap.set newTopicId newTopic (topics idx))
                                         (modelName idx) (now env))) m
                    | None => m
                    end) ;;
                  saveTopicsIndex env ;;
                  (* Save documents *)
                  onTm (fun m => setTopicDocuments
                                   (<[newTopicId := documentsMapOf newDocuments]>
                                      (topicDocuments m)) m) ;;
                  saveTopicDocuments env newTopicId ;;
                  ret newTopic
              | _ => throw "Unexpected token in JSON"  (* JSON.parse *)
              end
          end
      end
  end.

(** **** The common (read-only) database *)

(** [loadCommonTopicDocuments] for each key of the common index, in order. *)
Definition loadCommonTopicDocuments (files : gmap string (list TopicDocument))
    (acc : gmap string (list (string * TopicDocument))) (topicId : string)
  : gmap string (list (string * TopicDocument)) :=
  match files !! topicId with
  | Some documentsArray => <[topicId := documentsMapOf documentsArray]> acc
  | None => <[topicId := []]> acc
  end.

(** The names of the common topics that a local topic already bears. *)
Definition nameConflicts (localIndex : option TopicsIndex)
    (commonIndex : TopicsIndex) : list string :=
  let localTopicNames :=
    match localIndex with
    | Some idx => map (fun t => toLowerCase (t_name t)) (OMap.values (topics idx))
    | None => []
    end in
  map t_name
    (filter (fun t => toLowerCase (t_name t) ∈ localTopicNames)
            (OMap.values (topics commonIndex))).

Definition loadCommonDatabase : M Sys unit :=
  s <- gets (fun s => s) ;;
  match truthy (commonPathSetting (world s)) with
  | None => onTm (setCommon None ∅ None)
  | Some commonPath =>
      match commonDisk (world s) with
      | PathInaccessible _ => onTm (setCommon None ∅ None)
      | IndexMissing => onTm (setCommon None ∅ (Some commonPath))
      | IndexUnreadable _ => onTm (setCommon None ∅ None)
      | IndexParsed None _ =>
          onTm (fun m => setCommon None (commonTopicDocuments m) (Some commonPath) m)
      | IndexParsed (Some cidx) files =>
          match nameConflicts (topicsIndex (tm s)) cidx with
          | _ :: _ =>
              (* Abort loading *)
              onTm (setCommon None ∅ None)
          | [] =>
              onTm (fun m =>
                setCommon (Some cidx)
                  (foldl (loadCommonTopicDocuments files)
                         (commonTopicDocuments m) (OMap.keys (topics cidx)))
                  (Some commonPath) m)
          end
      end
  end.

(** The read-only registry held by the manager. *)
Definition commonRegistry (m : TopicManager)
  : option TopicsIndex * gmap string (list (string * TopicDocument))
    * option string :=
  (commonTopicsIndex m, commonTopicDocuments m, commonDatabasePath m).

(** The local topic recorded under [topicId], if any. *)
Definition localTopic (m : TopicManager) (topicId : string) : option Topic :=
  match topicsIndex m with
  | Some idx => OMap.get topicId (topics idx)
  | None => None
  end.

(** The number of documents registered to [topicId] in the document map. *)
Definition registered (m : TopicManager) (topicId : string) : Z :=
  match topicDocuments m !! topicId with
  | Some docs => OMap.size docs
  | None => 0
  end.

(** [documentCount] of the local topic agrees with the document map. *)
Definition countAgrees (m : TopicManager) (topicId : string) : Prop :=
  t_documentCount <$> localTopic m topicId = Some (registered m topicId).

(** The document of the topic recorded under [filePath], as the loop of
    [removeDocumentByFilePath] finds it. *)
Definition documentAt (m : TopicManager) (topicId filePath : string)
  : option TopicDocument :=
  match topicDocuments m !! topicId with
  | Some documents =>
      List.find (fun doc => bool_decide (d_filePath doc = filePath))
                (OMap.values documents)
  | None => None
  end.

(** The stored model of the topic, if any, is the active one or an
    available one: the check of [ensureEmbeddingModelCompatibility] passes. *)
Definition compatible (w : World) (topicId : string) : Prop :=
  match storeMetadata w !! topicId with
  | Some metadata =>
      match truthy (sm_embeddingModel metadata) with
      | Some storedModel =>
          storedModel = currentModel w \/ isModelAvailable w storedModel = true
      | None => True
      end
  | None => True
  end.

(** A call made on a topic, with the outcomes of its collaborators. *)
Inductive Call :=
| AddDocuments (env : Env) (filePaths : list string)
| RemoveDocument (env : Env) (filePath : string).

Definition perform (topicId : string) (s : Sys) (c : Call) : Sys :=
  match c with
  | AddDocuments env filePaths => (addDocuments env topicId filePaths s).2
  | RemoveDocument env filePath =>
      (removeDocumentByFilePath env topicId filePath s).2
  end.

(** The store of the call's topic can be loaded. *)
Definition loads (c : Call) : Prop :=
  match c with
  | AddDocuments _ _ => True
  | RemoveDocument env _ => failLoadStore env = None
  end.

(** The topic is a local one, the factory is there and the stored model
    is compatible. *)
Definition ready (topicId : string) (s : Sys) : Prop :=
  is_Some (localTopic (tm s) topicId)
  /\ is_Some (vectorStoreFactory (tm s))
  /\ compatible (world s) topicId.

(** A method that never assigns the common registry. *)
Definition keepsCommon {A : Type} (m : M Sys A) : Prop :=
  forall c, preserves (fun s => commonRegistry (tm s) = c) m.

End Methods.
End Registry.

(* ===================================================================== *)
(** ** Pause coordinator ([progressTracker.ts]) and the per-file loops of
       the file watcher ([fileWatcherService.ts]) *)
(* ===================================================================== *)

Module Tracker.

(** The [resolve] function of a pending promise, by the number of the
    caller that awaits it. *)
Definition Resolver := nat.

Record ProgressTracker := mkTracker {
  _isPaused : bool;
  pauseResolvers : list (string * list Resolver);
}.

Definition initial : ProgressTracker := mkTracker false [].

Definition isPaused (t : ProgressTracker) : bool := _isPaused t.

Definition pause (t : ProgressTracker) : ProgressTracker :=
  if _isPaused t then t else mkTracker true (pauseResolvers t).

(** Returns the tracker and the resolvers it called, in call order. *)
Definition resume (t : ProgressTracker) : ProgressTracker * list Resolver :=
  if negb (_isPaused t) then (t, [])
  else (mkTracker false [], concat (OMap.values (pauseResolvers t))).

Definition togglePause (t : ProgressTracker) : ProgressTracker * list Resolver :=
  if _isPaused t then resume t else (pause t, []).

(** [waitIfPaused(topicId)], called by [caller].  The boolean tells whether
    the promise returned is still pending. *)
Definition waitIfPaused (t : ProgressTracker) (topicId : string)
    (caller : Resolver) : ProgressTracker * bool :=
  if negb (_isPaused t) then (t, false)
  else
    let queue :=
      match OMap.get topicId (pauseResolvers t) with
      | Some rs => rs
      | None => []
      end in
    (mkTracker (_isPaused t)
       (OMap.set topicId (queue ++ [caller]) (pauseResolvers t)), true).

(** *** The batch of [processQueuedChanges]

    The two [for] loops over [existingFiles], as a coroutine: the event
    loop runs the batch from one [await] to the next, and runs the pause
    and resume commands in between. *)

Inductive Loop := Removing | Adding.

(** Where the batch stands. *)
Inductive Position :=
| AtCheckpoint (loop : Loop) (rest : list string)
    (* about to call [waitIfPaused] for the head of [rest] *)
| Suspended (loop : Loop) (file : string) (rest : list string)
    (* awaiting the promise of [waitIfPaused] *)
| InFlight (loop : Loop) (file : string) (rest : list string)
    (* awaiting [removeDocumentByFilePath] or [addDocuments] on [file] *)
| Finished.

Record Batch := mkBatch {
  topicId : string;              (* defaultTopicId *)
  existingFiles : list string;
  position : Position;
  processedCount : nat;
  removals : list string;  (* files handed to removeDocumentByFilePath *)
  additions : list string; (* files handed to addDocuments *)
}.

Definition start (topic : string) (files : list string) : Batch :=
  mkBatch topic files (AtCheckpoint Removing files) 0 [] [].

Record State := mkState { tracker : ProgressTracker; batch : Batch }.

(** The resolver of the batch's only pending promise. *)
Definition batchCaller : Resolver := 0%nat.

(** The loop body after the checkpoint: the operation on [file] starts. *)
Definition begin (b : Batch) (loop : Loop) (file : string) (rest : list string)
  : Batch :=
  match loop with
  | Removing =>
      mkBatch (topicId b) (existingFiles b) (InFlight Removing file rest)
        (processedCount b) (removals b ++ [file]) (additions b)
  | Adding =>
      mkBatch (topicId b) (existingFiles b) (InFlight Adding file rest)
        (processedCount b) (removals b) (additions b ++ [file])
  end.

Definition moveTo (b : Batch) (p : Position) (count : nat) : Batch :=
  mkBatch (topicId b) (existingFiles b) p count (removals b) (additions b).

(** The batch runs until its next [await]. *)
Definition run (s : State) : State :=
  let b := batch s in
  match position b with
  | AtCheckpoint Removing [] =>
      (* processedCount = 0; the second loop starts *)
      mkState (tracker s) (moveTo b (AtCheckpoint Adding (existingFiles b)) 0)
  | AtCheckpoint Adding [] =>
      (* completeTracking *)
      mkState (tracker s) (moveTo b Finished (processedCount b))
  | AtCheckpoint loop (file :: rest) =>
      let '(t, pending) := waitIfPaused (tracker s) (topicId b) batchCaller in
      if pending
      then mkState t (moveTo b (Suspended loop file rest) (processedCount b))
      else mkState t (begin b loop file rest)
  | InFlight Removing _ rest =>
      mkState (tracker s) (moveTo b (AtCheckpoint Removing rest) (processedCount b))
  | InFlight Adding _ rest =>
      (* processedCount++ *)
      mkState (tracker s) (moveTo b (AtCheckpoint Adding rest) (S (processedCount b)))
  | Suspended _ _ _ | Finished => s
  end.

Inductive Event := PauseCommand | ResumeCommand | RunBatch.

Definition step (s : State) (e : Event) : State :=
  match e with
  | PauseCommand => mkState (pause (tracker s)) (batch s)
  | ResumeCommand =>
      let '(t, called) := resume (tracker s) in
      match position (batch s) with
      | Suspended loop file rest =>
          if bool_decide (batchCaller ∈ called)
          then mkState t (begin (batch s) loop file rest)
          else mkState t (batch s)
      | _ => mkState t (batch s)
      end
  | RunBatch => run s
  end.

Definition steps (s : State) (es : list Event) : State := foldl step s es.

(** The files of a loop that are still to be handed over. *)
Definition pending (loop : Loop) (b : Batch) : list string :=
  match position b, loop with
  | AtCheckpoint Removing rest, Removing => rest
  | Suspended Removing file rest, Removing => file :: rest
  | InFlight Removing _ rest, Removing => rest
  | AtCheckpoint Removing _, Adding
  | Suspended Removing _ _, Adding
  | InFlight Removing _ _, Adding => existingFiles b
  | AtCheckpoint Adding rest, Adding => rest
  | Suspended Adding file rest, Adding => file :: rest
  | InFlight Adding _ rest, Adding => rest
  | _, _ => []
  end.

(** One more file may still complete: the one in flight in the second loop. *)
Definition inFlight (b : Batch) : nat :=
  match position b with
  | InFlight Adding _ _ => 1
  | _ => 0
  end.

(** What each loop has handed over and what it still holds make up the
    batch, in order. *)
Definition inOrder (b : Batch) : Prop :=
  removals b ++ pending Removing b = existingFiles b
  /\ additions b ++ pending Adding b = existingFiles b.

Definition noResume (es : list Event) : Prop :=
  Forall (fun e => e <> ResumeCommand) es.

(** The reading of the pause under which the count of processed files
    stands still from the pause command on, until a resume. *)
Definition pauseFreezesProgress : Prop :=
  forall (files : list string) (before after : list Event),
    noResume after ->
    let s := steps (mkState initial (start "topic" files)) before in
    processedCount (batch (steps (step s PauseCommand) after))
    = processedCount (batch s).

End Tracker.

(* ===================================================================== *)
(** ** Retrieval service ([restServer.ts]) *)
(* ===================================================================== *)

Module Rest.
Import Registry.

(** A parameter of the query string as [url.parse(_, true)] gives it: a
    string, or the array of its values when the parameter is repeated. *)
Inductive QueryValue :=
| One (value : string)
| Many (values : list string).

(** The parsed query string of [GET /search]; [None] is a parameter that
    the request does not have. *)
Record ParsedUrlQuery := mkQuery {
  q : option QueryValue;
  limit : option Z;     (* [parseInt(query.limit)]; [None] is [NaN] *)
  topic : option QueryValue;
}.

(** The truthiness test on a parameter: the empty string and [undefined]
    are falsy, an array is truthy. *)
Definition given (v : option QueryValue) : option QueryValue :=
  match v with
  | Some (One value) => if nonEmpty value then Some (One value) else None
  | Some (Many values) => Some (Many values)
  | None => None
  end.

(** The parameter inside a template literal: an array is joined by
    commas. *)
Definition asText (v : QueryValue) : string :=
  match v with
  | One value => value
  | Many values => String.concat "," values
  end.

(** A retrieved document with its score, as the agent returns it. *)
Record RetrievedDocument := mkRetrieved {
  r_pageContent : string;
  r_source : option string;        (* metadata?.source *)
  r_documentName : option string;  (* metadata?.documentName *)
  r_chunkId : option string;       (* metadata?.chunkId *)
  r_score : Z;
}.

Record RAGResult := mkRagResult {
  rag_results : list RetrievedDocument;
  rag_totalResults : Z;
  rag_strategy : string;
}.

Record RAGAgentOptions := mkAgentOptions {
  ao_topicName : string;
  ao_topK : Z;
  ao_retrievalStrategy : string;
  ao_enableIterativeRefinement : bool;
}.

Record SearchResultItem := mkItem {
  i_content : string;
  i_path : string;
  i_score : Z;
  i_topic : string;
  i_chunkId : option string;
}.

Record SearchResponse := mkSearchResponse {
  sr_query : QueryValue;
  sr_results : list SearchResultItem;
  sr_totalResults : Z;
  sr_executionTime : Z;
  sr_strategy : string;
}.

(** The JSON body written to the response. *)
Inductive Body :=
| ErrorBody (error : string)            (* [{ error: message }] *)
| SearchBody (response : SearchResponse).

Record Response := mkResponse {
  status : Z;
  body : Body;
}.

(** A [RAGAgent], by the vector store it was initialized with. *)
Record RAGAgent := mkAgent { a_store : VectorStore }.

Record RestServer := mkServer {
  topicManager : bool;     (* [this.topicManager] is set *)
  agentCache : gmap string RAGAgent;
}.

(** The server together with the manager and the world it talks to. *)
Record Node := mkRestNode {
  server : RestServer;
  sys : Sys;
}.

(** The outcomes, during one request, of the calls into the embedding
    service, the agent and the configuration. *)
Record SearchEnv := mkSearchEnv {
  callEnv : Env;
  finishedAt : Z;                            (* the second Date.now() *)
  failInitializeModel : option string;       (* embeddingService.initialize *)
  failAgentInitialize : option string;       (* agent.initialize *)
  agentQuery : QueryValue -> RAGAgentOptions -> result RAGResult;
  retrievalStrategy : string;                (* CONFIG.RETRIEVAL_STRATEGY *)
  useAgenticMode : bool;                     (* CONFIG.USE_AGENTIC_MODE *)
}.

Section Handlers.
Context {platform : Platform}.

Definition sendJson (data : SearchResponse) : Response :=
  mkResponse 200 (SearchBody data).

Definition sendError (code : Z) (message : string) : Response :=
  mkResponse code (ErrorBody message).

Definition switchFailedMessage (topicName topicModel current error : string)
  : string :=
  "Topic " +:+ dq +:+ topicName +:+ dq
  +:+ " was indexed with embedding model " +:+ dq +:+ topicModel +:+ dq
  +:+ ", but the current setting is " +:+ dq +:+ current +:+ dq
  +:+ ". Failed to switch models: " +:+ error.

Definition searchFailed (errorMessage : string) : string :=
  "Search failed: " +:+ errorMessage.

(** Modelled from the spec: [EmbeddingService.initialize(model)] is not among
    the sources.  It hot-switches the active model to the given one, or
    rejects and leaves the active model as it was. *)
Definition initializeModel (e : SearchEnv) (model : string) (s : Sys)
  : result unit * Sys :=
  match failInitializeModel e with
  | Some err => (Throw err, s)
  | None => (Ok tt, mkSys (tm s) (setWorldModel model (world s)))
  end.

Definition toItem (topicName : string) (r : RetrievedDocument)
  : SearchResultItem :=
  mkItem (r_pageContent r)
    (match truthy (r_source r), truthy (r_documentName r) with
     | Some s, _ => s
     | None, Some d => d
     | None, None => EmptyString
     end)
    (r_score r) topicName (r_chunkId r).

(** The part of [handleSearch] after the model check: the agent is taken
    from the cache or built, and the query is run. *)
Definition runQuery (e : SearchEnv) (searchQuery : QueryValue) (topK : Z)
    (targetTopic : Topic) (n : Node) : Response * Node :=
  let withAgent (n : Node) : Response * Node :=
    match agentQuery e searchQuery
            (mkAgentOptions (t_name targetTopic) topK (retrievalStrategy e)
               (useAgenticMode e)) with
    | Throw err => (sendError 500 (searchFailed err), n)
    | Ok ragResult =>
        (sendJson
           (mkSearchResponse searchQuery
              (map (toItem (t_name targetTopic)) (rag_results ragResult))
              (rag_totalResults ragResult)
              (finishedAt e - now (callEnv e))
              (rag_strategy ragResult)), n)
    end in
  match agentCache (server n) !! t_id targetTopic with
  | Some _ => withAgent n
  | None =>
      match getVectorStore (callEnv e) (t_id targetTopic) (sys n) with
      | (Throw err, s') =>
          (sendError 500 (searchFailed err), mkRestNode (server n) s')
      | (Ok None, s') =>
          (sendError 500 "Vector store not available for topic",
           mkRestNode (server n) s')
      | (Ok (Some vectorStore), s') =>
          match failAgentInitialize e with
          | Some err => (sendError 500 (searchFailed err), mkRestNode (server n) s')
          | None =>
              withAgent
                (mkRestNode
                   (mkServer (topicManager (server n))
                      (<[t_id targetTopic := mkAgent vectorStore]>
                         (agentCache (server n))))
                   s')
          end
      end
  end.

(** The [try] block of [handleSearch]: the topic's embedding model is
    compared with the active one, the active model is switched when they
    differ, and the query is run. *)
Definition searchTopic (e : SearchEnv) (searchQuery : QueryValue) (topK : Z)
    (targetTopic : Topic) (n : Node) : Response * Node :=
  let topicEmbeddingModel :=
    match getTopicStats (sys n) (t_id targetTopic) with
    | Some stats => truthy (Some (ts_embeddingModel stats))
    | None => None
    end in
  let currentEmbeddingModel := currentModel (world (sys n)) in
  match topicEmbeddingModel with
  | Some topicModel =>
      if bool_decide (topicModel = currentEmbeddingModel)
      then runQuery e searchQuery topK targetTopic n
      else
        (* Try to switch to the topic's model for this query *)
        match initializeModel e topicModel (sys n) with
        | (Throw err, s') =>
            (sendError 500
               (switchFailedMessage (t_name targetTopic) topicModel
                  currentEmbeddingModel err),
             mkRestNode (server n) s')
        | (Ok _, s') =>
            (* Clear agent cache since we changed the model *)
            runQuery e searchQuery topK targetTopic
              (mkRestNode (mkServer (topicManager (server n)) ∅) s')
        end
  | None => runQuery e searchQuery topK targetTopic n
  end.

(** [parseInt(query.limit) || 10]. *)
Definition topKOf (query : ParsedUrlQuery) : Z :=
  match limit query with
  | Some l => if bool_decide (l = 0) then 10 else l
  | None => 10
  end.

(** The topic named by the request, looked up without regard to case. *)
Definition findNamed (topicName : string) (topics : list Topic) : option Topic :=
  List.find (fun t => bool_decide (toLowerCase (t_name t) = toLowerCase topicName))
            topics.

(** What [topicName.toLowerCase()] throws when [topicName] is an array. *)
Definition notAFunction : string := "topicName.toLowerCase is not a function".

(** A handler that has written its response and returned. *)
Definition answered (p : Response * Node) : result Response * Node :=
  (Ok p.1, p.2).

(** [Ok]: the response written.  [Throw]: the error with which the handler
    rejects, having written nothing; [handleRequest] catches it.  The
    look-up of the named topic stands before the [try] block, and its
    callback, called for the first topic, throws on an array. *)
Definition handleSearch (e : SearchEnv) (query : ParsedUrlQuery) (n : Node)
  : result Response * Node :=
  match given (q query) with
  | None => (Ok (sendError 400 "Missing required parameter: q"), n)
  | Some searchQuery =>
      if negb (topicManager (server n))
      then (Ok (sendError 503 "Topic manager not initialized"), n)
      else
        (* Find the topic to search *)
        let topics := getAllTopics (tm (sys n)) in
        match given (topic query) with
        | Some (One topicName) =>
            match findNamed topicName topics with
            | None =>
                (Ok (sendError 404 ("Topic not found: " +:+ topicName)), n)
            | Some found =>
                answered (searchTopic e searchQuery (topKOf query) found n)
            end
        | Some (Many topicNames) =>
            match topics with
            | [] =>
                (Ok (sendError 404
                       ("Topic not found: " +:+ asText (Many topicNames))), n)
            | _ :: _ => (Throw notAFunction, n)
            end
        | None =>
            match head topics with
            | None => (Ok (sendError 404 "No topics available"), n)
            | Some targetTopic =>
                answered
                  (searchTopic e searchQuery (topKOf query) targetTopic n)
            end
        end
  end.

(** The topic a request resolves to: the one it names, or the first. *)
Definition targets (query : ParsedUrlQuery) (n : Node) (targetTopic : Topic)
  : Prop :=
  match given (topic query) with
  | Some (One topicName) =>
      findNamed topicName (getAllTopics (tm (sys n))) = Some targetTopic
  | Some (Many _) => False
  | None => head (getAllTopics (tm (sys n))) = Some targetTopic
  end.

(** The message of an error response. *)
Definition errorOf (r : Response) : option string :=
  match body r with
  | ErrorBody message => Some message
  | SearchBody _ => None
  end.

Definition clearAgentCache (topicId : string) (srv : RestServer) : RestServer :=
  mkServer (topicManager srv) (delete topicId (agentCache srv)).

End Handlers.
End Rest.

(* ===================================================================== *)
(** ** Concrete inputs *)
(* ===================================================================== *)

Module Examples.
Import Registry Posix.

(** One watch folder, [/w], which is also the workspace root. *)
Definition watch : WatchConfig :=
  {| watchFolders := ["/w"]; legacyWatchFolder := EmptyString;
     workspaceRoot := "/w" |}.

(** A call in which nothing fails and every file yields ten chunks. *)
Definition calm : Env :=
  mkEnv 1700000000000
    (fun n => 1700000000000 + Z.of_nat n)
    (fun n => "k3x9a" +:+ pretty n)
    (fun _ => Stored 10)
    None None None None None false.

(** The active model is [model-b], nothing is on disk. *)
Definition bareWorld : World :=
  mkWorld "model-b" [] watch None IndexMissing None ∅ ∅ ∅ ∅ ∅ ∅ [].

(** An initialized manager with an empty registry and a callback. *)
Definition freshManager : TopicManager :=
  mkManager (Some (mkIndex [] "model-b" 0)) (Some "model-b") ∅ ∅ ∅ None ∅ None
    true.

Definition notes : Topic := mkTopic "topic-l" "Notes" None 1 1 0 None.
Definition shared : Topic := mkTopic "topic-c" "Shared" None 1 1 0 None.

(** A local topic [Notes] and a common registry that holds [Shared]. *)
Definition withCommon : Sys :=
  mkSys
    (mkManager (Some (mkIndex [("topic-l", notes)] "model-b" 1))
       (Some "model-b") ∅ {["topic-l" := []]} ∅
       (Some (mkIndex [("topic-c", shared)] "model-b" 1))
       {["topic-c" := []]} (Some "/common") true)
    bareWorld.

(** The same manager when the common path is configured and the registry
    found there holds a topic named [NOTES]. *)
Definition shouting : Topic := mkTopic "topic-n" "NOTES" None 1 1 3 None.

Definition collidingIndex : TopicsIndex :=
  mkIndex [("topic-c", shared); ("topic-n", shouting)] "model-b" 1.

Definition collision : Sys :=
  mkSys (tm withCommon)
    (mkWorld "model-b" [] watch (Some "/common")
       (IndexParsed (Some collidingIndex) ∅)
       None ∅ ∅ ∅ ∅ ∅ ∅ []).

(** The scenario of the specification: topic [Docs] is created, then one
    file below the watch folder is added. *)
Definition docsId : string := generateTopicId calm 0.

Definition afterCreate : Sys :=
  (createTopic calm (mkOptions "Docs" None []) (mkSys freshManager bareWorld)).2.

Definition introFile : string := "/w/guide/intro.md".

Definition afterAdd : Sys :=
  (addDocuments calm docsId [introFile] afterCreate).2.

(** The same topic once its vectors have been stored under [model-a]
    while the active model is [model-b], which leaves [model-a] neither
    downloaded nor local. *)
Definition indexedUnderA : Sys :=
  mkSys (tm afterAdd)
    (setStoreFiles
       {[docsId := mkStoreMetadata docsId (Some "model-a") 10]}
       {[docsId := [("data.lance", [mkChunk "intro.md" "Welcome"])]]}
       (world afterAdd)).

(** A later call: the clock has moved on. *)
Definition later : Env :=
  mkEnv 1700000005000
    (fun n => 1700000005000 + Z.of_nat n)
    (fun n => "p7q2m" +:+ pretty n)
    (fun _ => Stored 10)
    None None None None None false.

Definition archivePath : string := "/tmp/docs.rag".

(** [/w/draft] is indexed as a file; later the path is a directory and a
    file below it is indexed. *)
Definition draftIndexed : Sys :=
  (addDocuments calm docsId ["/w/draft"] afterCreate).2.

Definition chapterIndexed : Sys :=
  (addDocuments later docsId ["/w/draft/ch1/intro.md"] draftIndexed).2.

(** The server over that topic, with nothing cached. *)
Definition serving : Rest.Node :=
  Rest.mkRestNode (Rest.mkServer true ∅) indexedUnderA.

(** The server over an empty registry. *)
Definition idle : Rest.Node :=
  Rest.mkRestNode (Rest.mkServer true ∅) (mkSys freshManager bareWorld).

Definition oneHit : Rest.RAGResult :=
  Rest.mkRagResult
    [Rest.mkRetrieved "Welcome" (Some introFile) (Some "intro.md") None 1]
    1 "hybrid".

(** A request during which the model cannot be switched. *)
Definition switchFails : Rest.SearchEnv :=
  Rest.mkSearchEnv calm 1700000000250 (Some "model download failed") None
    (fun _ _ => Ok oneHit) "hybrid" true.

(** A request during which every collaborator answers. *)
Definition smooth : Rest.SearchEnv :=
  Rest.mkSearchEnv calm 1700000000250 None None
    (fun _ _ => Ok oneHit) "hybrid" true.

(** [GET /search?q=test&limit=5]. *)
Definition testQuery : Rest.ParsedUrlQuery :=
  Rest.mkQuery (Some (Rest.One "test")) (Some 5) None.

End Examples.

(* ===================================================================== *)
(** ** Plain JavaScript objects used as dictionaries *)
(* ===================================================================== *)

(** The own properties of an object created by [{}] and filled by
    [obj[key] = value], in the order [Object.entries], [Object.keys],
    [for ... in] and [JSON.stringify] enumerate them: the keys that are
    array indices first, in ascending numeric order, then the other keys in
    the order they were created. *)
Module JsObject.

(** The value of a decimal digit. *)
Definition digit (c : ascii) : option N :=
  let n := N_of_ascii c in
  if ((48 <=? n) && (n <=? 57))%N then Some (n - 48)%N else None.

Fixpoint digits (s : string) (acc : N) : option N :=
  match s with
  | EmptyString => Some acc
  | String c r =>
      match digit c with
      | Some d => digits r (10 * acc + d)%N
      | None => None
      end
  end.

(** An array index is a canonical numeric string (no sign, no leading
    zero) whose value is at most [2^32 - 2]. *)
Definition arrayIndex (k : string) : option N :=
  match k with
  | EmptyString => None
  | String c r =>
      if bool_decide (c = ascii_of_nat 48) && nonEmpty r then None
      else
        match digits k 0 with
        | Some v => if (v <? 4294967295)%N then Some v else None
        | None => None
        end
  end.

Section Defs.
Context {V : Type}.

(** A new array-index key takes its place among the array indices. *)
Fixpoint insertIndex (i : N) (k : string) (v : V) (o : list (string * V))
  : list (string * V) :=
  match o with
  | [] => [(k, v)]
  | (k', v') :: r =>
      match arrayIndex k' with
      | Some j =>
          if (j <? i)%N then (k', v') :: insertIndex i k v r
          else (k, v) :: o
      | None => (k, v) :: o
      end
  end.

(** [o[k] = v] for an object value [v].  The key [__proto__] reaches the
    accessor of [Object.prototype], which sets the prototype of [o] and
    creates no own property. *)
Definition assign (k : string) (v : V) (o : list (string * V))
  : list (string * V) :=
  if bool_decide (k = "__proto__") then o
  else if OMap.has k o then OMap.set k v o
  else
    match arrayIndex k with
    | Some i => insertIndex i k v o
    | None => o ++ [(k, v)]
    end.

(** [Object.entries(o)]. *)
Definition entries (o : list (string * V)) : list (string * V) := o.

End Defs.
(** The names of the properties that every plain object inherits from
    [Object.prototype]; each of them is a function or, for [__proto__],
    the prototype itself, hence truthy. *)
Definition inheritedKeys : list string :=
  ["constructor"; "__defineGetter__"; "__defineSetter__"; "hasOwnProperty";
   "__lookupGetter__"; "__lookupSetter__"; "isPrototypeOf";
   "propertyIsEnumerable"; "toString"; "valueOf"; "__proto__";
   "toLocaleString"].

(** What the property read [obj[key]] finds: an own property, an inherited
    one, or [undefined]. *)
Inductive Read (V : Type) : Type :=
| Own (v : V)
| Inherited
| Undefined.
Arguments Own {V} v.
Arguments Inherited {V}.
Arguments Undefined {V}.

Definition read {V : Type} (k : string) (o : list (string * V)) : Read V :=
  match OMap.get k o with
  | Some v => Own v
  | None => if bool_decide (k ∈ inheritedKeys) then Inherited else Undefined
  end.

End JsObject.

(* ===================================================================== *)
(** ** Folder statistics on disk ([topicManager.ts], lines 1125-1226) *)
(* ===================================================================== *)

Module FolderStatsFile.
Import FolderTree.

(** [FolderChunkNodeSerialized]: [children] is the plain object
    [{ [key]: FolderChunkNodeSerialized }]. *)
#[local] Unset Elimination Schemes.
Inductive FolderChunkNodeSerialized : Type :=
  mkSerialized (name path : string) (isFile : bool) (chunkCount : Z)
               (children : list (string * FolderChunkNodeSerialized)).
#[local] Set Elimination Schemes.

(** The value that [JSON.parse] gives for a statistics file; a numeric
    field that the file lacks is [undefined]. *)
Record SerializedStats := mkSerializedStats {
  s_roots : list (string * FolderChunkNodeSerialized);
  s_totalChunks : option Z;
  s_lastUpdated : option Z;
}.

(** *** [serializeFolderChunkStats] *)

Fixpoint serializeNode (node : FolderChunkNode) : FolderChunkNodeSerialized :=
  match node with
  | mkNode nm p f c ch =>
      mkSerialized nm p f c
        ((fix loop (l : list (string * FolderChunkNode))
                   (children : list (string * FolderChunkNodeSerialized))
            : list (string * FolderChunkNodeSerialized) :=
            match l with
            | [] => children
            | (key, child) :: rest =>
                loop rest (JsObject.assign key (serializeNode child) children)
            end) ch [])
  end.

(** The loop [for (const [key, child] of map) obj[key] = serializeNode(child)],
    named so that lemmas can speak of it. *)
Fixpoint serializeEntries (l : list (string * FolderChunkNode))
    (obj : list (string * FolderChunkNodeSerialized))
  : list (string * FolderChunkNodeSerialized) :=
  match l with
  | [] => obj
  | (key, child) :: rest =>
      serializeEntries rest (JsObject.assign key (serializeNode child) obj)
  end.

Definition serializeFolderChunkStats (stats : FolderChunkStats) : SerializedStats :=
  mkSerializedStats (serializeEntries (roots stats) [])
    (Some (totalChunks stats)) (Some (lastUpdated stats)).

(** *** [deserializeFolderChunkStats] *)

Fixpoint deserializeNode (serialized : FolderChunkNodeSerialized) : FolderChunkNode :=
  match serialized with
  | mkSerialized nm p f c ch =>
      mkNode nm p f c
        ((fix loop (l : list (string * FolderChunkNodeSerialized))
                   (children : list (string * FolderChunkNode))
            : list (string * FolderChunkNode) :=
            match l with
            | [] => children
            | (key, child) :: rest =>
                loop rest (OMap.set key (deserializeNode child) children)
            end) (JsObject.entries ch) [])
  end.

(** The loop [for (const [key, child] of Object.entries(obj))
    map.set(key, deserializeNode(child))]. *)
Fixpoint deserializeEntries (l : list (string * FolderChunkNodeSerialized))
    (map : list (string * FolderChunkNode)) : list (string * FolderChunkNode) :=
  match l with
  | [] => map
  | (key, child) :: rest =>
      deserializeEntries rest (OMap.set key (deserializeNode child) map)
  end.

(** [x || d] for an optional number [x]. *)
Definition orElse (x : option Z) (d : Z) : Z :=
  match x with
  | Some v => if bool_decide (v = 0) then d else v
  | None => d
  end.

Definition deserializeFolderChunkStats (now : Z) (data : SerializedStats)
  : FolderChunkStats :=
  mkStats (deserializeEntries (JsObject.entries (s_roots data)) [])
    (orElse (s_totalChunks data) 0) (orElse (s_lastUpdated data) now).

(** *** What the round trip asks of the keys *)

(** The keys of [l] are pairwise distinct, as those of a [Map] are, and
    none of them is [__proto__]. *)
Definition storableKeys (l : list string) : bool :=
  bool_decide (NoDup l) && bool_decide ("__proto__" ∉ l).

(** No key of [l] is an array index, so that an object keeps these keys in
    the order of insertion. *)
Definition plainKeys (l : list string) : bool :=
  forallb (fun k => bool_decide (JsObject.arrayIndex k = None)) l.

(** [check] holds of the keys below every node of the subtree. *)
Fixpoint everyLevel (check : list string -> bool) (n : FolderChunkNode) : bool :=
  match n with
  | mkNode _ _ _ _ ch =>
      check (OMap.keys ch)
      && (fix all (l : list (string * FolderChunkNode)) : bool :=
            match l with
            | [] => true
            | (_, x) :: r => everyLevel check x && all r
            end) ch
  end.

Definition everyLevelOfStats (check : list string -> bool)
    (stats : FolderChunkStats) : bool :=
  check (OMap.keys (roots stats))
  && forallb (fun kv => everyLevel check (snd kv)) (roots stats).

(** The fields of a node other than its children, and how many children it
    has. *)
Definition summary (n : FolderChunkNode) : string * string * bool * Z * nat :=
  (name n, path n, isFile n, chunkCount n, length (children n)).

(** The node found under a root key and the child keys below it. *)
Definition nodeUnder (stats : FolderChunkStats) (rootKey : string)
    (keys : list string) : option FolderChunkNode :=
  match OMap.get rootKey (roots stats) with
  | Some root => nodeAt keys root
  | None => None
  end.

End FolderStatsFile.

(* ===================================================================== *)
(** ** Start-up, reload and shutdown of the topic manager
       ([topicManager.ts], lines 133-216, 1125-1333 and 1723-1890) *)
(* ===================================================================== *)

Module Lifecycle.
Import Registry FolderStatsFile.

(** The manager object with the things the registry methods above do not
    read: the [isInitialized] flag, the folder statistics files, and what
    reading [topics.json] gives where [indexFile] holds no index.  There
    [indexFileNull] tells a file that holds the JSON value [null] from a
    file that cannot be read or parsed; it says nothing while [indexFile]
    holds an index.  What a file parses to is taken to be of the type of
    the field it is assigned to, [TopicsIndex | null]. *)
Record Instance := mkInstance {
  sys : Sys;
  isInitialized : bool;
  folderStatsFiles : gmap string SerializedStats; (* topic-<id>-folder-stats.json *)
  indexFileNull : bool;
}.

(** The outcomes, during a start or a restart, of the calls into the
    embedding service and the document pipeline. *)
Record StartEnv := mkStartEnv {
  callEnv : Env;
  embeddingInitialize : result string;  (* embeddingService.initialize() *)
  pipelineInitialize : option string;   (* documentPipeline.initialize rejects *)
}.

Definition setVectorStoreFactory (v : option string) (m : TopicManager) :=
  mkManager (topicsIndex m) v (vectorStoreCache m) (topicDocuments m)
    (folderChunkStats m) (commonTopicsIndex m) (commonTopicDocuments m)
    (commonDatabasePath m) (agentCacheCleanupCallback m).

Definition setIsInitialized (v : bool) (i : Instance) : Instance :=
  mkInstance (sys i) v (folderStatsFiles i) (indexFileNull i).

(** A registry method run on the manager of the instance. *)
Definition onSys {A : Type} (m : M Sys A) : M Instance A :=
  fun i =>
    let '(r, s') := m (sys i) in
    (r, mkInstance s' (isInitialized i) (folderStatsFiles i) (indexFileNull i)).

(** [for (const x of l) await f(x)]. *)
Fixpoint forEach {S A : Type} (l : list A) (f : A -> M S unit) : M S unit :=
  match l with
  | [] => ret tt
  | x :: rest => f x ;; forEach rest f
  end.

Section Methods.
Context {platform : Platform}.

(** *** Loading *)

(** A documents file that is missing or unreadable gives an empty map. *)
Definition loadTopicDocuments (topicId : string) : M Sys unit :=
  files <- gets (fun s => documentsFiles (world s)) ;;
  let documentsMap :=
    match files !! topicId with
    | Some documentsArray => documentsMapOf documentsArray
    | None => []
    end in
  onTm (fun m => setTopicDocuments
                   (<[topicId := documentsMap]> (topicDocuments m)) m).

(** A statistics file that is missing or unreadable leaves the statistics
    in memory as they are. *)
Definition loadFolderChunkStats (env : Env) (topicId : string)
  : M Instance unit :=
  files <- gets folderStatsFiles ;;
  match files !! topicId with
  | Some serialized =>
      onSys (onTm (fun m =>
        setFolderChunkStats
          (<[topicId := deserializeFolderChunkStats (now env) serialized]>
             (folderChunkStats m)) m))
  | None => ret tt
  end.

Definition loadAllTopicDocuments (env : Env) : M Instance unit :=
  index <- gets (fun i => topicsIndex (tm (sys i))) ;;
  match index with
  | None => ret tt
  | Some idx =>
      forEach (OMap.keys (topics idx))
        (fun topicId =>
           onSys (loadTopicDocuments topicId) ;;
           loadFolderChunkStats env topicId)
  end.

(** The file holds [null]. *)
Definition holdsNull (i : Instance) : bool :=
  match indexFile (world (sys i)) with
  | Some _ => false
  | None => indexFileNull i
  end.

(** What [JSON.parse] gives is assigned as it is, also when it is [null]:
    [loadAllTopicDocuments] then returns at once and the index stays
    unset.  When [readFile] or [JSON.parse] throws, the [catch] block
    creates a new index and writes it. *)
Definition loadTopicsIndex (env : Env) : M Instance unit :=
  file <- gets (fun i => indexFile (world (sys i))) ;;
  match file with
  | Some idx =>
      onSys (onTm (setTopicsIndex (Some idx))) ;;
      loadAllTopicDocuments env
  | None =>
      isNull <- gets indexFileNull ;;
      if isNull then
        onSys (onTm (setTopicsIndex None)) ;;
        loadAllTopicDocuments env
      else
        model <- gets (fun i => currentModel (world (sys i))) ;;
        onSys (onTm (setTopicsIndex (Some (mkIndex [] model (now env))))) ;;
        onSys (saveTopicsIndex env)
  end.

Definition refresh (env : Env) : M Instance unit := loadTopicsIndex env.

(** The write is not awaited by its callers and its failure is only
    logged. *)
Definition saveFolderChunkStats (failWrite : option string) (topicId : string)
  : M Instance unit :=
  stats <- gets (fun i => folderChunkStats (tm (sys i)) !! topicId) ;;
  match stats, failWrite with
  | Some st, None =>
      modify (fun i =>
        mkInstance (sys i) (isInitialized i)
          (<[topicId := serializeFolderChunkStats st]> (folderStatsFiles i))
          (indexFileNull i))
  | _, _ => ret tt
  end.

(** *** Start *)

(** Modelled from the spec: [EmbeddingService.initialize()] is not among
    the sources.  It loads the configured embedding model and makes it the
    active one, or rejects and leaves the active model as it was. *)
Definition initializeEmbeddings (e : StartEnv) : M Instance unit :=
  match embeddingInitialize e with
  | Throw err => throw err
  | Ok model => onSys (onWorld (setWorldModel model))
  end.

Definition initializePipeline (e : StartEnv) : M Instance unit :=
  match pipelineInitialize e with
  | Some err => throw err
  | None => ret tt
  end.

Definition init (e : StartEnv) : M Instance unit :=
  initialized <- gets isInitialized ;;
  if initialized then ret tt
  else
    (* ensureStorageDirectory: its error is ignored *)
    initializeEmbeddings e ;;
    loadTopicsIndex (callEnv e) ;;
    initializePipeline e ;;
    index <- gets (fun i => topicsIndex (tm (sys i))) ;;
    match index with
    | None => throw "Cannot read properties of null (reading 'modelName')"
    | Some idx =>
        onSys (onTm (setVectorStoreFactory (Some (modelName idx)))) ;;
        onSys loadCommonDatabase ;;
        modify (setIsInitialized true)
    end.

Definition ensureInitialized (e : StartEnv) : M Instance unit :=
  initialized <- gets isInitialized ;;
  if initialized then ret tt else init e.

(** [EXTENSION.DEFAULT_TOPIC_NAME]. *)
Definition DEFAULT_TOPIC_NAME : string := "Default".

Definition defaultTopicOptions : CreateTopicOptions :=
  mkOptions DEFAULT_TOPIC_NAME
    (Some "Automatically managed topic for watched folder") [].

Definition ensureDefaultTopic (e : StartEnv) : M Instance Topic :=
  ensureInitialized e ;;
  index <- gets (fun i => topicsIndex (tm (sys i))) ;;
  match index with
  | None => throw notInitialized
  | Some idx =>
      match List.find (fun t => bool_decide (t_name t = DEFAULT_TOPIC_NAME))
                      (OMap.values (topics idx)) with
      | Some defaultTopic => ret defaultTopic
      | None => onSys (createTopic (callEnv e) defaultTopicOptions)
      end
  end.

(** *** Restart under another embedding model, and shutdown *)

Definition reinitializeWithNewModel (e : StartEnv) : M Instance unit :=
  m <- gets (fun i => tm (sys i)) ;;
  let topicIds :=
    match topicsIndex m with
    | Some idx => OMap.keys (topics idx)
    | None => []
    end in
  onSys (onTm (setVectorStoreCache ∅)) ;;
  forEach topicIds (fun topicId =>
    onSys (notifyAgentCacheCleanup (callEnv e) topicId)) ;;
  initializePipeline e ;;
  model <- gets (fun i => currentModel (world (sys i))) ;;
  index <- gets (fun i => topicsIndex (tm (sys i))) ;;
  match index with
  | Some idx =>
      onSys (onTm (setTopicsIndex
                     (Some (mkIndex (topics idx) model (now (callEnv e)))))) ;;
      onSys (saveTopicsIndex (callEnv e)) ;;
      onSys (onTm (setVectorStoreFactory (Some model)))
  | None => ret tt
  end.

Definition dispose (i : Instance) : Instance :=
  let m := tm (sys i) in
  mkInstance
    (mkSys
       (mkManager None None ∅ ∅ (folderChunkStats m) (commonTopicsIndex m)
          (commonTopicDocuments m) (commonDatabasePath m) false)
       (world (sys i)))
    false (folderStatsFiles i) (indexFileNull i).

Definition registerAgentCacheCleanupCallback (m : TopicManager) : TopicManager :=
  mkManager (topicsIndex m) (vectorStoreFactory m) (vectorStoreCache m)
    (topicDocuments m) (folderChunkStats m) (commonTopicsIndex m)
    (commonTopicDocuments m) (commonDatabasePath m) true.

(** *** The public calls that change or read the stores *)

Inductive Command :=
| CreateTopic (options : CreateTopicOptions)
| UpdateTopic (topicId : string) (updates : TopicUpdates)
| DeleteTopic (topicId : string)
| DeleteTopicVectorStore (topicId : string)
| AddDocuments (topicId : string) (filePaths : list string)
| RemoveDocumentByFilePath (topicId filePath : string)
| ExportTopic (topicId exportPath : string)
| ImportTopic (archivePath : string)
| GetVectorStore (topicId : string).

(** The call, its result dropped. *)
Definition run (env : Env) (c : Command) : M Sys unit :=
  match c with
  | CreateTopic options => createTopic env options ;; ret tt
  | UpdateTopic topicId updates => updateTopic env topicId updates ;; ret tt
  | DeleteTopic topicId => deleteTopic env topicId
  | DeleteTopicVectorStore topicId => deleteTopicVectorStore env topicId
  | AddDocuments topicId filePaths => addDocuments env topicId filePaths ;; ret tt
  | RemoveDocumentByFilePath topicId filePath =>
      removeDocumentByFilePath env topicId filePath ;; ret tt
  | ExportTopic topicId exportPath => exportTopic env topicId exportPath
  | ImportTopic archivePath => importTopic env archivePath ;; ret tt
  | GetVectorStore topicId => getVectorStore env topicId ;; ret tt
  end.

(** *** Memory and disk *)

(** The document map that [loadTopicDocuments] builds from the topic's
    documents file. *)
Definition documentsOnDisk (w : World) (topicId : string)
  : list (string * TopicDocument) :=
  match documentsFiles w !! topicId with
  | Some documentsArray => documentsMapOf documentsArray
  | None => []
  end.

(** Every document of the map is filed under its own identifier, once. *)
Definition keyedById (docs : list (string * TopicDocument)) : Prop :=
  Forall (fun kv => fst kv = d_id (snd kv)) docs /\ NoDup (OMap.keys docs).

(** The index in memory is the one in [topics.json], and the document map
    of every local topic is the one its documents file gives. *)
Definition persisted (s : Sys) : Prop :=
  is_Some (topicsIndex (tm s))
  /\ indexFile (world s) = topicsIndex (tm s)
  /\ forall topicId,
       is_Some (localTopic (tm s) topicId) ->
       topicDocuments (tm s) !! topicId
       = Some (documentsOnDisk (world s) topicId).

(** [createTopic] writes no documents file for a topic it creates empty;
    the other calls write what they change. *)
Definition startsClean (env : Env) (c : Command) (s : Sys) : Prop :=
  match c with
  | CreateTopic options =>
      documentsFiles (world s) !! generateTopicId env 0 = None
  | _ => True
  end.

(** The documents of a local topic recorded under [filePath], in the order
    of the document map. *)
Definition documentsUnder (m : TopicManager) (topicId filePath : string)
  : list TopicDocument :=
  match topicDocuments m !! topicId with
  | Some docs => filter (fun d => d_filePath d = filePath) (OMap.values docs)
  | None => []
  end.

(** The document that [addDocuments] records for a file that the pipeline
    stored in [chunksStored] chunks, the first of the call. *)
Definition recorded (env : Env) (topicId filePath : string) (chunksStored : Z)
  : TopicDocument :=
  mkDocument (generateDocumentId env 0) topicId (path_basename filePath)
    filePath (mapFileType (dropString 1 (path_extname filePath)))
    (now env) chunksStored.

(** *** Topic names *)

(** The names of the topics, folded to lower case, in index order. *)
Definition foldedNames (ts : list (string * Topic)) : list string :=
  map (fun t => toLowerCase (t_name t)) (OMap.values ts).

(** Every local topic is filed once, under its own identifier, and no two
    local topics bear the same name up to case. *)
Definition distinctNames (m : TopicManager) : Prop :=
  match topicsIndex m with
  | Some idx =>
      NoDup (OMap.keys (topics idx))
      /\ Forall (fun kv => t_id (snd kv) = fst kv) (topics idx)
      /\ NoDup (foldedNames (topics idx))
  | None => True
  end.

(** The calls other than [importTopic]. *)
Definition keepsNames (c : Command) : Prop :=
  match c with
  | ImportTopic _ => False
  | _ => True
  end.

End Methods.
End Lifecycle.

(* ===================================================================== *)
(** ** File watcher ([fileWatcherService.ts]): folders, seeding and the
       queue of changes *)
(* ===================================================================== *)

Module Watcher.

(** [Array.from(new Set(l))]: the first occurrence of every element, in
    order. *)
Definition unique (l : list string) : list string :=
  foldl (fun seen x => if bool_decide (x ∈ seen) then seen else seen ++ [x]) [] l.

(** The loop behind [unique], from any list of elements seen so far. *)
Definition seenThen (seen l : list string) : list string :=
  foldl (fun seen x => if bool_decide (x ∈ seen) then seen else seen ++ [x])
        seen l.

(** [DEFAULTS.INCLUDE_EXTENSIONS]. *)
Definition INCLUDE_EXTENSIONS : list string :=
  [".pdf"; ".md"; ".markdown"; ".html"; ".htm"; ".txt"].

(** What [fs.readdir(dir, { withFileTypes: true })] finds, each directory
    with what reading it gives in turn; [None] when the read rejects. *)
#[local] Unset Elimination Schemes.
Inductive Dirent : Type :=
| FileEntry (name : string)
| DirectoryEntry (name : string) (listing : option (list Dirent))
| OtherEntry (name : string).   (* neither [isDirectory()] nor [isFile()] *)
#[local] Set Elimination Schemes.

Record FileWatcherService := mkWatcher {
  watchFolders : list string;
  includeExtensions : list string;
  defaultTopicId : option string;
  watchOnChanges : bool;
  updateTimer : option Z;        (* the time at which the armed timer fires *)
  pendingChanges : list string;  (* a [Set], in insertion order *)
}.

Inductive ChangeType := create | change | delete.

Section Methods.
Context {platform : Platform}.

(** *** [resolveFolderPath] and [normalizeWatchFolders] *)

(** [workspaceFolders]: the [fsPath] of every workspace folder. *)
Definition resolveFolderPath (workspaceFolders : list string) (folder : string)
  : string :=
  match workspaceFolders with
  | [] => EmptyString
  | workspaceRoot :: _ =>
      if path_isAbsolute folder then
        if existsb (fun wsFolder => startsWith folder wsFolder) workspaceFolders
        then folder
        else EmptyString
      else
        let resolved := path_resolve workspaceRoot folder in
        if existsb (fun wsFolder => startsWith resolved wsFolder) workspaceFolders
        then resolved
        else EmptyString
  end.

Definition normalizeWatchFolders (workspaceFolders configuredFolders : list string)
    (legacyFolder : string) : list string :=
  let rawFolders :=
    configuredFolders ++
    (if nonEmpty legacyFolder && nonEmpty (str_trim legacyFolder)
     then [legacyFolder] else []) in
  let resolved :=
    filter (fun folder => nonEmpty folder = true)
      (map (resolveFolderPath workspaceFolders)
         (filter (fun folder => nonEmpty folder = true)
            (map str_trim rawFolders))) in
  unique resolved.

(** *** [collectFilesFromDirectory] and the files of a seeding *)

(** The body of the loop over the entries of [dirPath], for one entry; a
    directory is read in turn when [recursive] is set. *)
Fixpoint collectEntry (dirPath : string) (recursive : bool)
    (extensions : list string) (entry : Dirent) : list string :=
  match entry with
  | DirectoryEntry name listing =>
      if recursive then
        match listing with
        | None => []
        | Some entries =>
            (fix each (l : list Dirent) : list string :=
               match l with
               | [] => []
               | e :: rest =>
                   collectEntry (path_join dirPath name) recursive extensions e
                   ++ each rest
               end) entries
        end
      else []
  | FileEntry name =>
      if bool_decide (toLowerCase (path_extname name) ∈ extensions)
      then [path_join dirPath name]
      else []
  | OtherEntry _ => []
  end.

Definition collectFilesFromDirectory (dirPath : string)
    (listing : option (list Dirent)) (recursive : bool)
    (extensions : list string) : list string :=
  match listing with
  | None => []
  | Some entries =>
      concat (map (collectEntry dirPath recursive extensions) entries)
  end.

(** The files that [seedDefaultTopicFromExistingFiles] processes: those of
    every watch folder, each once.  [disk] gives what reading a watch
    folder finds. *)
Definition seedFiles (disk : string -> option (list Dirent))
    (w : FileWatcherService) : list string :=
  unique
    (concat
       (map (fun folder =>
               collectFilesFromDirectory folder (disk folder) true
                 (includeExtensions w))
            (watchFolders w))).

(** *** [handleFileChange] *)

Definition supported (w : FileWatcherService) (filePath : string) : bool :=
  existsb (fun e => bool_decide (toLowerCase e = toLowerCase (path_extname filePath)))
          (includeExtensions w).

(** The event is queued and the timer is armed anew, two seconds from
    [now]. *)
Definition handleFileChange (now : Z) (filePath : string)
    (changeType : ChangeType) (w : FileWatcherService) : FileWatcherService :=
  if negb (supported w filePath) then w
  else
    mkWatcher (watchFolders w) (includeExtensions w) (defaultTopicId w)
      (watchOnChanges w) (Some (now + 2000))
      (if bool_decide (filePath ∈ pendingChanges w) then pendingChanges w
       else pendingChanges w ++ [filePath]).

(** *** The head of [processQueuedChanges] *)

(** Up to the filtering of the changed files: the queue is taken, and the
    files that can still be accessed are the batch; [None] when the method
    returns before it starts one. *)
Definition takeQueuedChanges (accessible : string -> bool)
    (w : FileWatcherService) : FileWatcherService * option Tracker.Batch :=
  match pendingChanges w, truthy (defaultTopicId w) with
  | [], _ | _, None => (w, None)
  | changedFiles, Some topicId =>
      let w' :=
        mkWatcher (watchFolders w) (includeExtensions w) (defaultTopicId w)
          (watchOnChanges w) None [] in
      let existingFiles := filter (fun f => accessible f = true) changedFiles in
      match existingFiles with
      | [] => (w', None)
      | _ => (w', Some (Tracker.start topicId existingFiles))
      end
  end.

Definition isWatchingEnabled (w : FileWatcherService) : bool :=
  watchOnChanges w && negb (bool_decide (watchFolders w = [])).

Definition dispose (w : FileWatcherService) : FileWatcherService :=
  mkWatcher (watchFolders w) (includeExtensions w) None (watchOnChanges w)
    None [].

(** *** A burst of file events *)

(** A file event as the watcher reports it: when, which file, what kind. *)
Definition FileEvent : Type := Z * string * ChangeType.

(** At [now] the callback of the armed timer cannot have run yet: a timer
    does not fire before it is due. *)
Definition stillPending (w : FileWatcherService) (now : Z) : bool :=
  match updateTimer w with
  | Some due => bool_decide (now < due)
  | None => true
  end.

(** The events of one burst, handled in order.  [None]: an event comes
    when the armed timer is due, so that its callback,
    [processQueuedChanges], may have run in between and taken the queue;
    such a run is not one burst. *)
Fixpoint handleAll (events : list FileEvent) (w : FileWatcherService)
  : option FileWatcherService :=
  match events with
  | [] => Some w
  | e :: rest =>
      if stillPending w e.1.1
      then handleAll rest (handleFileChange e.1.1 e.1.2 e.2 w)
      else None
  end.

(** The files of the events that have a supported extension. *)
Definition accepted (w : FileWatcherService) (events : list FileEvent)
  : list string :=
  map (fun e : FileEvent => e.1.2)
      (filter (fun e : FileEvent => supported w e.1.2 = true) events).

(** The time of the last event with a supported extension. *)
Definition lastAccepted (w : FileWatcherService) (events : list FileEvent)
  : option Z :=
  (fun e : FileEvent => e.1.1)
    <$> last (filter (fun e : FileEvent => supported w e.1.2 = true) events).

End Methods.
End Watcher.

(* ===================================================================== *)
(** ** Progress of indexing ([progressTracker.ts], lines 541-733 and 811) *)
(* ===================================================================== *)

Module Progress.

Inductive Stage := removing | loading | chunking | embedding | storing | complete.

Record ActiveFileInfo := mkActiveFile {
  relativePath : string;
  absolutePath : string;
  fileStage : Stage;
  fileChunkCount : option Z;
  fileStartTime : Z;
}.

Record IndexingProgress := mkProgress {
  topicId : string;
  topicName : string;
  totalFiles : Z;
  processedFiles : Z;
  currentFile : option string;
  stage : Stage;
  percentage : Z;
  startTime : Z;
  activeFiles : option (list (string * ActiveFileInfo));
}.

(** [Partial<IndexingProgress>], for the fields that the callers pass. *)
Record ProgressUpdates := mkProgressUpdates {
  u_stage : option Stage;
  u_currentFile : option string;
  u_processedFiles : option Z;
  u_percentage : option Z;
}.

(** [Partial<Pick<ActiveFileInfo, "stage" | "chunkCount">>]. *)
Record FileUpdates := mkFileUpdates {
  f_stage : option Stage;
  f_chunkCount : option Z;
}.

(** The map [activeOperations]. *)
Definition Operations : Type := list (string * IndexingProgress).

Section Methods.
(** [Math.round((processed / total) * 100)]. *)
Variable roundedPercent : Z -> Z -> Z.

Definition startTracking (now : Z) (topic name : string) (total : Z)
    (ops : Operations) : Operations :=
  OMap.set topic
    (mkProgress topic name total 0 None loading 0 now (Some [])) ops.

(** [Object.assign(progress, updates)]. *)
Definition assign (updates : ProgressUpdates) (p : IndexingProgress)
  : IndexingProgress :=
  mkProgress (topicId p) (topicName p) (totalFiles p)
    (match u_processedFiles updates with Some v => v | None => processedFiles p end)
    (match u_currentFile updates with Some v => Some v | None => currentFile p end)
    (match u_stage updates with Some v => v | None => stage p end)
    (match u_percentage updates with Some v => v | None => percentage p end)
    (startTime p) (activeFiles p).

Definition updateProgress (topic : string) (updates : ProgressUpdates)
    (ops : Operations) : Operations :=
  match OMap.get topic ops with
  | None => ops
  | Some progress =>
      let assigned := assign updates progress in
      let recompute :=
        match u_processedFiles updates, u_percentage updates with
        | Some _, None => true
        | Some _, Some v => bool_decide (v = 0)
        | None, _ => false
        end in
      OMap.set topic
        (if recompute
         then mkProgress (topicId assigned) (topicName assigned)
                (totalFiles assigned) (processedFiles assigned)
                (currentFile assigned) (stage assigned)
                (roundedPercent (processedFiles assigned) (totalFiles assigned))
                (startTime assigned) (activeFiles assigned)
         else assigned) ops
  end.

(** The part of [completeTracking] that runs at once. *)
Definition completeTracking (topic : string) (ops : Operations) : Operations :=
  match OMap.get topic ops with
  | None => ops
  | Some p =>
      OMap.set topic
        (mkProgress (topicId p) (topicName p) (totalFiles p) (totalFiles p)
           (currentFile p) complete 100 (startTime p)
           (match activeFiles p with Some _ => Some [] | None => None end)) ops
  end.

(** The callback that [completeTracking] leaves for two seconds later. *)
Definition expire (topic : string) (ops : Operations) : Operations :=
  OMap.delete topic ops.

Definition cancelTracking (topic : string) (ops : Operations) : Operations :=
  OMap.delete topic ops.

Definition getProgress (topic : string) (ops : Operations)
  : option IndexingProgress := OMap.get topic ops.

Definition getAllProgress (ops : Operations) : list IndexingProgress :=
  OMap.values ops.

Definition hasActiveIndexing (topic : string) (ops : Operations) : bool :=
  OMap.has topic ops.

Definition withActiveFiles (files : option (list (string * ActiveFileInfo)))
    (p : IndexingProgress) : IndexingProgress :=
  mkProgress (topicId p) (topicName p) (totalFiles p) (processedFiles p)
    (currentFile p) (stage p) (percentage p) (startTime p) files.

Definition startFileProcessing (now : Z) (topic absolute relative : string)
    (fileStage : Stage) (ops : Operations) : Operations :=
  match OMap.get topic ops with
  | None => ops
  | Some p =>
      let files := match activeFiles p with Some m => m | None => [] end in
      OMap.set topic
        (withActiveFiles
           (Some (OMap.set absolute
                    (mkActiveFile relative absolute fileStage None now) files))
           p) ops
  end.

Definition updateFileProcessing (topic absolute : string) (updates : FileUpdates)
    (ops : Operations) : Operations :=
  match OMap.get topic ops with
  | None => ops
  | Some p =>
      match activeFiles p with
      | None => ops
      | Some files =>
          match OMap.get absolute files with
          | None => ops
          | Some info =>
              OMap.set topic
                (withActiveFiles
                   (Some (OMap.set absolute
                            (mkActiveFile (relativePath info) (absolutePath info)
                               (match f_stage updates with
                                | Some v => v
                                | None => fileStage info
                                end)
                               (match f_chunkCount updates with
                                | Some v => Some v
                                | None => fileChunkCount info
                                end)
                               (fileStartTime info)) files))
                   p) ops
          end
      end
  end.

Definition completeFileProcessing (topic absolute : string) (ops : Operations)
  : Operations :=
  match OMap.get topic ops with
  | None => ops
  | Some p =>
      match activeFiles p with
      | None => ops
      | Some files =>
          OMap.set topic (withActiveFiles (Some (OMap.delete absolute files)) p) ops
      end
  end.

Definition getActiveFiles (topic : string) (ops : Operations)
  : list ActiveFileInfo :=
  match OMap.get topic ops with
  | Some p =>
      match activeFiles p with
      | Some files => OMap.values files
      | None => []
      end
  | None => []
  end.

Definition clearAll (ops : Operations) : Operations := [].

Definition hasActiveOperations (ops : Operations) : bool :=
  negb (bool_decide (ops = [])).

End Methods.
End Progress.

(* ===================================================================== *)
(** ** Request routing and the read-only endpoints ([restServer.ts],
       lines 179-232 and 362-489) *)
(* ===================================================================== *)

Module Routes.
Import Registry Rest.

(** A request, with its URL as [url.parse(req.url || "", true)] gives it. *)
Record Request := mkRequest {
  method : string;
  pathname : string;
  query : ParsedUrlQuery;
}.

Record TopicInfo := mkTopicInfo {
  ti_id : string;
  ti_name : string;
  ti_description : option string;
  ti_documentCount : Z;
  ti_chunkCount : option Z;
  ti_createdAt : Z;
  ti_updatedAt : Z;
  ti_embeddingModel : string;
}.

Record DocumentInfo := mkDocumentInfo {
  di_id : string;
  di_name : string;
  di_path : string;
  di_chunkCount : Z;
}.

Inductive ServiceStatus := idle | indexing | paused.

Record StatusResponse := mkStatusResponse {
  st_status : ServiceStatus;
  st_watching : bool;
  st_watchFolders : list string;
  st_activeOperations : list Progress.IndexingProgress;
  st_embeddingModel : string;
  st_totalTopics : Z;
}.

(** What is written to the response. *)
Inductive Json :=
| NoBody                                      (* [res.end()] *)
| ErrorJson (error : string)                  (* [{ error }] *)
| HealthJson (timestamp : Z)                  (* status "ok", version "1.0.0" *)
| SearchJson (response : SearchResponse)
| TopicsJson (topics : list TopicInfo)        (* [{ topics }] *)
| TopicJson (topic : TopicInfo) (documents : list DocumentInfo)
| StatusJson (response : StatusResponse).

Record Reply := mkReply {
  headers : list (string * string);
  code : Z;
  content : Json;
}.

(** The server with the services it reads; [tracker] and [operations] are
    the two parts of the one [ProgressTracker]: its pause state and its map
    of active operations. *)
Record Service := mkService {
  node : Node;
  tracker : Tracker.ProgressTracker;
  operations : Progress.Operations;
  fileWatcherService : option Watcher.FileWatcherService;
}.

(** The outcomes, during one request, of what the handlers do not decide. *)
Record RequestEnv := mkRequestEnv {
  searchEnv : SearchEnv;
  decodeURIComponent : string -> result string;  (* throws on a malformed escape *)
}.

Definition corsHeaders : list (string * string) :=
  [("Access-Control-Allow-Origin", "*");
   ("Access-Control-Allow-Methods", "GET, POST, OPTIONS");
   ("Access-Control-Allow-Headers", "Content-Type")].

Definition jsonHeaders : list (string * string) :=
  corsHeaders ++ [("Content-Type", "application/json")].

Section Handlers.
Context {platform : Platform}.

Definition sendJson (data : Json) : Reply := mkReply jsonHeaders 200 data.

Definition sendError (code : Z) (message : string) : Reply :=
  mkReply jsonHeaders code (ErrorJson message).

Definition handleHealth (e : RequestEnv) : Reply :=
  sendJson (HealthJson (now (callEnv (searchEnv e)))).

(** [handleSearch] writes its response through the same two functions. *)
Definition ofSearch (r : Response) : Reply :=
  mkReply jsonHeaders (status r)
    (match body r with
     | ErrorBody message => ErrorJson message
     | SearchBody response => SearchJson response
     end).

Definition topicInfo (s : Sys) (topic : Topic) : TopicInfo :=
  mkTopicInfo (t_id topic) (t_name topic) (t_description topic)
    (t_documentCount topic)
    (ts_chunkCount <$> getTopicStats s (t_id topic))
    (t_createdAt topic) (t_updatedAt topic) (currentModel (world s)).

Definition handleListTopics (n : Node) : Reply :=
  if negb (topicManager (server n))
  then sendError 503 "Topic manager not initialized"
  else sendJson (TopicsJson (map (topicInfo (sys n)) (getAllTopics (tm (sys n))))).

Definition documentInfo (doc : TopicDocument) : DocumentInfo :=
  mkDocumentInfo (d_id doc) (d_name doc) (d_filePath doc) (d_chunkCount doc).

Definition handleGetTopic (topicName : string) (n : Node) : Reply :=
  if negb (topicManager (server n))
  then sendError 503 "Topic manager not initialized"
  else
    match findNamed topicName (getAllTopics (tm (sys n))) with
    | None => sendError 404 ("Topic not found: " +:+ topicName)
    | Some topic =>
        sendJson
          (TopicJson (topicInfo (sys n) topic)
             (map documentInfo (getTopicDocuments (tm (sys n)) (t_id topic))))
    end.

(** Modelled from the spec: [FileWatcherService.getConfiguredWatchFolders]
    is not among the sources.  It returns the watch folders the service is
    configured with. *)
Definition getConfiguredWatchFolders (w : Watcher.FileWatcherService)
  : list string := Watcher.watchFolders w.

Definition handleStatus (s : Service) : Reply :=
  let activeOperations := Progress.getAllProgress (operations s) in
  let status :=
    if Tracker.isPaused (tracker s) then paused
    else match activeOperations with
         | [] => idle
         | _ => indexing
         end in
  let '(watching, watchFolders) :=
    match fileWatcherService s with
    | Some w => (Watcher.isWatchingEnabled w, getConfiguredWatchFolders w)
    | None => (false, [])
    end in
  sendJson
    (StatusJson
       (mkStatusResponse status watching watchFolders activeOperations
          (currentModel (world (sys (node s))))
          (if topicManager (server (node s))
           then Z.of_nat (length (getAllTopics (tm (sys (node s)))))
           else 0))).

Definition withNode (s : Service) (n : Node) : Service :=
  mkService n (tracker s) (operations s) (fileWatcherService s).

Definition handleRequest (e : RequestEnv) (req : Request) (s : Service)
  : Reply * Service :=
  if bool_decide (method req = "OPTIONS") then (mkReply corsHeaders 204 NoBody, s)
  else
    let isGet := bool_decide (method req = "GET") in
    if bool_decide (pathname req = "/health") then (handleHealth e, s)
    else if bool_decide (pathname req = "/search") && isGet then
      match handleSearch (searchEnv e) (query req) (node s) with
      | (Ok r, n) => (ofSearch r, withNode s n)
      | (Throw message, n) => (sendError 500 message, withNode s n)
      end
    else if bool_decide (pathname req = "/topics") && isGet then
      (handleListTopics (node s), s)
    else if startsWith (pathname req) "/topics/" && isGet then
      match decodeURIComponent e (dropString 8 (pathname req)) with
      | Ok topicName => (handleGetTopic topicName (node s), s)
      | Throw message => (sendError 500 message, s)
      end
    else if bool_decide (pathname req = "/status") && isGet then
      (handleStatus s, s)
    else (sendError 404 "Not found", s).




End Handlers.
End Routes.

(* ===================================================================== *)
(** ** The command line ([cli/lrag.ts], lines 59-199) *)
(* ===================================================================== *)

Module Cli.

(** The commands [search], [list], [topic], [status], [help] and
    [version]. *)
Inductive Command := Search | List | Topic | Status | Help | Version.

Record ParsedArgs := mkParsedArgs {
  command : Command;
  query : option string;
  topicName : option string;
  json : bool;
  compact : bool;
  limit : Z;
}.

Definition DEFAULT_LIMIT : Z := 10.

Definition withCommand (c : Command) (r : ParsedArgs) : ParsedArgs :=
  mkParsedArgs c (query r) (topicName r) (json r) (compact r) (limit r).

Definition withQuery (q : string) (r : ParsedArgs) : ParsedArgs :=
  mkParsedArgs (command r) (Some q) (topicName r) (json r) (compact r) (limit r).

Definition withTopicName (n : string) (r : ParsedArgs) : ParsedArgs :=
  mkParsedArgs (command r) (query r) (Some n) (json r) (compact r) (limit r).

Definition withJson (r : ParsedArgs) : ParsedArgs :=
  mkParsedArgs (command r) (query r) (topicName r) true (compact r) (limit r).

Definition withCompact (r : ParsedArgs) : ParsedArgs :=
  mkParsedArgs (command r) (query r) (topicName r) (json r) true (limit r).

Definition withLimit (l : Z) (r : ParsedArgs) : ParsedArgs :=
  mkParsedArgs (command r) (query r) (topicName r) (json r) (compact r) l.

(** One of the labels of a [case] group. *)
Definition isOneOf (arg : string) (labels : list string) : bool :=
  bool_decide (arg ∈ labels).

(** What follows the loop: with the command [search] and no query, the
    positional arguments are the query. *)
Definition finish (result : ParsedArgs) (positionalArgs : list string)
  : ParsedArgs :=
  match command result, truthy (query result), positionalArgs with
  | Search, None, _ :: _ =>
      withQuery (String.concat " " positionalArgs) result
  | _, _, _ => result
  end.

Section ParseArgs.
(** [parseInt(s, 10)]; [None] is [NaN]. *)
Variable parseInt : string -> option Z.

(** The [for] loop of [parseArgs] from the argument at [i] on, [args] being
    the arguments from there; an argument taken by [args[++i]] is skipped. *)
Fixpoint scan (args : list string) (result : ParsedArgs)
    (positionalArgs : list string) : ParsedArgs :=
  match args with
  | [] => finish result positionalArgs
  | arg :: rest =>
      if isOneOf arg ["--help"; "-h"] then withCommand Help result
      else if isOneOf arg ["--version"; "-v"] then withCommand Version result
      else if isOneOf arg ["--search"; "-s"] then
        match rest with
        | next :: rest' =>
            if negb (startsWith next "-")
            then scan rest' (withQuery next (withCommand Search result))
                   positionalArgs
            else scan rest (withCommand Search result) positionalArgs
        | [] => scan rest (withCommand Search result) positionalArgs
        end
      else if isOneOf arg ["--list"; "-l"] then
        scan rest (withCommand List result) positionalArgs
      else if isOneOf arg ["--topic"; "-t"] then
        match rest with
        | next :: rest' =>
            if negb (startsWith next "-")
            then scan rest' (withTopicName next (withCommand Topic result))
                   positionalArgs
            else scan rest (withCommand Topic result) positionalArgs
        | [] => scan rest (withCommand Topic result) positionalArgs
        end
      else if isOneOf arg ["--status"] then
        scan rest (withCommand Status result) positionalArgs
      else if isOneOf arg ["--json"; "-j"] then
        scan rest (withJson result) positionalArgs
      else if isOneOf arg ["--compact"; "-c"] then
        scan rest (withJson (withCompact result)) positionalArgs
      else if isOneOf arg ["--limit"; "-n"] then
        match rest with
        | next :: rest' =>
            scan rest'
              (match parseInt next with
               | Some limitValue =>
                   if bool_decide (0 < limitValue)
                   then withLimit limitValue result
                   else result
               | None => result
               end)
              positionalArgs
        | [] => scan rest result positionalArgs
        end
      else if negb (startsWith arg "-")
      then scan rest result (positionalArgs ++ [arg])
      else scan rest result positionalArgs
  end.

Definition parseArgs (args : list string) : ParsedArgs :=
  scan args (mkParsedArgs Search None None false false DEFAULT_LIMIT) [].

End ParseArgs.

(** *** What the parsed arguments ask for *)

(** The request that [main] makes of the server: [None] when it prints the
    help or the version, or exits for want of a query or a topic name. *)
Inductive Asked :=
| AskSearch (query : string) (limit : Z)  (* /search?q=...&limit=... *)
| AskTopics                               (* /topics *)
| AskTopic (name : string)                (* /topics/<name> *)
| AskStatus.                              (* /status *)

Definition asked (args : ParsedArgs) : option Asked :=
  match command args with
  | Help | Version => None
  | Search =>
      match truthy (query args) with
      | None => None
      | Some q => Some (AskSearch q (limit args))
      end
  | List => Some AskTopics
  | Topic =>
      match truthy (topicName args) with
      | None => None
      | Some n => Some (AskTopic n)
      end
  | Status => Some AskStatus
  end.

(** No argument is an option. *)
Definition plainWords (args : list string) : bool :=
  forallb (fun arg => negb (startsWith arg "-")) args.

(** What every step of the loop keeps: a positive limit, and [json] set
    whenever [compact] is. *)
Definition sound (r : ParsedArgs) : Prop :=
  0 < limit r /\ (compact r = true -> json r = true).

End Cli.

(* ===================================================================== *)
(** ** Searching a text *)
(* ===================================================================== *)


(* ===================================================================== *)
(** ** Further concrete inputs *)
(* ===================================================================== *)

Module Cases.
Import Registry Posix.

(** The folder statistics of a topic that holds [/w/guide/intro.md] and
    [/w/guide/setup.md]. *)
Definition guideStats : FolderTree.FolderChunkStats :=
  FolderTree.updateStats Examples.watch
    (FolderTree.updateStats Examples.watch (FolderTree.emptyStats 1)
       "/w/guide/intro.md" 10 1700000000000)
    "/w/guide/setup.md" 4 1700000000500.

(** Statistics with folders named by years and months: the keys [2024],
    [7] and [12] are array indices. *)
Definition datedStats : FolderTree.FolderChunkStats :=
  FolderTree.updateStats Examples.watch
    (FolderTree.updateStats Examples.watch
       (FolderTree.updateStats Examples.watch (FolderTree.emptyStats 1)
          "/w/2024/12/minutes.md" 3 1700000000000)
       "/w/2024/7/minutes.md" 5 1700000000100)
    "/w/1999/notes.md" 2 1700000000200.

(** The manager of [Examples.afterAdd], initialized, with no statistics
    file on disk. *)
Definition running : Lifecycle.Instance :=
  Lifecycle.mkInstance Examples.afterAdd true ∅ false.

(** A start in which every collaborator answers and the embedding service
    comes up with [model-b]. *)
Definition quietStart : Lifecycle.StartEnv :=
  Lifecycle.mkStartEnv Examples.later (Ok "model-b") None.

(** An initialized manager whose only topic is named [default], in lower
    case. *)
Definition lowerDefault : Topic := mkTopic "topic-d" "default" None 1 1 0 None.

Definition lowercase : Lifecycle.Instance :=
  Lifecycle.mkInstance
    (mkSys
       (mkManager (Some (mkIndex [("topic-d", lowerDefault)] "model-b" 1))
          (Some "model-b") ∅ {["topic-d" := []]} ∅ None ∅ None true)
       Examples.bareWorld)
    true ∅ false.

(** A running manager whose [topics.json] has since come to hold
    [null]. *)
Definition nullIndexFile : Lifecycle.Instance :=
  Lifecycle.mkInstance
    (mkSys (tm Examples.afterAdd) (setIndexFile None (world Examples.afterAdd)))
    true ∅ true.

(** The index and the document map of [Examples.afterAdd]. *)
Definition docsIndex : TopicsIndex :=
  match topicsIndex (tm Examples.afterAdd) with
  | Some idx => idx
  | None => mkIndex [] EmptyString 0
  end.

Definition introDocs : list (string * TopicDocument) :=
  [(generateDocumentId Examples.calm 0,
    Lifecycle.recorded Examples.calm Examples.docsId Examples.introFile 10)].

(** [intro.md] has changed: its document is removed, then the file is
    added again. *)
Definition introRemoved : Sys :=
  (removeDocumentByFilePath Examples.later Examples.docsId Examples.introFile
     Examples.afterAdd).2.

Definition introReindexed : Sys :=
  (addDocuments Examples.later Examples.docsId [Examples.introFile]
     introRemoved).2.

(** A watcher of [/w/docs] with the default extensions and an empty
    queue, and a burst of events: [a.md] is saved twice, a picture is
    created and [c.txt] is deleted. *)
Definition docsWatcher : Watcher.FileWatcherService :=
  Watcher.mkWatcher ["/w/docs"] Watcher.INCLUDE_EXTENSIONS (Some "topic-1")
    true None [].

Definition burst : list Watcher.FileEvent :=
  [(1000, "/w/docs/a.md", Watcher.change);
   (1500, "/w/docs/b.png", Watcher.create);
   (1800, "/w/docs/a.md", Watcher.change);
   (2500, "/w/docs/c.txt", Watcher.delete)].

(** The watcher after the burst. *)
Definition queued : Watcher.FileWatcherService :=
  Watcher.mkWatcher ["/w/docs"] Watcher.INCLUDE_EXTENSIONS (Some "topic-1")
    true (Some 4500) ["/w/docs/a.md"; "/w/docs/c.txt"].

(** The same events with the deletion coming three seconds after the
    second save, when the timer armed by that save is due. *)
Definition lateDeletion : list Watcher.FileEvent :=
  [(1000, "/w/docs/a.md", Watcher.change);
   (1800, "/w/docs/a.md", Watcher.change);
   (4800, "/w/docs/c.txt", Watcher.delete)].

(** Every file but the deleted [c.txt] can be accessed. *)
Definition stillThere (filePath : string) : bool :=
  negb (bool_decide (filePath = "/w/docs/c.txt")).

Definition queuedBatch : Tracker.Batch :=
  Tracker.start "topic-1" ["/w/docs/a.md"].

(** The batch runs to its end, through a pause and a resume. *)
Definition untilDone : list Tracker.Event :=
  [Tracker.RunBatch; Tracker.PauseCommand; Tracker.RunBatch;
   Tracker.ResumeCommand; Tracker.RunBatch; Tracker.RunBatch;
   Tracker.RunBatch; Tracker.RunBatch; Tracker.RunBatch; Tracker.RunBatch].

(** The server over [Examples.serving] while three files of [topic-1] are
    being indexed, with no pause in force and no file watcher set. *)
Definition indexingThree : Progress.IndexingProgress :=
  Progress.mkProgress "topic-1" "Docs" 3 1 (Some "a.md") Progress.embedding 33
    1700000000000 (Some []).

Definition frontDesk : Routes.Service :=
  Routes.mkService Examples.serving Tracker.initial
    [("topic-1", indexingThree)] None.


(** [GET /search?limit=5], [GET /search?q=test&topic=Archive] and
    [GET /search?q=test&topic=Docs&topic=Notes]. *)
Definition noQuery : Rest.ParsedUrlQuery := Rest.mkQuery None (Some 5) None.

Definition archiveQuery : Rest.ParsedUrlQuery :=
  Rest.mkQuery (Some (Rest.One "test")) None (Some (Rest.One "Archive")).

Definition twoTopicsQuery : Rest.ParsedUrlQuery :=
  Rest.mkQuery (Some (Rest.One "test")) None (Some (Rest.Many ["Docs"; "Notes"])).

(** The server before the topic manager is set. *)
Definition unset : Rest.Node :=
  Rest.mkRestNode (Rest.mkServer false ∅) (Rest.sys Examples.idle).

(** A call, between the two, in which a file yields four chunks, and one
    after both. *)
Definition brief : Env :=
  mkEnv 1700000003000
    (fun n => 1700000003000 + Z.of_nat n)
    (fun n => "h4w8c" +:+ pretty n)
    (fun _ => Stored 4)
    None None None None None false.

Definition evenLater : Env :=
  mkEnv 1700000009000
    (fun n => 1700000009000 + Z.of_nat n)
    (fun n => "z1y5x" +:+ pretty n)
    (fun _ => Stored 10)
    None None None None None false.

(** [Docs] with a second file, [setup.md], of four chunks; the archive of
    its export. *)
Definition twoDocs : Sys :=
  (addDocuments brief Examples.docsId ["/w/guide/setup.md"] Examples.afterAdd).2.

Definition exported : Sys :=
  (exportTopic Examples.calm Examples.docsId Examples.archivePath twoDocs).2.

End Cases.

(* ===================================================================== *)
(** * Properties *)
(* ===================================================================== *)

(** ** Strings *)






(** ** Folder usage tree *)

Section FolderTreeFacts.
Import FolderTree.

Lemma calculateNodeTotal_eq (nm p : string) (f : bool) (c : Z)
    (ch : list (string * FolderChunkNode)) :
  calculateNodeTotal (mkNode nm p f c ch) =
  if f then (c, mkNode nm p f c ch)
  else let '(total, ch') := calculateChildren ch 0 in
       (total, mkNode nm p f total ch').
Proof. destruct f; reflexivity. Qed.

Lemma everyFolderSummed_eq (nm p : string) (f : bool) (c : Z)
    (ch : list (string * FolderChunkNode)) :
  everyFolderSummed (mkNode nm p f c ch) =
  (f || bool_decide (c = sumChunkCounts ch))
  && forallb (fun kv => everyFolderSummed (snd kv)) ch.
Proof.
  simpl. f_equal. induction ch as [|[k x] r IH]; simpl; [done | by rewrite IH].
Qed.

Lemma visitedFoldersSummed_eq (nm p : string) (f : bool) (c : Z)
    (ch : list (string * FolderChunkNode)) :
  visitedFoldersSummed (mkNode nm p f c ch) =
  f || (bool_decide (c = sumChunkCounts ch)
        && forallb (fun kv => visitedFoldersSummed (snd kv)) ch).
Proof.
  simpl. do 2 f_equal.
  induction ch as [|[k x] r IH]; simpl; [done | by rewrite IH].
Qed.

(** What one pass of the children loop returns, given what
    [calculateNodeTotal] returns on each child. *)
Lemma calculateChildren_spec (l : list (string * FolderChunkNode)) :
  Forall (fun kv =>
            (calculateNodeTotal (snd kv)).1 = chunkCount (calculateNodeTotal (snd kv)).2
            /\ visitedFoldersSummed (calculateNodeTotal (snd kv)).2 = true) l ->
  forall acc : Z,
    (calculateChildren l acc).1 = acc + sumChunkCounts (calculateChildren l acc).2
    /\ forallb (fun kv => visitedFoldersSummed (snd kv)) (calculateChildren l acc).2 = true
    /\ map fst (calculateChildren l acc).2 = map fst l.
Proof.
  induction 1 as [|[k x] r [Ht Hv] _ IH]; intros acc; simpl.
  - split; [lia | done].
  - simpl in Ht, Hv. destruct (calculateNodeTotal x) as [t x'] eqn:Ex.
    specialize (IH (acc + t)).
    destruct (calculateChildren r (acc + t)) as [total' rest'] eqn:Er.
    simpl in *. destruct IH as (IH1 & IH2 & IH3).
    rewrite Hv, IH2, IH3. repeat split; try done. lia.
Qed.

(** [calculateNodeTotal] returns the count it leaves on the node, and
    leaves every folder it visits equal to the sum of its children. *)
Lemma calculateNodeTotal_spec (n : FolderChunkNode) :
  (calculateNodeTotal n).1 = chunkCount (calculateNodeTotal n).2
  /\ visitedFoldersSummed (calculateNodeTotal n).2 = true.
Proof.
  induction n as [nm p f c ch IH] using node_ind'.
  rewrite calculateNodeTotal_eq. destruct f.
  - cbn [fst snd]. split; [done|]. by rewrite visitedFoldersSummed_eq.
  - pose proof (calculateChildren_spec ch IH 0) as (H1 & H2 & _).
    destruct (calculateChildren ch 0) as [total ch'] eqn:E.
    cbn [fst snd chunkCount] in *.
    split; [done|]. rewrite visitedFoldersSummed_eq, H2.
    rewrite bool_decide_eq_true_2; [done | lia].
Qed.

(** After [recalculateFolderTotals], whatever the statistics were before,
    every visited folder carries the sum of its children and [totalChunks]
    is the sum over the roots. *)
Lemma recalculateFolderTotals_consistent (stats : FolderChunkStats) (now : Z) :
  statsConsistent visitedFoldersSummed (touch now (recalculateFolderTotals stats))
  = true.
Proof.
  unfold recalculateFolderTotals, touch, statsConsistent.
  assert (Hall : Forall (fun kv =>
            (calculateNodeTotal (snd kv)).1 = chunkCount (calculateNodeTotal (snd kv)).2
            /\ visitedFoldersSummed (calculateNodeTotal (snd kv)).2 = true) (roots stats)).
  { apply Forall_forall. intros kv _. apply calculateNodeTotal_spec. }
  pose proof (calculateChildren_spec _ Hall 0) as (H1 & H2 & _).
  destruct (calculateChildren (roots stats) 0) as [total rs] eqn:E. simpl in *.
  rewrite H2. simpl. apply bool_decide_eq_true_2. lia.
Qed.

Context {platform : Platform}.

(** Both operations either return the statistics untouched (their early
    returns) or end in [recalculateFolderTotals]. *)
Lemma updateStats_cases (cfg : WatchConfig) (stats : FolderChunkStats)
    (filePath : string) (count now : Z) :
  updateStats cfg stats filePath count now = stats
  \/ exists s, updateStats cfg stats filePath count now
               = touch now (recalculateFolderTotals s).
Proof.
  unfold updateStats. destruct (locate cfg filePath) as [[rootKey disp] parts].
  destruct parts; [by left | right; eauto].
Qed.

Lemma removeStats_cases (cfg : WatchConfig) (stats : FolderChunkStats)
    (filePath : string) (now : Z) :
  removeStats cfg stats filePath now = stats
  \/ exists s, removeStats cfg stats filePath now
               = touch now (recalculateFolderTotals s).
Proof.
  unfold removeStats. destruct (locate cfg filePath) as [[rootKey disp] parts].
  destruct parts; [by left|].
  destruct (OMap.get rootKey (roots stats)); [|by left].
  destruct (removePath _ _) as [[root' b]|]; [right; eauto | by left].
Qed.

(** The aggregate invariant over the visited folders is preserved by
    [updateFolderChunkStats] and [removeFolderChunkStats]. *)
Lemma updateStats_consistent (cfg : WatchConfig) (stats : FolderChunkStats)
    (filePath : string) (count now : Z) :
  statsConsistent visitedFoldersSummed stats = true ->
  statsConsistent visitedFoldersSummed (updateStats cfg stats filePath count now) = true.
Proof.
  intros Hs. destruct (updateStats_cases cfg stats filePath count now) as [->|[s ->]];
    [done | apply recalculateFolderTotals_consistent].
Qed.

Lemma removeStats_consistent (cfg : WatchConfig) (stats : FolderChunkStats)
    (filePath : string) (now : Z) :
  statsConsistent visitedFoldersSummed stats = true ->
  statsConsistent visitedFoldersSummed (removeStats cfg stats filePath now) = true.
Proof.
  intros Hs. destruct (removeStats_cases cfg stats filePath now) as [->|[s ->]];
    [done | apply recalculateFolderTotals_consistent].
Qed.

End FolderTreeFacts.

(** ** Ordered maps *)

Lemma omap_get_set_eq {V : Type} (k : string) (v : V) (m : list (string * V)) :
  OMap.get k (OMap.set k v m) = Some v.
Proof.
  induction m as [|[k' v'] r IH]; simpl.
  - by rewrite decide_True.
  - destruct (decide (k = k')) as [->|Hne]; simpl.
    + by rewrite decide_True.
    + by rewrite decide_False.
Qed.

Lemma omap_get_set_ne {V : Type} (k k' : string) (v : V) (m : list (string * V)) :
  k <> k' -> OMap.get k' (OMap.set k v m) = OMap.get k' m.
Proof.
  intros Hne. induction m as [|[k0 v0] r IH]; simpl.
  - by rewrite decide_False.
  - destruct (decide (k = k0)) as [->|Hk]; simpl.
    + by rewrite !decide_False.
    + destruct (decide (k' = k0)); [done | apply IH].
Qed.

Lemma omap_get_delete_eq {V : Type} (k : string) (m : list (string * V)) :
  OMap.get k (OMap.delete k m) = None.
Proof.
  induction m as [|[k' v'] r IH]; simpl; [done|].
  destruct (decide (k = k')); simpl; [done|]. by rewrite decide_False.
Qed.

Lemma omap_get_delete_ne {V : Type} (k k' : string) (m : list (string * V)) :
  k <> k' -> OMap.get k' (OMap.delete k m) = OMap.get k' m.
Proof.
  intros Hne. induction m as [|[k0 v0] r IH]; simpl; [done|].
  destruct (decide (k = k0)) as [->|Hk]; simpl.
  - by rewrite decide_False.
  - by rewrite IH.
Qed.

Lemma omap_get_Some_In {V : Type} (k : string) (v : V) (m : list (string * V)) :
  OMap.get k m = Some v -> In v (OMap.values m).
Proof.
  induction m as [|[k' v'] r IH]; simpl; [done|].
  destruct (decide (k = k')); [intros [= ->]; by left | right; auto].
Qed.

(** ** The state and error monad *)

Section Preserves.
Context {S : Type} (P : S -> Prop).

Lemma preserves_ret {A : Type} (a : A) : preserves P (ret a).
Proof. by intros s. Qed.

Lemma preserves_throw {A : Type} (e : string) : preserves P (@throw S A e).
Proof. by intros s. Qed.

Lemma preserves_gets {A : Type} (f : S -> A) : preserves P (gets f).
Proof. by intros s. Qed.

Lemma preserves_modify (f : S -> S) :
  (forall s, P s -> P (f s)) -> preserves P (modify f).
Proof. intros Hf s Hs. by apply Hf. Qed.

Lemma preserves_bind {A B : Type} (m : M S A) (k : A -> M S B) :
  preserves P m -> (forall a, preserves P (k a)) -> preserves P (bind m k).
Proof.
  intros Hm Hk s Hs. unfold bind. specialize (Hm s Hs).
  destruct (m s) as [[a|e] s']; simpl in *; [by apply Hk | done].
Qed.

Lemma preserves_tryCatch {A : Type} (m : M S A) (h : string -> M S A) :
  preserves P m -> (forall e, preserves P (h e)) -> preserves P (tryCatch m h).
Proof.
  intros Hm Hh s Hs. unfold tryCatch. specialize (Hm s Hs).
  destruct (m s) as [[a|e] s']; simpl in *; [done | by apply Hh].
Qed.

End Preserves.

(** Decomposes a goal [preserves P m] along the structure of [m]. *)
Ltac preserve_step :=
  first
    [ apply preserves_ret
    | apply preserves_throw
    | apply preserves_gets
    | apply preserves_bind; [| intros ?]
    | apply preserves_tryCatch; [| intros ?]
    | match goal with
      | |- preserves _ (match ?x with _ => _ end) => destruct x
      | |- preserves _ (if ?x then _ else _) => destruct x
      | |- preserves _ (let '(_, _) := ?x in _) => destruct x
      end ].

(** Runs a monadic term as far as the state at hand allows. *)
Ltac mrun :=
  repeat progress
    (unfold bind, gets, ret, throw, modify, tryCatch; cbn beta iota; simpl).

(** ** Topic registry: what each method leaves alone *)

Section RegistryFacts.
Import Registry.
Context {platform : Platform}.

(** Closes [preserves P m] for a method [m] built from the monad's
    primitives, when [P] reads fields that [m] never assigns. *)
Ltac preserve_fields :=
  unfold deleteTopic, deleteTopicVectorStore, updateTopic,
    removeDocumentByFilePath, addDocumentsFrom, createTopic, exportTopic,
    importTopic, getVectorStore, ensureEmbeddingModelCompatibility,
    deleteRows, deleteStore, loadStore, saveTopicsIndex, saveTopicDocuments,
    notifyAgentCacheCleanup, updateFolderChunkStats, removeFolderChunkStats,
    assignTopic, onTm, onWorld;
  repeat preserve_step;
  try (apply preserves_modify; intros [m w] Hs; simpl in *;
       repeat case_match; simpl in *; done).

Lemma addEach_preserves (P : Sys -> Prop) (env : Env) (topicId : string) :
  (forall m w v, P (mkSys m w) -> P (mkSys (setTopicDocuments v m) w)) ->
  (forall m w v, P (mkSys m w) -> P (mkSys (setFolderChunkStats v m) w)) ->
  forall filePaths n results,
    preserves P (addEach env topicId filePaths n results).
Proof.
  intros Hd Hf filePaths.
  induction filePaths as [|filePath rest IH]; intros n results; simpl.
  - apply preserves_ret.
  - destruct (processDocument env filePath); [|apply IH..].
    apply preserves_bind; [|intros _; apply preserves_bind; [|intros _; apply IH]].
    + apply preserves_modify. intros [m w] Hs. apply Hd, Hs.
    + unfold updateFolderChunkStats. apply preserves_bind; [apply preserves_gets|].
      intros cfg. apply preserves_modify. intros [m w] Hs. apply Hf, Hs.
Qed.

(** *** The common registry is read-only *)

Lemma deleteTopic_keepsCommon (env : Env) (topicId : string) :
  keepsCommon (deleteTopic env topicId).
Proof. intros c. preserve_fields. Qed.

Lemma deleteTopicVectorStore_keepsCommon (env : Env) (topicId : string) :
  keepsCommon (deleteTopicVectorStore env topicId).
Proof. intros c. preserve_fields. Qed.

Lemma updateTopic_keepsCommon (env : Env) (topicId : string) (u : TopicUpdates) :
  keepsCommon (updateTopic env topicId u).
Proof. intros c. preserve_fields. Qed.

Lemma removeDocumentByFilePath_keepsCommon (env : Env) (topicId filePath : string) :
  keepsCommon (removeDocumentByFilePath env topicId filePath).
Proof. intros c. preserve_fields. Qed.

Lemma addDocumentsFrom_keepsCommon (n : nat) (env : Env) (topicId : string)
    (filePaths : list string) :
  keepsCommon (addDocumentsFrom n env topicId filePaths).
Proof.
  intros c. unfold addDocumentsFrom.
  repeat first [by apply addEach_preserves | preserve_step]; preserve_fields.
Qed.

Lemma createTopic_keepsCommon (env : Env) (options : CreateTopicOptions) :
  keepsCommon (createTopic env options).
Proof.
  intros c. unfold createTopic.
  repeat first [apply (addDocumentsFrom_keepsCommon _ _ _ _ c) | preserve_step];
    preserve_fields.
Qed.

End RegistryFacts.

(** ** Mutations reach local topics only *)

Section LocalOnly.
Import Registry.
Context {platform : Platform}.

Lemma addEach_returns (env : Env) (topicId : string) (filePaths : list string) :
  forall n results s,
    exists r, (addEach env topicId filePaths n results s).1 = Ok r.
Proof.
  induction filePaths as [|filePath rest IH]; intros n results s; simpl.
  - by eexists.
  - destruct (processDocument env filePath); apply IH.
Qed.

Lemma addEach_keeps_index (env : Env) (topicId : string)
    (filePaths : list string) (n : nat) (results : list TopicDocument) (s : Sys) :
  topicsIndex (tm (addEach env topicId filePaths n results s).2)
  = topicsIndex (tm s).
Proof.
  apply (addEach_preserves (fun s' => topicsIndex (tm s') = topicsIndex (tm s)));
    done.
Qed.

(** With the topic in the local index and no failing write,
    [addDocuments] returns. *)
Lemma addDocumentsFrom_returns (k : nat) (env : Env) (topicId : string)
    (filePaths : list string) (s : Sys) (idx : TopicsIndex) (t : Topic) :
  topicsIndex (tm s) = Some idx ->
  OMap.get topicId (topics idx) = Some t ->
  failSaveIndex env = None ->
  failSaveDocuments env = None ->
  exists r, (addDocumentsFrom k env topicId filePaths s).1 = Ok r.
Proof.
  intros Hidx Ht Hsi Hsd. unfold addDocumentsFrom, bind at 1, gets at 1.
  cbn [fst snd]. rewrite Hidx, Ht. unfold bind at 1.
  destruct (addEach_returns env topicId filePaths k [] s) as [r Hr].
  pose proof (addEach_keeps_index env topicId filePaths k [] s) as Hk.
  destruct (addEach env topicId filePaths k [] s) as [res s1]. simpl in Hr, Hk.
  subst res. destruct s1 as [m1 w1]. simpl in Hk.
  unfold assignTopic, saveTopicsIndex, saveTopicDocuments, onTm, onWorld.
  mrun. rewrite Hk, Hidx, Ht, Hsi. mrun.
  destruct (topicDocuments m1 !! topicId); mrun; [rewrite Hsd|]; mrun; eauto.
Qed.

(** C10: every mutating method looks the topic up in the local index only.
    Called with an identifier that is not a local topic's, as that of a
    topic held by the common registry alone, [updateTopic], [addDocuments],
    [removeDocumentByFilePath], [deleteTopic] and [deleteTopicVectorStore]
    throw "Topic not found: <id>" and change nothing; the duplicate-name
    check of [createTopic] passes whenever no local topic bears the name,
    whatever the common registry holds; and none of the six methods ever
    assigns the common registry's topics or documents.  The identifier is
    not the name of a property that the index object inherits
    ([constructor], [toString], [__proto__], ...): the methods read
    [topics[topicId]], which is [undefined] for such an identifier only
    when it is no inherited name either. *)
Theorem C10_mutations_consult_local_index_only
    (env : Env) (s : Sys) (idx : TopicsIndex) (factory : string)
    (topicId : string) :
  topicsIndex (tm s) = Some idx ->
  vectorStoreFactory (tm s) = Some factory ->
  OMap.get topicId (topics idx) = None ->
  topicId ∉ JsObject.inheritedKeys ->
  JsObject.read topicId (topics idx) = JsObject.Undefined
  /\ (forall u, updateTopic env topicId u s = (Throw (topicNotFound topicId), s))
  /\ (forall filePaths,
        addDocuments env topicId filePaths s = (Throw (topicNotFound topicId), s))
  /\ (forall filePath,
        removeDocumentByFilePath env topicId filePath s
        = (Throw (topicNotFound topicId), s))
  /\ deleteTopic env topicId s = (Throw (topicNotFound topicId), s)
  /\ deleteTopicVectorStore env topicId s = (Throw (topicNotFound topicId), s)
  /\ (forall options,
        findByName (o_name options) (topics idx) = None ->
        failSaveIndex env = None -> failSaveDocuments env = None ->
        exists t, (createTopic env options s).1 = Ok t)
  /\ (forall u, keepsCommon (updateTopic env topicId u))
  /\ (forall filePaths, keepsCommon (addDocuments env topicId filePaths))
  /\ (forall filePath, keepsCommon (removeDocumentByFilePath env topicId filePath))
  /\ keepsCommon (deleteTopic env topicId)
  /\ keepsCommon (deleteTopicVectorStore env topicId)
  /\ (forall options, keepsCommon (createTopic env options)).
Proof.
  intros Hidx Hf Hnone Hplain.
  split.
  { unfold JsObject.read. rewrite Hnone. by rewrite bool_decide_eq_false_2. }
  repeat split;
    try (intros; first
           [ apply updateTopic_keepsCommon
           | apply addDocumentsFrom_keepsCommon
           | apply removeDocumentByFilePath_keepsCommon
           | apply deleteTopic_keepsCommon
           | apply deleteTopicVectorStore_keepsCommon
           | apply createTopic_keepsCommon ]; fail).
  - intros u. unfold updateTopic, bind, gets. simpl. by rewrite Hidx, Hnone.
  - intros fps. unfold addDocuments, addDocumentsFrom, bind, gets. simpl.
    by rewrite Hidx, Hnone.
  - intros fp. unfold removeDocumentByFilePath, bind, gets. simpl.
    by rewrite Hidx, Hf, Hnone.
  - unfold deleteTopic, bind, gets. simpl. by rewrite Hidx, Hf, Hnone.
  - unfold deleteTopicVectorStore, bind, gets. simpl. by rewrite Hidx, Hf, Hnone.
  - intros options Hfree Hsi Hsd.
    unfold createTopic, bind at 1, gets at 1. cbn [fst snd].
    rewrite Hidx, Hfree.
    unfold bind at 1, onTm at 1, modify at 1. cbn [fst snd].
    unfold bind at 1, saveTopicsIndex, bind at 1, gets at 1. cbn [fst snd tm].
    unfold setTopicsIndex at 1. cbn [topicsIndex]. rewrite Hsi.
    unfold onWorld at 1, modify at 1. cbn [fst snd].
    unfold bind at 1, onTm at 1, modify at 1. cbn [fst snd].
    set (topic := mkTopic _ _ _ _ _ _ _).
    set (s1 := mkSys _ _).
    destruct (o_initialDocuments options) as [|d ds].
    + unfold bind, ret, gets. simpl. eauto.
    + unfold bind at 1, bind at 1.
      destruct (addDocumentsFrom_returns 1 env (t_id topic) (d :: ds) s1
                  (mkIndex (OMap.set (t_id topic) topic (topics idx))
                     (modelName idx) (now env)) topic) as [r Hr];
        [done | apply omap_get_set_eq | done | done |].
      destruct (addDocumentsFrom 1 env (t_id topic) (d :: ds) s1) as [res s2].
      simpl in Hr. subst res. unfold ret, bind, gets. simpl. eauto.
Qed.

End LocalOnly.

Lemma C10_witness :
  Registry.isCommonTopic (Registry.tm Examples.withCommon) "topic-c" = true
  /\ Registry.deleteTopic Examples.calm "topic-c" Examples.withCommon
     = (Throw "Topic not found: topic-c", Examples.withCommon)
  /\ (forall filePath,
        Registry.removeDocumentByFilePath (platform := Posix.posix) Examples.calm
          "topic-c" filePath Examples.withCommon
        = (Throw "Topic not found: topic-c", Examples.withCommon))
  /\ (exists t,
        (Registry.createTopic (platform := Posix.posix) Examples.calm
           (Registry.mkOptions "Shared" None []) Examples.withCommon).1 = Ok t).
Proof.
  destruct (C10_mutations_consult_local_index_only (platform := Posix.posix)
              Examples.calm Examples.withCommon
              (Registry.mkIndex [("topic-l", Examples.notes)] "model-b" 1)
              "model-b" "topic-c")
    as (_ & _ & _ & Hremove & Hdelete & _ & Hcreate & _);
    [reflexivity | reflexivity | reflexivity
    | refine (bool_decide_eq_false_1 _ _); vm_compute; reflexivity |].
  split; [reflexivity|]. split; [exact Hdelete|]. split; [exact Hremove|].
  apply Hcreate; reflexivity.
Defined.

(** ** Deleting a topic and deleting its vector store *)

Section Deletion.
Import Registry.
Context {platform : Platform}.

(** [deleteTopic] never assigns [folderChunkStats]. *)
Lemma deleteTopic_keeps_folderChunkStats (env : Env) (topicId : string) (s : Sys) :
  folderChunkStats (tm (deleteTopic env topicId s).2) = folderChunkStats (tm s).
Proof.
  enough (Hp : preserves
                 (fun s' => folderChunkStats (tm s') = folderChunkStats (tm s))
                 (deleteTopic env topicId)) by exact (Hp s eq_refl).
  unfold deleteTopic, deleteStore, saveTopicsIndex, notifyAgentCacheCleanup,
    onTm, onWorld.
  repeat preserve_step;
    try (apply preserves_modify; intros [m w] Hs; simpl in *;
         repeat case_match; simpl in *; done).
Qed.

(** What [deleteTopicVectorStore] does for a local topic when the factory
    does not reject: the store's data, the cache entry and the folder usage
    of the topic are gone and the callback, if registered, has been called
    with the topic's identifier. *)
Lemma deleteTopicVectorStore_effects (env : Env) (topicId : string) (s : Sys)
    (idx : TopicsIndex) (factory : string) (t : Topic) :
  topicsIndex (tm s) = Some idx ->
  vectorStoreFactory (tm s) = Some factory ->
  OMap.get topicId (topics idx) = Some t ->
  failDeleteStore env = None ->
  let s' := (deleteTopicVectorStore env topicId s).2 in
  (deleteTopicVectorStore env topicId s).1 = Ok tt
  /\ tables (world s') !! topicId = None
  /\ storeMetadata (world s') !! topicId = None
  /\ vectorStoreCache (tm s') !! topicId = None
  /\ folderChunkStats (tm s') !! topicId = None
  /\ cleanupCalls (world s')
     = cleanupCalls (world s)
       ++ (if agentCacheCleanupCallback (tm s) then [topicId] else []).
Proof.
  intros Hidx Hf Ht Hd. destruct s as [m w]. simpl in *.
  unfold deleteTopicVectorStore, deleteStore, notifyAgentCacheCleanup, onTm,
    onWorld.
  mrun. rewrite Hidx, Hf, Ht, Hd. mrun.
  destruct (agentCacheCleanupCallback m); mrun.
  - destruct (callbackThrows env); mrun;
      rewrite !lookup_delete_eq; by repeat split.
  - rewrite !lookup_delete_eq, app_nil_r. by repeat split.
Qed.

(** What [deleteTopic] does for a local topic when neither the factory nor
    the write of the index rejects. *)
Lemma deleteTopic_effects (env : Env) (topicId : string) (s : Sys)
    (idx : TopicsIndex) (factory : string) (t : Topic) :
  topicsIndex (tm s) = Some idx ->
  vectorStoreFactory (tm s) = Some factory ->
  OMap.get topicId (topics idx) = Some t ->
  failDeleteStore env = None ->
  failSaveIndex env = None ->
  let s' := (deleteTopic env topicId s).2 in
  (deleteTopic env topicId s).1 = Ok tt
  /\ tables (world s') !! topicId = None
  /\ storeMetadata (world s') !! topicId = None
  /\ vectorStoreCache (tm s') !! topicId = None
  /\ topicDocuments (tm s') !! topicId = None
  /\ localTopic (tm s') topicId = None
  /\ cleanupCalls (world s')
     = cleanupCalls (world s)
       ++ (if agentCacheCleanupCallback (tm s) then [topicId] else []).
Proof.
  intros Hidx Hf Ht Hd Hsi. destruct s as [m w]. simpl in *.
  unfold deleteTopic, deleteStore, saveTopicsIndex, notifyAgentCacheCleanup,
    localTopic, onTm, onWorld.
  mrun. rewrite Hidx, Hf, Ht, Hd. mrun. rewrite Hidx. mrun. rewrite Hsi. mrun.
  destruct (agentCacheCleanupCallback m); mrun.
  - destruct (callbackThrows env); mrun;
      rewrite !lookup_delete_eq, omap_get_delete_eq; by repeat split.
  - rewrite !lookup_delete_eq, omap_get_delete_eq, app_nil_r. by repeat split.
Qed.

End Deletion.

(** C8, at the input where the code departs from the claim: topic [Docs]
    holds one indexed file.  [deleteTopic] returns and the topic is gone,
    yet [getFolderChunkStats] still answers the topic's folder usage;
    [deleteTopicVectorStore] on the same state clears it.  In general
    [deleteTopic] leaves [folderChunkStats] exactly as it found it. *)
Theorem C8_deleteTopic_leaves_folder_usage :
  (forall (env : Registry.Env) (topicId : string) (s : Registry.Sys),
      Registry.folderChunkStats (Registry.tm (Registry.deleteTopic env topicId s).2)
      = Registry.folderChunkStats (Registry.tm s))
  /\ (Registry.deleteTopic Examples.calm Examples.docsId Examples.afterAdd).1 = Ok tt
  /\ Registry.getTopic
       (Registry.tm (Registry.deleteTopic Examples.calm Examples.docsId
                       Examples.afterAdd).2) Examples.docsId = None
  /\ FolderTree.totalChunks <$>
       Registry.getFolderChunkStats
         (Registry.tm (Registry.deleteTopic Examples.calm Examples.docsId
                         Examples.afterAdd).2) Examples.docsId = Some 10
  /\ Registry.getFolderChunkStats
       (Registry.tm (Registry.deleteTopicVectorStore Examples.calm
                       Examples.docsId Examples.afterAdd).2) Examples.docsId = None.
Proof.
  split; [exact deleteTopic_keeps_folderChunkStats|].
  repeat split; vm_compute; reflexivity.
Qed.

(** ** Adding and removing documents *)

Section Documents.
Import Registry.
Context {platform : Platform}.

(** [getVectorStore] touches nothing but the vector-store cache. *)
Lemma getVectorStore_frame (env : Env) (topicId : string) (s : Sys) :
  world (getVectorStore env topicId s).2 = world s
  /\ tm (getVectorStore env topicId s).2
     = setVectorStoreCache
         (vectorStoreCache (tm (getVectorStore env topicId s).2)) (tm s).
Proof.
  destruct s as [m w].
  assert (Hm : forall c, m = setVectorStoreCache c m -> True) by done.
  unfold getVectorStore, ensureEmbeddingModelCompatibility, loadStore, onTm.
  mrun. destruct m; simpl.
  repeat (case_match; mrun); simplify_eq; by split.
Qed.

(** After [addDocuments] on a local topic, whether it returns or a write
    rejects, [documentCount] is the size of the topic's document map. *)
Lemma addDocuments_recounts (k : nat) (env : Env) (topicId : string)
    (filePaths : list string) (s : Sys) (idx : TopicsIndex) (t : Topic) :
  topicsIndex (tm s) = Some idx ->
  OMap.get topicId (topics idx) = Some t ->
  countAgrees (tm (addDocumentsFrom k env topicId filePaths s).2) topicId.
Proof.
  intros Hidx Ht. unfold addDocumentsFrom, bind at 1, gets at 1.
  cbn [fst snd]. rewrite Hidx, Ht. unfold bind at 1.
  destruct (addEach_returns env topicId filePaths k [] s) as [r Hr].
  pose proof (addEach_keeps_index env topicId filePaths k [] s) as Hk.
  destruct (addEach env topicId filePaths k [] s) as [res s1]. simpl in Hr, Hk.
  subst res. destruct s1 as [m1 w1]. simpl in Hk.
  unfold assignTopic, saveTopicsIndex, saveTopicDocuments, onTm, onWorld,
    countAgrees, localTopic, registered.
  mrun. rewrite Hk, Hidx, Ht. mrun.
  destruct (failSaveIndex env); mrun.
  - by rewrite omap_get_set_eq.
  - destruct (topicDocuments m1 !! topicId) eqn:Hd; mrun.
    + destruct (failSaveDocuments env); mrun; by rewrite omap_get_set_eq, ?Hd.
    + by rewrite omap_get_set_eq, ?Hd.
Qed.

(** No document under that path: [false], and nothing changes. *)
Lemma removeDocumentByFilePath_not_found (env : Env) (topicId filePath : string)
    (s : Sys) (idx : TopicsIndex) (factory : string) (t : Topic) :
  topicsIndex (tm s) = Some idx ->
  vectorStoreFactory (tm s) = Some factory ->
  OMap.get topicId (topics idx) = Some t ->
  documentAt (tm s) topicId filePath = None ->
  removeDocumentByFilePath env topicId filePath s = (Ok false, s).
Proof.
  intros Hidx Hf Ht Hnone. unfold removeDocumentByFilePath, documentAt in *.
  mrun. rewrite Hidx, Hf, Ht.
  destruct (topicDocuments (tm s) !! topicId); [by rewrite Hnone | done].
Qed.

(** A document under that path, and a vector store that opens (or is
    absent): the method returns [true] whether or not the deletion of the
    chunks fails, provided the two writes succeed.  The metadata is gone
    from the map and from the documents file, the count agrees with the
    map and the folder usage has been updated. *)
Lemma removeDocumentByFilePath_found (env : Env) (topicId filePath : string)
    (s : Sys) (idx : TopicsIndex) (factory : string) (t : Topic)
    (documents : list (string * TopicDocument)) (doc : TopicDocument)
    (store : option VectorStore) (s2 : Sys) :
  topicsIndex (tm s) = Some idx ->
  vectorStoreFactory (tm s) = Some factory ->
  OMap.get topicId (topics idx) = Some t ->
  topicDocuments (tm s) !! topicId = Some documents ->
  documentAt (tm s) topicId filePath = Some doc ->
  getVectorStore env topicId
    (mkSys (setTopicDocuments
              (<[topicId := OMap.delete (d_id doc) documents]>
                 (topicDocuments (tm s))) (tm s)) (world s))
  = (Ok store, s2) ->
  failSaveIndex env = None ->
  failSaveDocuments env = None ->
  exists s',
  removeDocumentByFilePath env topicId filePath s = (Ok true, s')
  /\ topicDocuments (tm s') !! topicId = Some (OMap.delete (d_id doc) documents)
  /\ countAgrees (tm s') topicId
  /\ documentsFiles (world s') !! topicId
     = Some (OMap.values (OMap.delete (d_id doc) documents))
  /\ folderChunkStats (tm s') !! topicId
     = (fun stats =>
          FolderTree.removeStats (watchConfig (world s)) stats filePath (now env))
       <$> folderChunkStats (tm s) !! topicId.
Proof.
  intros Hidx Hf Ht Hdocs Hat Hvs Hsi Hsd.
  unfold removeDocumentByFilePath, documentAt in *. rewrite Hdocs in Hat.
  unfold bind at 1, gets at 1. cbn [fst snd]. rewrite Hidx, Hf, Ht, Hdocs, Hat.
  unfold bind at 1, onTm at 1, modify at 1. cbn [fst snd].
  unfold bind at 1.
  pose proof (getVectorStore_frame env topicId
    (mkSys (setTopicDocuments
              (<[topicId := OMap.delete (d_id doc) documents]>
                 (topicDocuments (tm s))) (tm s)) (world s))) as [Hw Hm].
  rewrite Hvs in *. cbn [fst snd] in *. destruct s2 as [m2 w2].
  cbn [tm world] in *. subst w2. rewrite Hm. clear Hm Hvs.
  destruct s as [m w]. cbn [tm world] in *.
  unfold deleteRows, assignTopic, saveTopicsIndex, saveTopicDocuments,
    removeFolderChunkStats, countAgrees, localTopic, registered, onTm, onWorld.
  destruct store as [st|]; mrun.
  - destruct (failTableDelete env); mrun;
      rewrite ?Hidx, ?Ht; mrun; rewrite ?Hsi; mrun;
      rewrite ?lookup_insert_eq; mrun; rewrite ?Hsd; mrun;
      (destruct (vs_root st); mrun);
      (destruct (folderChunkStats m !! topicId) eqn:Hfs; mrun);
      (eexists; split; [reflexivity|]); mrun;
      rewrite ?Hidx, ?lookup_insert_eq, ?omap_get_set_eq, ?Hfs; by repeat split.
  - rewrite ?Hidx, ?Ht; mrun; rewrite ?Hsi; mrun;
      rewrite ?lookup_insert_eq; mrun; rewrite ?Hsd; mrun;
      (destruct (folderChunkStats m !! topicId) eqn:Hfs; mrun);
      (eexists; split; [reflexivity|]); mrun;
      rewrite ?Hidx, ?lookup_insert_eq, ?omap_get_set_eq, ?Hfs; by repeat split.
Qed.

(** Once [getVectorStore] has returned, the count is assigned from the
    map: whatever the later writes do, the count agrees with the map when
    the method ends. *)
Lemma removeDocumentByFilePath_recounts (env : Env) (topicId filePath : string)
    (s : Sys) (idx : TopicsIndex) (factory : string) (t : Topic)
    (documents : list (string * TopicDocument)) (doc : TopicDocument)
    (store : option VectorStore) (s2 : Sys) :
  topicsIndex (tm s) = Some idx ->
  vectorStoreFactory (tm s) = Some factory ->
  OMap.get topicId (topics idx) = Some t ->
  topicDocuments (tm s) !! topicId = Some documents ->
  documentAt (tm s) topicId filePath = Some doc ->
  getVectorStore env topicId
    (mkSys (setTopicDocuments
              (<[topicId := OMap.delete (d_id doc) documents]>
                 (topicDocuments (tm s))) (tm s)) (world s))
  = (Ok store, s2) ->
  countAgrees (tm (removeDocumentByFilePath env topicId filePath s).2) topicId.
Proof.
  intros Hidx Hf Ht Hdocs Hat Hvs.
  destruct (removeDocumentByFilePath env topicId filePath s) as [r s'] eqn:Hrun.
  revert Hrun. unfold removeDocumentByFilePath, documentAt in *.
  rewrite Hdocs in Hat.
  unfold bind at 1, gets at 1. cbn [fst snd]. rewrite Hidx, Hf, Ht, Hdocs, Hat.
  unfold bind at 1, onTm at 1, modify at 1. cbn [fst snd].
  unfold bind at 1.
  pose proof (getVectorStore_frame env topicId
    (mkSys (setTopicDocuments
              (<[topicId := OMap.delete (d_id doc) documents]>
                 (topicDocuments (tm s))) (tm s)) (world s))) as [Hw Hm].
  rewrite Hvs in *. cbn [fst snd] in *. destruct s2 as [m2 w2].
  cbn [tm world] in *. subst w2. rewrite Hm. clear Hm Hvs.
  destruct s as [m w]. cbn [tm world] in *.
  unfold deleteRows, assignTopic, saveTopicsIndex, saveTopicDocuments,
    removeFolderChunkStats, countAgrees, localTopic, registered, onTm, onWorld.
  destruct store as [st|]; mrun;
    try (destruct (failTableDelete env); mrun);
    rewrite ?Hidx, ?Ht; mrun;
    (destruct (failSaveIndex env); mrun);
    rewrite ?lookup_insert_eq; mrun;
    try (destruct (failSaveDocuments env); mrun);
    try (destruct (vs_root st); mrun);
    try (destruct (folderChunkStats m !! topicId) eqn:Hfs; mrun);
    intros [= <- <-]; mrun;
    by rewrite ?Hidx, ?lookup_insert_eq, ?omap_get_set_eq.
Qed.

(** A document under that path, and a vector store that fails to open:
    the method rethrows.  By then the document has left the map, while the
    topic's count, the files and the folder usage are as they were. *)
Lemma removeDocumentByFilePath_aborts (env : Env) (topicId filePath : string)
    (s : Sys) (idx : TopicsIndex) (factory : string) (t : Topic)
    (documents : list (string * TopicDocument)) (doc : TopicDocument)
    (e : string) (s2 : Sys) :
  topicsIndex (tm s) = Some idx ->
  vectorStoreFactory (tm s) = Some factory ->
  OMap.get topicId (topics idx) = Some t ->
  topicDocuments (tm s) !! topicId = Some documents ->
  documentAt (tm s) topicId filePath = Some doc ->
  getVectorStore env topicId
    (mkSys (setTopicDocuments
              (<[topicId := OMap.delete (d_id doc) documents]>
                 (topicDocuments (tm s))) (tm s)) (world s))
  = (Throw e, s2) ->
  removeDocumentByFilePath env topicId filePath s = (Throw e, s2)
  /\ topicDocuments (tm s2) !! topicId = Some (OMap.delete (d_id doc) documents)
  /\ localTopic (tm s2) topicId = Some t
  /\ folderChunkStats (tm s2) = folderChunkStats (tm s)
  /\ world s2 = world s.
Proof.
  intros Hidx Hf Ht Hdocs Hat Hvs.
  pose proof (getVectorStore_frame env topicId
    (mkSys (setTopicDocuments
              (<[topicId := OMap.delete (d_id doc) documents]>
                 (topicDocuments (tm s))) (tm s)) (world s))) as [Hw Hm].
  rewrite Hvs in Hw, Hm. cbn [fst snd] in *.
  split.
  - unfold removeDocumentByFilePath, documentAt in *. rewrite Hdocs in Hat.
    unfold bind at 1, gets at 1. cbn [fst snd].
    rewrite Hidx, Hf, Ht, Hdocs, Hat.
    unfold bind at 1, onTm at 1, modify at 1. cbn [fst snd].
    unfold bind at 1. by rewrite Hvs.
  - rewrite Hm, Hw. unfold localTopic. destruct s as [m w]. simpl in *.
    by rewrite lookup_insert_eq, Hidx.
Qed.

End Documents.

(** ** Sequences of additions and removals *)

Section Sequences.
Import Registry.
Context {platform : Platform}.

(** With a compatible stored model and a store that loads,
    [getVectorStore] returns. *)
Lemma getVectorStore_opens (env : Env) (topicId : string) (s : Sys) :
  is_Some (vectorStoreFactory (tm s)) ->
  compatible (world s) topicId ->
  failLoadStore env = None ->
  exists store s2, getVectorStore env topicId s = (Ok store, s2).
Proof.
  intros [f Hf] Hc Hl. destruct s as [m w]. simpl in *.
  unfold getVectorStore, ensureEmbeddingModelCompatibility, loadStore,
    compatible, onTm in *.
  mrun. rewrite Hf. mrun. rewrite Hf, Hl.
  destruct (storeMetadata w !! topicId) as [md|]; mrun.
  - destruct (truthy (sm_embeddingModel md)) as [stored|]; mrun.
    + destruct Hc as [->|Hav].
      * rewrite bool_decide_eq_true_2 by done. mrun.
        repeat (case_match; mrun); eauto.
      * rewrite Hav. case_bool_decide; mrun; repeat (case_match; mrun); eauto.
    + repeat (case_match; mrun); eauto.
  - repeat (case_match; mrun); eauto.
Qed.

Lemma assignTopic_ready (env : Env) (topicId : string) (f : Topic -> Topic) :
  preserves (ready topicId) (assignTopic env topicId f).
Proof.
  unfold assignTopic, onTm. apply preserves_modify.
  intros [m w] (Ht & Hf & Hc). unfold ready, localTopic in *. simpl in *.
  destruct (topicsIndex m) as [idx|]; [|done]. simpl.
  destruct Ht as [t Ht]. rewrite Ht. simpl. rewrite omap_get_set_eq.
  by repeat split.
Qed.

Lemma addEach_ready (env : Env) (topicId target : string)
    (filePaths : list string) (n : nat) (results : list TopicDocument) :
  preserves (ready target) (addEach env topicId filePaths n results).
Proof. apply addEach_preserves; by intros [] w v. Qed.

(** Closes the goals that a state setter leaves: the fields that [ready]
    reads are not among those assigned. *)
Ltac ready_setter :=
  apply preserves_modify; intros [m w] Hs;
  unfold ready, compatible, localTopic in *; destruct m, w; simpl in *;
  repeat case_match; simpl in *; simplify_eq; done.

Lemma addDocumentsFrom_ready (k : nat) (env : Env) (topicId : string)
    (filePaths : list string) :
  preserves (ready topicId) (addDocumentsFrom k env topicId filePaths).
Proof.
  unfold addDocumentsFrom.
  repeat first [apply addEach_ready | apply assignTopic_ready | preserve_step];
    unfold saveTopicsIndex, saveTopicDocuments, onWorld;
    repeat preserve_step; ready_setter.
Qed.

Lemma removeDocumentByFilePath_ready (env : Env) (topicId filePath : string) :
  preserves (ready topicId) (removeDocumentByFilePath env topicId filePath).
Proof.
  unfold removeDocumentByFilePath.
  repeat first [apply assignTopic_ready | preserve_step];
    unfold getVectorStore, ensureEmbeddingModelCompatibility, loadStore,
      deleteRows, saveTopicsIndex, saveTopicDocuments, removeFolderChunkStats,
      onTm, onWorld;
    repeat preserve_step; ready_setter.
Qed.

Lemma perform_ready (topicId : string) (s : Sys) (c : Call) :
  ready topicId s -> ready topicId (perform topicId s c).
Proof.
  destruct c as [env fps|env fp]; simpl.
  - apply addDocumentsFrom_ready.
  - apply removeDocumentByFilePath_ready.
Qed.

(** One call keeps the count in agreement with the map, provided the
    topic's store opens. *)
Lemma perform_countAgrees (topicId : string) (s : Sys) (c : Call) :
  ready topicId s -> loads c ->
  countAgrees (tm s) topicId ->
  countAgrees (tm (perform topicId s c)) topicId.
Proof.
  intros (Ht & Hf & Hc) Hl Hcount.
  unfold localTopic in Ht. destruct (topicsIndex (tm s)) as [idx|] eqn:Hidx;
    [|by destruct Ht]. destruct Ht as [t Ht].
  destruct c as [env fps|env fp]; simpl in *.
  - by eapply addDocuments_recounts.
  - destruct Hf as [f Hf].
    destruct (documentAt (tm s) topicId fp) as [doc|] eqn:Hat.
    + unfold documentAt in Hat.
      destruct (topicDocuments (tm s) !! topicId) as [documents|] eqn:Hdocs;
        [|done].
      destruct (getVectorStore_opens env topicId
                  (mkSys (setTopicDocuments
                            (<[topicId := OMap.delete (d_id doc) documents]>
                               (topicDocuments (tm s))) (tm s)) (world s)))
        as (store & s2 & Hvs); [by destruct (tm s); simpl in *; eauto | done..|].
      eapply removeDocumentByFilePath_recounts; eauto.
      unfold documentAt. by rewrite Hdocs.
    + by erewrite removeDocumentByFilePath_not_found.
Qed.

(** After any sequence of [addDocuments] and [removeDocumentByFilePath]
    calls on a local topic whose store opens at every removal, the topic's
    [documentCount] is the number of documents registered to it. *)
Lemma calls_countAgree (topicId : string) (calls : list Call) (s : Sys) :
  ready topicId s ->
  Forall loads calls ->
  countAgrees (tm s) topicId ->
  countAgrees (tm (foldl (perform topicId) s calls)) topicId.
Proof.
  intros Hr Hl. revert s Hr.
  induction Hl as [|c calls Hc _ IH]; intros s Hr Hcount; simpl; [done|].
  apply IH; [by apply perform_ready | by apply perform_countAgrees].
Qed.

End Sequences.

(** C2, at the input where the code departs from the claim.  Topic [Docs]
    holds one document and its count is 1.  Its vectors were stored under
    [model-a]; the active model is [model-b] and [model-a] is not
    available.  [removeDocumentByFilePath] deletes the document from the
    map, then [getVectorStore] throws, and the method rethrows before it
    reaches [topic.documentCount = documents.size]: the count stays 1
    over an empty map. *)
Theorem C2_count_stale_after_failed_removal :
  Registry.countAgrees (Registry.tm Examples.indexedUnderA) Examples.docsId
  /\ (Registry.removeDocumentByFilePath (platform := Posix.posix) Examples.calm
        Examples.docsId Examples.introFile Examples.indexedUnderA).1
     = Throw (Registry.mismatchMessage "Docs" "model-a" "model-b")
  /\ Registry.t_documentCount <$>
       Registry.localTopic
         (Registry.tm
            (Registry.removeDocumentByFilePath (platform := Posix.posix)
               Examples.calm Examples.docsId Examples.introFile
               Examples.indexedUnderA).2) Examples.docsId = Some 1
  /\ Registry.registered
       (Registry.tm
          (Registry.removeDocumentByFilePath (platform := Posix.posix)
             Examples.calm Examples.docsId Examples.introFile
             Examples.indexedUnderA).2) Examples.docsId = 0
  /\ ~ Registry.countAgrees
         (Registry.tm
            (Registry.removeDocumentByFilePath (platform := Posix.posix)
               Examples.calm Examples.docsId Examples.introFile
               Examples.indexedUnderA).2) Examples.docsId.
Proof.
  repeat split; try (vm_compute; reflexivity).
  unfold Registry.countAgrees. vm_compute. discriminate.
Qed.

(** C6, at the input where the code departs from the claim: the same
    state and call as for C2.  The document is found, yet the failure of
    the vector-store side is fatal: the method throws instead of returning
    [true], after the metadata has left the map but before the documents
    file, the index file and the folder usage are brought up to date. *)
Theorem C6_store_failure_aborts_removal :
  is_Some (Registry.documentAt (Registry.tm Examples.indexedUnderA)
             Examples.docsId Examples.introFile)
  /\ (Registry.removeDocumentByFilePath (platform := Posix.posix) Examples.calm
        Examples.docsId Examples.introFile Examples.indexedUnderA).1
     = Throw (Registry.mismatchMessage "Docs" "model-a" "model-b")
  /\ Registry.getTopicDocuments
       (Registry.tm
          (Registry.removeDocumentByFilePath (platform := Posix.posix)
             Examples.calm Examples.docsId Examples.introFile
             Examples.indexedUnderA).2) Examples.docsId = []
  /\ length <$>
       Registry.documentsFiles
         (Registry.world
            (Registry.removeDocumentByFilePath (platform := Posix.posix)
               Examples.calm Examples.docsId Examples.introFile
               Examples.indexedUnderA).2) !! Examples.docsId = Some 1%nat
  /\ FolderTree.totalChunks <$>
       Registry.getFolderChunkStats
         (Registry.tm
            (Registry.removeDocumentByFilePath (platform := Posix.posix)
               Examples.calm Examples.docsId Examples.introFile
               Examples.indexedUnderA).2) Examples.docsId = Some 10.
Proof.
  repeat split; try (vm_compute; reflexivity).
  vm_compute. eexists. reflexivity.
Qed.

(** ** Loading the common database *)

Section CommonDatabase.
Import Registry.
Context {platform : Platform}.

Lemma nameConflicts_found (lidx cidx : TopicsIndex) (ck lk : string)
    (ct lt : Topic) :
  OMap.get ck (topics cidx) = Some ct ->
  OMap.get lk (topics lidx) = Some lt ->
  toLowerCase (t_name ct) = toLowerCase (t_name lt) ->
  nameConflicts (Some lidx) cidx <> [].
Proof.
  intros Hc Hl Hname Hnil.
  assert (Hin : t_name ct ∈ nameConflicts (Some lidx) cidx).
  { unfold nameConflicts. apply list_elem_of_fmap. exists ct. split; [done|].
    apply list_elem_of_filter. split.
    - rewrite Hname. apply list_elem_of_fmap. exists lt. split; [done|].
      apply list_elem_of_In. by eapply omap_get_Some_In.
    - apply list_elem_of_In. by eapply omap_get_Some_In. }
  rewrite Hnil in Hin. by apply not_elem_of_nil in Hin.
Qed.

(** C4: when the common path is configured and the index read from it
    holds a topic whose lower-cased name is that of a local topic, the load
    aborts as a whole: the call returns, the common index, the common
    documents and the common database path are all reset, so that
    [getAllTopics] lists the local topics only, and neither the local
    registry nor anything outside the manager is changed. *)
Theorem C4_common_load_aborts_on_name_collision
    (s : Sys) (commonPath : string) (cidx lidx : TopicsIndex)
    (files : gmap string (list TopicDocument)) (ck lk : string) (ct lt : Topic) :
  truthy (commonPathSetting (world s)) = Some commonPath ->
  commonDisk (world s) = IndexParsed (Some cidx) files ->
  topicsIndex (tm s) = Some lidx ->
  OMap.get ck (topics cidx) = Some ct ->
  OMap.get lk (topics lidx) = Some lt ->
  toLowerCase (t_name ct) = toLowerCase (t_name lt) ->
  loadCommonDatabase s = (Ok tt, mkSys (setCommon None ∅ None (tm s)) (world s))
  /\ commonRegistry (tm (loadCommonDatabase s).2) = (None, ∅, None)
  /\ getAllTopics (tm (loadCommonDatabase s).2)
     = map (withSource local) (OMap.values (topics lidx))
  /\ topicsIndex (tm (loadCommonDatabase s).2) = topicsIndex (tm s)
  /\ topicDocuments (tm (loadCommonDatabase s).2) = topicDocuments (tm s)
  /\ folderChunkStats (tm (loadCommonDatabase s).2) = folderChunkStats (tm s)
  /\ vectorStoreCache (tm (loadCommonDatabase s).2) = vectorStoreCache (tm s).
Proof.
  intros Hpath Hdisk Hidx Hc Hl Hname.
  assert (Hrun : loadCommonDatabase s
                 = (Ok tt, mkSys (setCommon None ∅ None (tm s)) (world s))).
  { unfold loadCommonDatabase, onTm. mrun. rewrite Hpath, Hdisk, Hidx.
    pose proof (nameConflicts_found lidx cidx ck lk ct lt Hc Hl Hname) as Hne.
    destruct (nameConflicts (Some lidx) cidx); [done | reflexivity]. }
  rewrite Hrun. cbn [fst snd tm]. repeat split; try done.
  unfold getAllTopics. simpl. rewrite Hidx. apply app_nil_r.
Qed.

End CommonDatabase.

Lemma C4_witness :
  Registry.commonRegistry
    (Registry.tm (Registry.loadCommonDatabase (platform := Posix.posix)
                    Examples.collision).2) = (None, ∅, None)
  /\ Registry.getAllTopics
       (Registry.tm (Registry.loadCommonDatabase (platform := Posix.posix)
                       Examples.collision).2)
     = [Registry.withSource Registry.local Examples.notes].
Proof.
  destruct (C4_common_load_aborts_on_name_collision (platform := Posix.posix)
              Examples.collision "/common" Examples.collidingIndex
              (Registry.mkIndex [("topic-l", Examples.notes)] "model-b" 1)
              ∅ "topic-n" "topic-l" Examples.shouting Examples.notes)
    as (_ & Hreset & Hall & _); [reflexivity..|].
  split; [exact Hreset | exact Hall].
Defined.

(** ** Export and import *)

Section ExportImport.
Import Registry.
Context {platform : Platform}.

Lemma omap_set_fresh {V : Type} (k : string) (v : V) (m : list (string * V)) :
  k ∉ OMap.keys m -> OMap.set k v m = m ++ [(k, v)].
Proof.
  induction m as [|[k' v'] r IH]; simpl; intros Hk; [done|].
  apply not_elem_of_cons in Hk as [Hne Hk].
  rewrite decide_False by done. by rewrite IH.
Qed.

Lemma documentsMapOf_app (docs : list TopicDocument)
    (acc : list (string * TopicDocument)) :
  NoDup (OMap.keys acc ++ map d_id docs) ->
  foldl (fun a doc => OMap.set (d_id doc) doc a) acc docs
  = acc ++ map (fun doc => (d_id doc, doc)) docs.
Proof.
  revert acc. induction docs as [|doc rest IH]; intros acc Hnd; simpl.
  - by rewrite app_nil_r.
  - pose proof Hnd as Hall. apply NoDup_app in Hnd as (Ha & Hdisj & Hd).
    rewrite omap_set_fresh by (intros Hin; apply (Hdisj _ Hin); by left).
    rewrite IH.
    + by rewrite <- app_assoc.
    + unfold OMap.keys in *. rewrite fmap_app. simpl.
      by rewrite <- app_assoc.
Qed.

(** With pairwise distinct identifiers, the document map built by the
    import lists the documents in their order. *)
Lemma documentsMapOf_values (docs : list TopicDocument) :
  NoDup (map d_id docs) -> OMap.values (documentsMapOf docs) = docs.
Proof.
  intros Hnd. unfold documentsMapOf. rewrite documentsMapOf_app by done.
  simpl. unfold OMap.values. clear Hnd.
  induction docs as [|d r IH]; simpl; [done | by f_equal].
Qed.

Lemma remapDocuments_ids (env : Env) (newTopicId : string)
    (docs : list TopicDocument) (n : nat) :
  map d_id (remapDocuments env newTopicId n docs)
  = map (generateDocumentId env) (seq n (length docs)).
Proof.
  revert n. induction docs as [|d r IH]; intros n; simpl; [done|].
  by rewrite IH.
Qed.

Lemma remapDocuments_chunkCounts (env : Env) (newTopicId : string)
    (docs : list TopicDocument) (n : nat) :
  map d_chunkCount (remapDocuments env newTopicId n docs) = map d_chunkCount docs.
Proof.
  revert n. induction docs as [|d r IH]; intros n; simpl; [done|].
  by rewrite IH.
Qed.

Lemma remapDocuments_topicId (env : Env) (newTopicId : string)
    (docs : list TopicDocument) (n : nat) :
  Forall (fun d => d_topicId d = newTopicId)
         (remapDocuments env newTopicId n docs).
Proof.
  revert n. induction docs as [|d r IH]; intros n; simpl; constructor; auto.
Qed.

(** What [exportTopic] writes for a local topic. *)
Lemma exportTopic_archive (env : Env) (topicId exportPath : string) (s : Sys)
    (idx : TopicsIndex) (topic : Topic) :
  topicsIndex (tm s) = Some idx ->
  OMap.get topicId (topics idx) = Some topic ->
  isCommonTopic (tm s) topicId = false ->
  exists rest,
    (exportTopic env topicId exportPath s).1 = Ok tt
    /\ archives (world (exportTopic env topicId exportPath s).2) !! exportPath
       = Some (mkEntry "topic.json" false
                 (TopicJson (mkExport EXPORT_FORMAT_VERSION topic
                               (getTopicDocuments (tm s) topicId)
                               (modelName idx) (now env))) :: rest).
Proof.
  intros Hidx Ht Hc. unfold exportTopic, onWorld. mrun.
  rewrite Hidx, Hc, Ht. mrun. rewrite lookup_insert_eq. eauto.
Qed.

Lemma omap_values_set_elem {V : Type} (k : string) (v x : V)
    (m : list (string * V)) :
  x ∈ OMap.values (OMap.set k v m) -> x = v \/ x ∈ OMap.values m.
Proof.
  induction m as [|[k' v'] r IH]; simpl.
  - rewrite list_elem_of_singleton. by left.
  - destruct (decide (k = k')); simpl; rewrite !elem_of_cons.
    + intros [?|?]; auto.
    + intros [?|Hin]; [auto|]. destruct (IH Hin); auto.
Qed.

(** The document map holds no document but those it was built from. *)
Lemma documentsMapOf_elem (docs : list TopicDocument) (d : TopicDocument) :
  d ∈ OMap.values (documentsMapOf docs) -> d ∈ docs.
Proof.
  unfold documentsMapOf.
  assert (Hacc : forall acc,
    d ∈ OMap.values (foldl (fun a doc => OMap.set (d_id doc) doc a) acc docs) ->
    d ∈ OMap.values acc \/ d ∈ docs).
  { induction docs as [|doc rest IH]; intros acc; simpl; [by left|].
    intros Hin. destruct (IH _ Hin) as [Hset|Hrest].
    - apply omap_values_set_elem in Hset as [->|?]; [right; left | by left].
    - right. by right. }
  intros Hin. destruct (Hacc [] Hin) as [Hnil|?]; [|done].
  by apply elem_of_nil in Hnil.
Qed.

(** What [importTopic] does with an archive whose first entry is a
    [topic.json], when neither write rejects. *)
Lemma importTopic_run (env : Env) (archivePath : string) (s : Sys)
    (idx : TopicsIndex) (exportData : ExportedTopicData) (rest : list ZipEntry) :
  topicsIndex (tm s) = Some idx ->
  archives (world s) !! archivePath
  = Some (mkEntry "topic.json" false (TopicJson exportData) :: rest) ->
  failSaveIndex env = None ->
  failSaveDocuments env = None ->
  let newTopic :=
    mkTopic (generateTopicId env 0)
      (match findByName (t_name (x_topic exportData)) (topics idx) with
       | Some _ => t_name (x_topic exportData) +:+ " (imported)"
       | None => t_name (x_topic exportData)
       end)
      (t_description (x_topic exportData)) (now env) (now env)
      (t_documentCount (x_topic exportData)) (Some local) in
  exists s',
    importTopic env archivePath s = (Ok newTopic, s')
    /\ localTopic (tm s') (generateTopicId env 0) = Some newTopic
    /\ topicDocuments (tm s') !! generateTopicId env 0
       = Some (documentsMapOf
                 (remapDocuments env (generateTopicId env 0) 1
                    (x_documents exportData)))
    /\ forall other,
         other <> generateTopicId env 0 ->
         localTopic (tm s') other = localTopic (tm s) other
         /\ topicDocuments (tm s') !! other = topicDocuments (tm s) !! other.
Proof.
  intros Hidx Har Hsi Hsd. unfold importTopic, saveTopicsIndex,
    saveTopicDocuments, localTopic, onTm, onWorld.
  mrun. rewrite Hidx, Har. mrun. rewrite Hidx. mrun. rewrite Hsi. mrun.
  rewrite lookup_insert_eq. mrun. rewrite Hsd. mrun.
  eexists. split; [reflexivity|]. mrun.
  rewrite omap_get_set_eq, lookup_insert_eq. split; [done|]. split; [done|].
  intros other Hother.
  rewrite omap_get_set_ne by done. by rewrite lookup_insert_ne.
Qed.

(** C5, as the code has it: a local topic is exported, and the archive is
    imported into a registry (the same or another) by a call in which no
    write rejects.  The import returns a topic that carries the identifier
    generated from the clock and the random source, whatever identifiers
    are in use, and the original [documentCount]; it is registered under
    that identifier, and every other topic and its documents are as
    before; its name is the original one, followed by " (imported)"
    exactly when the importing registry already has a local topic of that
    name up to case; every document of the new topic has the new topic's
    identifier as [topicId]; and when the identifiers generated for the
    documents are pairwise distinct, the documents are the exported ones in
    their order, each with its [chunkCount] and with its generated
    identifier. *)
Theorem C5_export_then_import
    (envX envI : Env) (topicId path : string) (s s2 : Sys)
    (idx idx2 : TopicsIndex) (topic : Topic) :
  topicsIndex (tm s) = Some idx ->
  OMap.get topicId (topics idx) = Some topic ->
  isCommonTopic (tm s) topicId = false ->
  topicsIndex (tm s2) = Some idx2 ->
  archives (world s2) !! path
  = archives (world (exportTopic envX topicId path s).2) !! path ->
  failSaveIndex envI = None ->
  failSaveDocuments envI = None ->
  exists (newTopic : Topic) (s' : Sys),
    importTopic envI path s2 = (Ok newTopic, s')
    /\ t_id newTopic = generateTopicId envI 0
    /\ t_documentCount newTopic = t_documentCount topic
    /\ t_name newTopic
       = match findByName (t_name topic) (topics idx2) with
         | Some _ => t_name topic +:+ " (imported)"
         | None => t_name topic
         end
    /\ localTopic (tm s') (t_id newTopic) = Some newTopic
    /\ (forall other,
          other <> t_id newTopic ->
          localTopic (tm s') other = localTopic (tm s2) other
          /\ topicDocuments (tm s') !! other = topicDocuments (tm s2) !! other)
    /\ Forall (fun d => d_topicId d = t_id newTopic)
              (getTopicDocuments (tm s') (t_id newTopic))
    /\ (NoDup (map (generateDocumentId envI)
                   (seq 1 (length (getTopicDocuments (tm s) topicId)))) ->
        length (getTopicDocuments (tm s') (t_id newTopic))
        = length (getTopicDocuments (tm s) topicId)
        /\ map d_chunkCount (getTopicDocuments (tm s') (t_id newTopic))
           = map d_chunkCount (getTopicDocuments (tm s) topicId)
        /\ map d_id (getTopicDocuments (tm s') (t_id newTopic))
           = map (generateDocumentId envI)
                 (seq 1 (length (getTopicDocuments (tm s) topicId)))).
Proof.
  intros Hidx Ht Hc Hidx2 Har Hsi Hsd.
  destruct (exportTopic_archive envX topicId path s idx topic Hidx Ht Hc)
    as (rest & _ & Hex).
  rewrite Hex in Har.
  destruct (importTopic_run envI path s2 idx2 _ rest Hidx2 Har Hsi Hsd)
    as (s' & Hrun & Hreg & Hdocs & Hothers).
  cbn [x_topic x_documents] in *.
  eexists _, s'. split; [exact Hrun|]. cbn [t_id t_documentCount t_name].
  split; [done|]. split; [done|]. split; [done|]. split; [exact Hreg|].
  split; [exact Hothers|]. split.
  - apply Forall_forall. intros d Hd. unfold getTopicDocuments in Hd.
    rewrite Hdocs in Hd. apply documentsMapOf_elem in Hd.
    pose proof (remapDocuments_topicId envI (generateTopicId envI 0)
                  (getTopicDocuments (tm s) topicId) 1) as Hall.
    rewrite Forall_forall in Hall. by apply Hall.
  - intros Hnd.
    assert (Hvals : getTopicDocuments (tm s') (generateTopicId envI 0)
                    = remapDocuments envI (generateTopicId envI 0) 1
                        (getTopicDocuments (tm s) topicId)).
    { unfold getTopicDocuments at 1. rewrite Hdocs.
      apply documentsMapOf_values. by rewrite remapDocuments_ids. }
    rewrite Hvals. split; [|split].
    + clear. generalize 1%nat.
      induction (getTopicDocuments (tm s) topicId) as [|d r IH]; intros n;
        simpl; [done | by rewrite IH].
    + apply remapDocuments_chunkCounts.
    + apply remapDocuments_ids.
Qed.

End ExportImport.

Lemma C5_witness :
  exists (newTopic : Registry.Topic) (s' : Registry.Sys),
    Registry.importTopic (platform := Posix.posix) Examples.later
      Examples.archivePath Cases.exported
    = (Ok newTopic, s')
    /\ Registry.t_id newTopic = "topic-1700000005000-p7q2m0"
    /\ Registry.t_name newTopic = "Docs (imported)"
    /\ Registry.t_documentCount newTopic = 2
    /\ map Registry.d_chunkCount
         (Registry.getTopicDocuments (Registry.tm s') (Registry.t_id newTopic))
       = [10; 4]
    /\ map Registry.d_id
         (Registry.getTopicDocuments (Registry.tm s') (Registry.t_id newTopic))
       = ["doc-1700000005001-p7q2m1"; "doc-1700000005002-p7q2m2"]
    /\ Registry.localTopic (Registry.tm s') Examples.docsId
       = Registry.localTopic (Registry.tm Cases.twoDocs) Examples.docsId.
Proof.
  edestruct (C5_export_then_import (platform := Posix.posix)
               Examples.calm Examples.later Examples.docsId
               Examples.archivePath Cases.twoDocs Cases.exported)
    as (newTopic & s' & Hrun & Hid & Hcount & Hname & _ & Hothers & _ & Hdocs).
  - vm_compute. reflexivity.
  - vm_compute. reflexivity.
  - vm_compute. reflexivity.
  - vm_compute. reflexivity.
  - reflexivity.
  - reflexivity.
  - reflexivity.
  - destruct Hdocs as (_ & Hchunks & Hids).
    { vm_compute. apply NoDup_cons. split; [|apply NoDup_singleton].
      intros Hin. apply list_elem_of_singleton in Hin. discriminate. }
    exists newTopic, s'. split; [exact Hrun|].
    split; [rewrite Hid; vm_compute; reflexivity|].
    split; [rewrite Hname; vm_compute; reflexivity|].
    split; [rewrite Hcount; vm_compute; reflexivity|].
    split; [rewrite Hchunks; vm_compute; reflexivity|].
    split; [rewrite Hids; vm_compute; reflexivity|].
    destruct (Hothers Examples.docsId) as [Hsame _].
    + rewrite Hid. vm_compute. discriminate.
    + rewrite Hsame. vm_compute. reflexivity.
Defined.

(** C5, as the claim states it, fails.  The archive of [Docs] is imported
    twice into the registry it was exported from: both imports return a
    topic named [Docs (imported)], and the registry then holds the two
    under that one name.  And an import during which the clock and the
    random source give what they gave when [Docs] was created returns a
    topic under the identifier of [Docs], in whose place it is then
    registered. *)
Lemma C5_import_checks_neither_identifier_nor_suffixed_name :
  (exists (first second : Registry.Topic) (s1 s2 : Registry.Sys),
     Registry.importTopic (platform := Posix.posix) Examples.later
       Examples.archivePath Cases.exported = (Ok first, s1)
     /\ Registry.importTopic (platform := Posix.posix) Cases.evenLater
          Examples.archivePath s1 = (Ok second, s2)
     /\ Registry.t_name first = "Docs (imported)"
     /\ Registry.t_name second = "Docs (imported)"
     /\ Registry.t_id first <> Registry.t_id second
     /\ Registry.localTopic (Registry.tm s2) (Registry.t_id first) = Some first
     /\ Registry.localTopic (Registry.tm s2) (Registry.t_id second) = Some second)
  /\ (exists (again original : Registry.Topic) (s3 : Registry.Sys),
        Registry.localTopic (Registry.tm Cases.exported) Examples.docsId
        = Some original
        /\ Registry.importTopic (platform := Posix.posix) Examples.calm
             Examples.archivePath Cases.exported = (Ok again, s3)
        /\ Registry.t_id again = Registry.t_id original
        /\ Registry.localTopic (Registry.tm s3) Examples.docsId = Some again
        /\ again <> original).
Proof.
  split.
  - eexists _, _, _, _.
    split; [vm_compute; reflexivity|]. split; [vm_compute; reflexivity|].
    split; [reflexivity|]. split; [reflexivity|].
    split; [vm_compute; discriminate|].
    split; vm_compute; reflexivity.
  - eexists _, _, _.
    split; [vm_compute; reflexivity|]. split; [vm_compute; reflexivity|].
    split; [reflexivity|]. split; [vm_compute; reflexivity|].
    vm_compute. discriminate.
Qed.

(** ** Retrieval service *)

Section Retrieval.
Import Registry Rest.
Context {platform : Platform}.


Lemma truthy_Some (o : option string) (s : string) :
  truthy o = Some s -> o = Some s /\ nonEmpty s = true.
Proof.
  destruct o as [x|]; simpl; [|done].
  destruct (nonEmpty x) eqn:Hx; [|done]. by intros [= <-].
Qed.

Lemma truthy_nonEmpty (s : string) : nonEmpty s = true -> truthy (Some s) = Some s.
Proof. simpl. by intros ->. Qed.

(** The model that [getTopicStats] reports is never the empty string. *)
Lemma getTopicStats_model (s : Sys) (topicId : string) (stats : TopicStats) :
  getTopicStats s topicId = Some stats ->
  truthy (Some (ts_embeddingModel stats)) = Some (ts_embeddingModel stats).
Proof.
  unfold getTopicStats. intros Hs. apply truthy_nonEmpty.
  repeat case_match; simplify_eq; simpl;
    repeat match goal with
           | Ht : truthy _ = Some _ |- _ => apply truthy_Some in Ht as [_ Ht]
           end; done.
Qed.




(** [runQuery] leaves the world, and with it the active model, as it is. *)
Lemma runQuery_world (e : SearchEnv) (searchQuery : QueryValue) (topK : Z)
    (targetTopic : Topic) (n : Node) :
  world (sys (runQuery e searchQuery topK targetTopic n).2) = world (sys n).
Proof.
  unfold runQuery.
  pose proof (getVectorStore_frame (callEnv e) (t_id targetTopic) (sys n)) as [Hw _].
  destruct (getVectorStore _ _ _) as [[[st|]|err] s']; simpl in Hw;
    repeat case_match; simpl; done.
Qed.

(** Every response of [runQuery] is a 200 with results or a 500 with an
    error message. *)
Lemma runQuery_shape (e : SearchEnv) (searchQuery : QueryValue) (topK : Z)
    (targetTopic : Topic) (n : Node) :
  (status (runQuery e searchQuery topK targetTopic n).1 = 200
   /\ errorOf (runQuery e searchQuery topK targetTopic n).1 = None)
  \/ (status (runQuery e searchQuery topK targetTopic n).1 = 500
      /\ is_Some (errorOf (runQuery e searchQuery topK targetTopic n).1)).
Proof.
  unfold runQuery, errorOf.
  repeat case_match; simpl; first [by left | by right].
Qed.


Lemma searchTopic_shape (e : SearchEnv) (searchQuery : QueryValue) (topK : Z)
    (targetTopic : Topic) (n : Node) :
  (status (searchTopic e searchQuery topK targetTopic n).1 = 200
   /\ errorOf (searchTopic e searchQuery topK targetTopic n).1 = None)
  \/ (status (searchTopic e searchQuery topK targetTopic n).1 = 500
      /\ is_Some (errorOf (searchTopic e searchQuery topK targetTopic n).1)).
Proof.
  unfold searchTopic, initializeModel.
  repeat case_match; simplify_eq; try apply runQuery_shape.
  right. simpl. by split.
Qed.

(** A request that resolves to a topic is answered by [searchTopic]. *)
Lemma handleSearch_target (e : SearchEnv) (query : ParsedUrlQuery) (n : Node)
    (searchQuery : QueryValue) (targetTopic : Topic) :
  given (q query) = Some searchQuery ->
  topicManager (server n) = true ->
  targets query n targetTopic ->
  handleSearch e query n
  = answered (searchTopic e searchQuery (topKOf query) targetTopic n).
Proof.
  intros Hq Hm Ht. unfold handleSearch, targets in *. rewrite Hq, Hm. simpl.
  destruct (given (topic query)) as [[topicName|topicNames]|];
    [by rewrite Ht | done | by rewrite Ht].
Qed.



(** C7: the error responses of [GET /search], each with the status and
    the body that are written.  A missing (or empty) [q] gives 400; with
    [q] present, an unset topic manager gives 503; with both present, a
    topic named by one [topic] parameter that no topic matches gives 404,
    and no name and no topic at all gives 404 "No topics available"; for a
    resolved topic, a failed model switch gives 500, and so does a vector
    store that [getVectorStore] reports as absent, with or without a
    preceding switch.  Every response that the handler writes is either a
    200 carrying results or one of 400, 404, 500, 503 carrying
    [{error: message}]; the handler writes none only for a repeated
    [topic] parameter over a registry that has topics, where the look-up
    throws and the request is answered with 500 and [{error: message}] by
    its caller. *)
Theorem C7_search_error_responses (e : SearchEnv) (query : ParsedUrlQuery)
    (n : Node) :
  (given (q query) = None ->
   handleSearch e query n
   = (Ok (mkResponse 400 (ErrorBody "Missing required parameter: q")), n))
  /\ (is_Some (given (q query)) -> topicManager (server n) = false ->
      handleSearch e query n
      = (Ok (mkResponse 503 (ErrorBody "Topic manager not initialized")), n))
  /\ (forall topicName,
        is_Some (given (q query)) -> topicManager (server n) = true ->
        given (topic query) = Some (One topicName) ->
        findNamed topicName (getAllTopics (tm (sys n))) = None ->
        handleSearch e query n
        = (Ok (mkResponse 404 (ErrorBody ("Topic not found: " +:+ topicName))),
           n))
  /\ (is_Some (given (q query)) -> topicManager (server n) = true ->
      given (topic query) = None ->
      getAllTopics (tm (sys n)) = [] ->
      handleSearch e query n
      = (Ok (mkResponse 404 (ErrorBody "No topics available")), n))
  /\ (forall targetTopic stats err,
        is_Some (given (q query)) -> topicManager (server n) = true ->
        targets query n targetTopic ->
        getTopicStats (sys n) (t_id targetTopic) = Some stats ->
        ts_embeddingModel stats <> currentModel (world (sys n)) ->
        failInitializeModel e = Some err ->
        handleSearch e query n
        = (Ok (mkResponse 500
                 (ErrorBody
                    (switchFailedMessage (t_name targetTopic)
                       (ts_embeddingModel stats)
                       (currentModel (world (sys n))) err))), n))
  /\ (forall targetTopic s',
        is_Some (given (q query)) -> topicManager (server n) = true ->
        targets query n targetTopic ->
        match getTopicStats (sys n) (t_id targetTopic) with
        | Some stats => ts_embeddingModel stats = currentModel (world (sys n))
        | None => True
        end ->
        agentCache (server n) !! t_id targetTopic = None ->
        getVectorStore (callEnv e) (t_id targetTopic) (sys n) = (Ok None, s') ->
        (handleSearch e query n).1
        = Ok (mkResponse 500 (ErrorBody "Vector store not available for topic")))
  /\ (forall targetTopic stats s',
        is_Some (given (q query)) -> topicManager (server n) = true ->
        targets query n targetTopic ->
        getTopicStats (sys n) (t_id targetTopic) = Some stats ->
        ts_embeddingModel stats <> currentModel (world (sys n)) ->
        failInitializeModel e = None ->
        getVectorStore (callEnv e) (t_id targetTopic)
          (mkSys (tm (sys n))
             (setWorldModel (ts_embeddingModel stats) (world (sys n))))
        = (Ok None, s') ->
        (handleSearch e query n).1
        = Ok (mkResponse 500 (ErrorBody "Vector store not available for topic")))
  /\ match (handleSearch e query n).1 with
     | Ok response =>
         (status response = 200 /\ exists results, body response = SearchBody results)
         \/ ((status response = 400 \/ status response = 404
              \/ status response = 500 \/ status response = 503)
             /\ exists message, body response = ErrorBody message)
     | Throw message =>
         message = "topicName.toLowerCase is not a function"
         /\ (exists topicNames, given (topic query) = Some (Many topicNames))
         /\ getAllTopics (tm (sys n)) <> []
         /\ forall (decode : string -> result string) (method : string)
                   (s : Routes.Service),
              Routes.node s = n -> method = "GET" ->
              (Routes.handleRequest (Routes.mkRequestEnv e decode)
                 (Routes.mkRequest method "/search" query) s).1
              = Routes.mkReply Routes.jsonHeaders 500 (Routes.ErrorJson message)
     end.
Proof.
  split; [|split; [|split; [|split; [|split; [|split; [|split]]]]]].
  - intros Hq. unfold handleSearch. by rewrite Hq.
  - intros [sq Hq] Hm. unfold handleSearch. by rewrite Hq, Hm.
  - intros topicName [sq Hq] Hm Ht Hnone. unfold handleSearch.
    by rewrite Hq, Hm, Ht, Hnone.
  - intros [sq Hq] Hm Ht Hnone. unfold handleSearch.
    by rewrite Hq, Hm, Ht, Hnone.
  - intros targetTopic stats err [sq Hq] Hm Ht Hs Hne Herr.
    rewrite (handleSearch_target e query n sq targetTopic) by done.
    unfold answered, searchTopic, initializeModel.
    rewrite Hs, (getTopicStats_model _ _ _ Hs), Herr.
    rewrite bool_decide_eq_false_2 by done. by destruct n.
  - intros targetTopic s' [sq Hq] Hm Ht Hs Hcache Hvs.
    rewrite (handleSearch_target e query n sq targetTopic) by done.
    unfold answered, searchTopic. cbn [fst].
    destruct (getTopicStats (sys n) (t_id targetTopic)) as [stats|] eqn:Hst.
    + rewrite (getTopicStats_model _ _ _ Hst).
      rewrite bool_decide_eq_true_2 by done.
      unfold runQuery. by rewrite Hcache, Hvs.
    + unfold runQuery. by rewrite Hcache, Hvs.
  - intros targetTopic stats s' [sq Hq] Hm Ht Hs Hne Hinit Hvs.
    rewrite (handleSearch_target e query n sq targetTopic) by done.
    unfold answered, searchTopic, initializeModel. cbn [fst].
    rewrite Hs, (getTopicStats_model _ _ _ Hs), Hinit.
    rewrite bool_decide_eq_false_2 by done.
    unfold runQuery. cbn [server agentCache sys]. rewrite lookup_empty.
    by rewrite Hvs.
  - assert (Hwritten : forall sq found,
      match (answered (searchTopic e sq (topKOf query) found n)).1 with
      | Ok response =>
          (status response = 200
           /\ exists results, body response = SearchBody results)
          \/ ((status response = 400 \/ status response = 404
               \/ status response = 500 \/ status response = 503)
              /\ exists message, body response = ErrorBody message)
      | Throw _ => False
      end).
    { intros sq found. unfold answered. cbn [fst].
      destruct (searchTopic_shape e sq (topKOf query) found n)
        as [[Hs Herr]|[Hs [message Herr]]]; unfold errorOf in Herr;
        destruct (body _) eqn:Hb; try done;
        [left; split; [done | by eexists]
        | right; split; [auto | by eexists]]. }
    unfold handleSearch.
    destruct (given (q query)) as [sq|] eqn:Hq; [|right; simpl; eauto 6].
    destruct (topicManager (server n)) eqn:Hm; simpl; [|right; simpl; eauto 6].
    destruct (given (topic query)) as [[topicName|topicNames]|] eqn:Ht.
    + destruct (findNamed _ _) as [found|]; [|right; simpl; eauto 6].
      pose proof (Hwritten sq found) as Hw.
      destruct (answered _).1; [exact Hw | done].
    + destruct (getAllTopics (tm (sys n))) as [|first others] eqn:Htopics;
        [right; simpl; eauto 6|].
      simpl. split; [done|]. split; [by eexists|]. split; [done|].
      intros decode method s Hn ->. unfold Routes.handleRequest. simpl.
      rewrite Hn. unfold handleSearch. by rewrite Hq, Hm, Ht, Htopics.
    + destruct (head _) as [first|]; [|right; simpl; eauto 6].
      pose proof (Hwritten sq first) as Hw.
      destruct (answered _).1; [exact Hw | done].
Qed.


End Retrieval.

Lemma C7_witness :
  Rest.handleSearch (platform := Posix.posix) Examples.smooth Cases.noQuery
    Examples.serving
  = (Ok (Rest.mkResponse 400 (Rest.ErrorBody "Missing required parameter: q")),
     Examples.serving)
  /\ Rest.handleSearch (platform := Posix.posix) Examples.smooth
       Examples.testQuery Cases.unset
     = (Ok (Rest.mkResponse 503 (Rest.ErrorBody "Topic manager not initialized")),
        Cases.unset)
  /\ Rest.handleSearch (platform := Posix.posix) Examples.smooth
       Cases.archiveQuery Examples.serving
     = (Ok (Rest.mkResponse 404 (Rest.ErrorBody "Topic not found: Archive")),
        Examples.serving)
  /\ Rest.handleSearch (platform := Posix.posix) Examples.smooth
       Examples.testQuery Examples.idle
     = (Ok (Rest.mkResponse 404 (Rest.ErrorBody "No topics available")),
        Examples.idle)
  /\ (exists message,
        Rest.handleSearch (platform := Posix.posix) Examples.switchFails
          Examples.testQuery Examples.serving
        = (Ok (Rest.mkResponse 500 (Rest.ErrorBody message)), Examples.serving)).
Proof.
  destruct (C7_search_error_responses (platform := Posix.posix) Examples.smooth
              Cases.noQuery Examples.serving) as (Hmissing & _).
  destruct (C7_search_error_responses (platform := Posix.posix) Examples.smooth
              Examples.testQuery Cases.unset) as (_ & Hunset & _).
  destruct (C7_search_error_responses (platform := Posix.posix) Examples.smooth
              Cases.archiveQuery Examples.serving) as (_ & _ & Habsent & _).
  destruct (C7_search_error_responses (platform := Posix.posix) Examples.smooth
              Examples.testQuery Examples.idle)
    as (_ & _ & _ & Hnone & _).
  destruct (C7_search_error_responses (platform := Posix.posix)
              Examples.switchFails Examples.testQuery Examples.serving)
    as (_ & _ & _ & _ & Hswitch & _).
  split; [apply Hmissing; reflexivity|].
  split; [apply Hunset; [by eexists | reflexivity]|].
  split; [apply (Habsent "Archive");
          [by eexists | reflexivity | reflexivity | vm_compute; reflexivity]|].
  split; [apply Hnone; [by eexists | reflexivity | reflexivity | reflexivity]|].
  eexists.
  eapply Hswitch; [by eexists | reflexivity | vm_compute; reflexivity
                  | vm_compute; reflexivity | vm_compute; discriminate
                  | reflexivity].
Defined.



(** ** Pause coordinator *)

Section Pausing.
Import Tracker.

Lemma pause_idempotent (t : ProgressTracker) : pause (pause t) = pause t.
Proof. unfold pause. by destruct (_isPaused t) eqn:Hp; simpl; rewrite ?Hp. Qed.

Lemma pause_sets_flag (t : ProgressTracker) :
  isPaused (pause t) = true /\ pauseResolvers (pause t) = pauseResolvers t.
Proof. unfold pause, isPaused. by destruct (_isPaused t) eqn:Hp. Qed.

Lemma waitIfPaused_running (t : ProgressTracker) (topic : string) (c : Resolver) :
  isPaused t = false -> waitIfPaused t topic c = (t, false).
Proof. unfold waitIfPaused, isPaused. by intros ->. Qed.

Lemma waitIfPaused_paused (t : ProgressTracker) (topic : string) (c : Resolver) :
  isPaused t = true ->
  (waitIfPaused t topic c).2 = true
  /\ isPaused (waitIfPaused t topic c).1 = true
  /\ OMap.get topic (pauseResolvers (waitIfPaused t topic c).1)
     = Some (default [] (OMap.get topic (pauseResolvers t)) ++ [c]).
Proof.
  unfold waitIfPaused, isPaused. intros Hp. rewrite Hp. simpl.
  rewrite omap_get_set_eq. by destruct (OMap.get topic (pauseResolvers t)).
Qed.

Lemma resume_drains (t : ProgressTracker) :
  isPaused t = true ->
  isPaused (resume t).1 = false
  /\ pauseResolvers (resume t).1 = []
  /\ forall topic queue c,
       OMap.get topic (pauseResolvers t) = Some queue -> c ∈ queue ->
       c ∈ (resume t).2.
Proof.
  unfold resume, isPaused. intros ->. simpl. repeat split.
  intros topic queue c Hq Hc. apply list_elem_of_In, in_concat. exists queue.
  split; [by eapply omap_get_Some_In | by apply list_elem_of_In].
Qed.

(** While the flag is set, a step other than the resume command starts no
    operation, keeps the flag, and completes at most the file in flight. *)
Lemma step_paused (s : State) (e : Event) :
  isPaused (tracker s) = true -> e <> ResumeCommand ->
  isPaused (tracker (step s e)) = true
  /\ removals (batch (step s e)) = removals (batch s)
  /\ additions (batch (step s e)) = additions (batch s)
  /\ (processedCount (batch (step s e)) + inFlight (batch (step s e))
      <= processedCount (batch s) + inFlight (batch s))%nat.
Proof.
  destruct s as [[p qs] [tp fs pos k rs as']]. unfold isPaused. simpl.
  intros -> He. destruct e; [| done |]; simpl.
  - repeat split; lia.
  - unfold run, waitIfPaused, inFlight. simpl.
    destruct pos as [[] []|?|[] ?|]; simpl; repeat split; lia.
Qed.

Lemma steps_paused (es : list Event) (s : State) :
  isPaused (tracker s) = true -> noResume es ->
  isPaused (tracker (steps s es)) = true
  /\ removals (batch (steps s es)) = removals (batch s)
  /\ additions (batch (steps s es)) = additions (batch s)
  /\ (processedCount (batch (steps s es)) <= processedCount (batch s) + inFlight (batch s))%nat.
Proof.
  intros Hp Hes.
  enough (Hstrong :
    isPaused (tracker (steps s es)) = true
    /\ removals (batch (steps s es)) = removals (batch s)
    /\ additions (batch (steps s es)) = additions (batch s)
    /\ (processedCount (batch (steps s es)) + inFlight (batch (steps s es))
        <= processedCount (batch s) + inFlight (batch s))%nat)
    by (destruct Hstrong as (? & ? & ? & ?); repeat split; try done; lia).
  revert s Hp. induction Hes as [|e es He _ IH]; intros s Hp; simpl.
  - repeat split; [done | lia].
  - destruct (step_paused s e Hp He) as (Hp' & Hr & Ha & Hc).
    destruct (IH _ Hp') as (? & ? & ? & ?).
    repeat split; try congruence. lia.
Qed.

(** A suspended batch stays as it is until the resume command. *)
Lemma steps_suspended (es : list Event) (s : State) (loop : Loop)
    (file : string) (rest : list string) :
  position (batch s) = Suspended loop file rest -> noResume es ->
  batch (steps s es) = batch s.
Proof.
  intros Hpos Hes. revert s Hpos.
  induction Hes as [|e es He _ IH]; intros s Hpos; simpl; [done|].
  assert (Hb : batch (step s e) = batch s).
  { destruct e; [done | done |]. simpl. unfold run. by rewrite Hpos. }
  rewrite IH; [done | by rewrite Hb].
Qed.

Lemma step_inOrder (s : State) (e : Event) :
  inOrder (batch s) -> inOrder (batch (step s e)).
Proof.
  destruct s as [t [tp fs pos k rs as']]. unfold inOrder, pending. simpl.
  intros [Hr Ha]. destruct e; simpl.
  - done.
  - destruct (resume t) as [t' called].
    destruct pos as [? ?|[] ? ?|? ? ?|]; simpl; try done;
      case_bool_decide; simpl; rewrite <- ?app_assoc; done.
  - unfold run. simpl.
    destruct pos as [[] [|f r]|? ? ?|[] ? ?|]; simpl; try done;
      try (destruct (waitIfPaused t tp batchCaller) as [t' []]; simpl;
           rewrite <- ?app_assoc; done).
Qed.

Lemma steps_inOrder (es : list Event) (s : State) :
  inOrder (batch s) -> inOrder (batch (steps s es)).
Proof.
  revert s. induction es as [|e es IH]; intros s Hs; simpl; [done|].
  by apply IH, step_inOrder.
Qed.

Lemma step_existingFiles (s : State) (e : Event) :
  existingFiles (batch (step s e)) = existingFiles (batch s).
Proof.
  destruct s as [t [tp fs pos k rs as']]. destruct e; simpl; [done| |].
  - destruct (resume t) as [t' called].
    destruct pos as [|[]| |]; simpl; try done; by case_bool_decide.
  - unfold run. simpl.
    destruct pos as [[] [|f r]|? ? ?|[] ? ?|]; simpl; try done;
      by destruct (waitIfPaused t tp batchCaller) as [t' []].
Qed.

Lemma steps_existingFiles (es : list Event) (s : State) :
  existingFiles (batch (steps s es)) = existingFiles (batch s).
Proof.
  revert s. induction es as [|e es IH]; intros s; simpl; [done|].
  by rewrite IH, step_existingFiles.
Qed.

Lemma prefix_NoDup (l pre post : list string) :
  pre ++ post = l -> NoDup l -> NoDup pre.
Proof. intros <- Hnd. by apply NoDup_app in Hnd as [? _]. Qed.

End Pausing.

(** C9, as the code has it.  [pause] sets the one flag and is idempotent;
    [waitIfPaused] returns at once while the flag is clear and otherwise
    leaves the caller pending on the queue of its topic; [resume] clears
    the flag, empties every queue and calls every queued resolver.  From
    the pause command until a resume, the batch hands no further file to
    [removeDocumentByFilePath] or [addDocuments] and its count of processed
    files rises by at most the one file that was in flight; once the batch
    is suspended at its checkpoint it does not move at all.  Throughout,
    each loop has handed over a prefix of the batch, so that no file of a
    duplicate-free batch is removed or added twice. *)
Theorem C9_cooperative_pause :
  (forall t, Tracker.pause (Tracker.pause t) = Tracker.pause t
             /\ Tracker.isPaused (Tracker.pause t) = true)
  /\ (forall t topic c,
        Tracker.isPaused t = false ->
        Tracker.waitIfPaused t topic c = (t, false))
  /\ (forall t topic c,
        Tracker.isPaused t = true ->
        (Tracker.waitIfPaused t topic c).2 = true
        /\ OMap.get topic (Tracker.pauseResolvers (Tracker.waitIfPaused t topic c).1)
           = Some (default [] (OMap.get topic (Tracker.pauseResolvers t)) ++ [c]))
  /\ (forall t,
        Tracker.isPaused t = true ->
        Tracker.isPaused (Tracker.resume t).1 = false
        /\ Tracker.pauseResolvers (Tracker.resume t).1 = []
        /\ forall topic queue c,
             OMap.get topic (Tracker.pauseResolvers t) = Some queue ->
             c ∈ queue -> c ∈ (Tracker.resume t).2)
  /\ (forall s es,
        Tracker.isPaused (Tracker.tracker s) = true -> Tracker.noResume es ->
        Tracker.removals (Tracker.batch (Tracker.steps s es))
        = Tracker.removals (Tracker.batch s)
        /\ Tracker.additions (Tracker.batch (Tracker.steps s es))
           = Tracker.additions (Tracker.batch s)
        /\ (Tracker.processedCount (Tracker.batch (Tracker.steps s es))
            <= Tracker.processedCount (Tracker.batch s)
               + Tracker.inFlight (Tracker.batch s))%nat)
  /\ (forall s es loop file rest,
        Tracker.position (Tracker.batch s) = Tracker.Suspended loop file rest ->
        Tracker.noResume es ->
        Tracker.batch (Tracker.steps s es) = Tracker.batch s)
  /\ (forall t topic files es,
        NoDup files ->
        Tracker.removals
          (Tracker.batch (Tracker.steps (Tracker.mkState t (Tracker.start topic files)) es))
          `prefix_of` files
        /\ Tracker.additions
             (Tracker.batch (Tracker.steps (Tracker.mkState t (Tracker.start topic files)) es))
             `prefix_of` files
        /\ NoDup (Tracker.removals
                    (Tracker.batch (Tracker.steps (Tracker.mkState t (Tracker.start topic files)) es)))
        /\ NoDup (Tracker.additions
                    (Tracker.batch (Tracker.steps (Tracker.mkState t (Tracker.start topic files)) es)))).
Proof.
  split; [|split; [|split; [|split; [|split; [|split]]]]].
  - intros t. split; [apply pause_idempotent | apply pause_sets_flag].
  - apply waitIfPaused_running.
  - intros t topic c Hp.
    destruct (waitIfPaused_paused t topic c Hp) as (? & _ & ?). by split.
  - apply resume_drains.
  - intros s es Hp Hes.
    destruct (steps_paused es s Hp Hes) as (_ & ? & ? & ?). by repeat split.
  - intros s es loop file rest. apply steps_suspended.
  - intros t topic files es Hnd.
    assert (Hin : Tracker.inOrder
                    (Tracker.batch
                       (Tracker.steps (Tracker.mkState t (Tracker.start topic files)) es))).
    { apply steps_inOrder. split; simpl; done. }
    destruct Hin as [Hr Ha]. rewrite steps_existingFiles in Hr, Ha.
    simpl in Hr, Ha. repeat split.
    + eexists. by rewrite Hr.
    + eexists. by rewrite Ha.
    + by eapply prefix_NoDup.
    + by eapply prefix_NoDup.
Qed.

Lemma C9_witness :
  let s :=
    Tracker.steps
      (Tracker.mkState Tracker.initial (Tracker.start "topic" ["/w/a.md"; "/w/b.md"]))
      [Tracker.RunBatch; Tracker.RunBatch; Tracker.RunBatch; Tracker.RunBatch;
       Tracker.RunBatch; Tracker.RunBatch; Tracker.PauseCommand] in
  let es := [Tracker.RunBatch; Tracker.RunBatch; Tracker.PauseCommand; Tracker.RunBatch] in
  Tracker.additions (Tracker.batch (Tracker.steps s es)) = ["/w/a.md"]
  /\ (Tracker.processedCount (Tracker.batch (Tracker.steps s es)) <= 1)%nat.
Proof.
  intros s es.
  destruct C9_cooperative_pause as (_ & _ & _ & _ & Hpaused & _).
  destruct (Hpaused s es) as (_ & Hadd & Hcount).
  - reflexivity.
  - unfold es, Tracker.noResume. by repeat constructor.
  - split; [exact Hadd | exact Hcount].
Defined.

(** The count of processed files does move after a pause command and
    before any resume: the file in flight completes. *)
Lemma C9_in_flight_file_completes : ~ Tracker.pauseFreezesProgress.
Proof.
  intros Hfreeze.
  specialize (Hfreeze ["/w/a.md"]
                [Tracker.RunBatch; Tracker.RunBatch; Tracker.RunBatch; Tracker.RunBatch]
                [Tracker.RunBatch]).
  assert (Hno : Tracker.noResume [Tracker.RunBatch]) by (by repeat constructor).
  specialize (Hfreeze Hno). vm_compute in Hfreeze. discriminate.
Qed.

(** ** Folder usage through the manager *)

Section FolderUsage.
Import Registry.
Context {platform : Platform}.

(** The sums over the visited folders hold for every topic after
    [updateFolderChunkStats] and after [removeFolderChunkStats], provided
    they held before. *)
Lemma updateFolderChunkStats_visited (env : Env) (topicId filePath : string)
    (count : Z) (s : Sys) :
  (forall t st, folderChunkStats (tm s) !! t = Some st ->
     FolderTree.statsConsistent FolderTree.visitedFoldersSummed st = true) ->
  forall t st,
    folderChunkStats (tm (updateFolderChunkStats env topicId filePath count s).2) !! t
    = Some st ->
    FolderTree.statsConsistent FolderTree.visitedFoldersSummed st = true.
Proof.
  intros Hall t st. unfold updateFolderChunkStats, onTm. mrun.
  destruct (decide (t = topicId)) as [->|Hne].
  - rewrite lookup_insert_eq. intros [= <-].
    apply updateStats_consistent.
    destruct (folderChunkStats (tm s) !! topicId) eqn:Hs; [by eapply Hall|].
    reflexivity.
  - rewrite lookup_insert_ne by done. apply Hall.
Qed.

Lemma removeFolderChunkStats_visited (env : Env) (topicId filePath : string)
    (s : Sys) :
  (forall t st, folderChunkStats (tm s) !! t = Some st ->
     FolderTree.statsConsistent FolderTree.visitedFoldersSummed st = true) ->
  forall t st,
    folderChunkStats (tm (removeFolderChunkStats env topicId filePath s).2) !! t
    = Some st ->
    FolderTree.statsConsistent FolderTree.visitedFoldersSummed st = true.
Proof.
  intros Hall t st. unfold removeFolderChunkStats, onTm. mrun.
  destruct (folderChunkStats (tm s) !! topicId) eqn:Hs; [|apply Hall].
  simpl. destruct (decide (t = topicId)) as [->|Hne].
  - rewrite lookup_insert_eq. intros [= <-].
    apply removeStats_consistent. by eapply Hall.
  - rewrite lookup_insert_ne by done. apply Hall.
Qed.

End FolderUsage.

(** C1, at the input where the code departs from the claim.  [/w/draft] is
    indexed as a file with ten chunks; later [/w/draft/ch1/intro.md] is
    indexed with ten chunks.  The node [draft] is a file node, so
    [calculateNodeTotal] returns its count without descending: the folder
    node [ch1] below it keeps the count 0 it was created with, while its
    only child carries 10.  The sums do hold on every folder that has no
    file node above it. *)
Theorem C1_folder_below_file_keeps_stale_total :
  exists stats root folder,
    Registry.getFolderChunkStats (Registry.tm Examples.chapterIndexed)
      Examples.docsId = Some stats
    /\ OMap.get "/w" (FolderTree.roots stats) = Some root
    /\ FolderTree.nodeAt ["draft"; "ch1"] root = Some folder
    /\ FolderTree.isFile folder = false
    /\ FolderTree.chunkCount folder = 0
    /\ FolderTree.sumChunkCounts (FolderTree.children folder) = 10
    /\ FolderTree.statsConsistent FolderTree.everyFolderSummed stats = false
    /\ FolderTree.statsConsistent FolderTree.visitedFoldersSummed stats = true.
Proof.
  eexists _, _, _.
  split; [vm_compute; reflexivity|].
  split; [vm_compute; reflexivity|].
  split; [vm_compute; reflexivity|].
  repeat split; vm_compute; reflexivity.
Qed.

(** ** Plain objects *)

Section JsObjectFacts.
Context {V : Type}.
Implicit Types (o : list (string * V)) (k : string) (v : V).

Lemma omap_has_false k o : OMap.has k o = false <-> k ∉ OMap.keys o.
Proof.
  unfold OMap.has. induction o as [|[k' v'] r IH]; simpl.
  - split; [intros _; apply not_elem_of_nil | done].
  - rewrite not_elem_of_cons. destruct (decide (k = k')) as [->|Hne].
    + split; [done | by intros [? _]].
    + rewrite IH. split; [by intros ? | by intros [_ ?]].
Qed.

Lemma omap_get_None k o : OMap.get k o = None <-> k ∉ OMap.keys o.
Proof.
  rewrite <- omap_has_false. unfold OMap.has.
  destruct (OMap.get k o); split; done.
Qed.

Lemma omap_keys_set k v o :
  OMap.keys (OMap.set k v o)
  = if OMap.has k o then OMap.keys o else OMap.keys o ++ [k].
Proof.
  unfold OMap.has. induction o as [|[k' v'] r IH]; simpl; [done|].
  destruct (decide (k = k')) as [->|Hne]; simpl; [done|].
  rewrite IH. by destruct (OMap.get k r).
Qed.

Lemma insertIndex_keys i k v o :
  OMap.keys (JsObject.insertIndex i k v o) ≡ₚ k :: OMap.keys o.
Proof.
  induction o as [|[k' v'] r IH]; simpl; [done|].
  destruct (JsObject.arrayIndex k'); [|done].
  destruct (_ <? _)%N; simpl; [|done].
  rewrite IH. apply Permutation_swap.
Qed.

Lemma insertIndex_get i k v o k' :
  k ∉ OMap.keys o ->
  OMap.get k' (JsObject.insertIndex i k v o)
  = if decide (k' = k) then Some v else OMap.get k' o.
Proof.
  induction o as [|[k0 v0] r IH]; simpl; intros Hk; [done|].
  apply not_elem_of_cons in Hk as [Hne Hk].
  destruct (JsObject.arrayIndex k0); [destruct (_ <? _)%N|]; simpl;
    try (destruct (decide (k' = k)); done).
  rewrite IH by done.
  destruct (decide (k' = k0)) as [->|]; [by rewrite decide_False | done].
Qed.

Lemma assign_keys k v o :
  OMap.keys (JsObject.assign k v o)
  ≡ₚ if bool_decide (k = "__proto__") || OMap.has k o
     then OMap.keys o else k :: OMap.keys o.
Proof.
  unfold JsObject.assign. destruct (bool_decide (k = "__proto__")); [done|].
  simpl. destruct (OMap.has k o) eqn:Hhas; [by rewrite omap_keys_set, Hhas|].
  destruct (JsObject.arrayIndex k).
  - apply insertIndex_keys.
  - unfold OMap.keys. rewrite fmap_app. simpl. by rewrite Permutation_app_comm.
Qed.

Lemma assign_NoDup k v o :
  NoDup (OMap.keys o) -> NoDup (OMap.keys (JsObject.assign k v o)).
Proof.
  intros Hnd. rewrite assign_keys.
  destruct (bool_decide _); simpl; [done|].
  destruct (OMap.has k o) eqn:Hhas; [done|].
  apply NoDup_cons. split; [by apply omap_has_false | done].
Qed.

Lemma assign_get_eq k v o :
  k <> "__proto__" -> OMap.get k (JsObject.assign k v o) = Some v.
Proof.
  intros Hk. unfold JsObject.assign. rewrite bool_decide_eq_false_2 by done.
  destruct (OMap.has k o) eqn:Hhas; [apply omap_get_set_eq|].
  apply omap_has_false in Hhas as Hnot.
  destruct (JsObject.arrayIndex k).
  - rewrite insertIndex_get by done. by rewrite decide_True.
  - rewrite <- (omap_set_fresh k v o) by done. apply omap_get_set_eq.
Qed.

Lemma assign_get_ne k v o k' :
  k <> k' -> OMap.get k' (JsObject.assign k v o) = OMap.get k' o.
Proof.
  intros Hne. unfold JsObject.assign. destruct (bool_decide _); [done|].
  destruct (OMap.has k o) eqn:Hhas; [by apply omap_get_set_ne|].
  apply omap_has_false in Hhas as Hnot.
  destruct (JsObject.arrayIndex k).
  - rewrite insertIndex_get by done. by rewrite decide_False.
  - rewrite <- (omap_set_fresh k v o) by done. by apply omap_get_set_ne.
Qed.

Lemma assign_plain k v o :
  k <> "__proto__" -> JsObject.arrayIndex k = None -> k ∉ OMap.keys o ->
  JsObject.assign k v o = o ++ [(k, v)].
Proof.
  intros Hk Hidx Hnot. unfold JsObject.assign.
  rewrite bool_decide_eq_false_2 by done.
  apply omap_has_false in Hnot. by rewrite Hnot, Hidx.
Qed.

End JsObjectFacts.

(** ** Folder statistics on disk *)

Section StatsFileFacts.
Import FolderTree FolderStatsFile.

Lemma serializeNode_eq nm p f c ch :
  serializeNode (mkNode nm p f c ch)
  = mkSerialized nm p f c (serializeEntries ch []).
Proof.
  reflexivity.
Qed.

Lemma deserializeNode_eq nm p f c ch :
  deserializeNode (mkSerialized nm p f c ch)
  = mkNode nm p f c (deserializeEntries ch []).
Proof.
  reflexivity.
Qed.

Lemma everyLevel_eq check nm p f c ch :
  everyLevel check (mkNode nm p f c ch)
  = check (OMap.keys ch) && forallb (fun kv => everyLevel check (snd kv)) ch.
Proof.
  simpl. f_equal. induction ch as [|[k x] r IH]; simpl; [done | by rewrite IH].
Qed.

Lemma storableKeys_cons {V : Type} k (v : V) l :
  storableKeys (OMap.keys ((k, v) :: l)) = true ->
  k <> "__proto__" /\ (k ∉ OMap.keys l) /\ storableKeys (OMap.keys l) = true.
Proof.
  unfold storableKeys. intros [Hnd Hp]%andb_prop.
  apply bool_decide_eq_true in Hnd, Hp.
  apply NoDup_cons in Hnd as [Hk Hnd]. apply not_elem_of_cons in Hp as [Hne Hp].
  repeat split; [done | done |].
  by rewrite !bool_decide_eq_true_2.
Qed.

(** What the object holds under a key once the entries of a map have been
    assigned to it. *)
Lemma serializeEntries_get k l obj :
  storableKeys (OMap.keys l) = true ->
  OMap.get k (serializeEntries l obj)
  = match OMap.get k l with
    | Some child => Some (serializeNode child)
    | None => OMap.get k obj
    end.
Proof.
  revert obj. induction l as [|[k0 c0] r IH]; intros obj Hs; simpl; [done|].
  apply storableKeys_cons in Hs as (Hp & Hk0 & Hs). rewrite IH by done.
  destruct (decide (k = k0)) as [->|Hne].
  - apply omap_get_None in Hk0. rewrite Hk0. by apply assign_get_eq.
  - destruct (OMap.get k r); [done|]. by apply assign_get_ne.
Qed.

Lemma serializeEntries_NoDup l obj :
  NoDup (OMap.keys obj) -> NoDup (OMap.keys (serializeEntries l obj)).
Proof.
  revert obj. induction l as [|[k0 c0] r IH]; intros obj Hnd; simpl; [done|].
  by apply IH, assign_NoDup.
Qed.

Lemma serializeEntries_length l obj :
  storableKeys (OMap.keys l) = true ->
  (forall k, k ∈ OMap.keys l -> k ∉ OMap.keys obj) ->
  length (serializeEntries l obj) = (length obj + length l)%nat.
Proof.
  revert obj. induction l as [|[k0 c0] r IH]; intros obj Hs Hdisj; simpl; [lia|].
  apply storableKeys_cons in Hs as (Hp & Hk0 & Hs).
  assert (Hfresh : k0 ∉ OMap.keys obj) by (apply Hdisj; simpl; left).
  rewrite IH; [|done|].
  - assert (Hlen : length (OMap.keys (JsObject.assign k0 (serializeNode c0) obj))
                   = S (length (OMap.keys obj))).
    { rewrite assign_keys. rewrite bool_decide_eq_false_2 by done.
      apply omap_has_false in Hfresh. by rewrite Hfresh. }
    unfold OMap.keys in Hlen. rewrite !length_fmap in Hlen. lia.
  - intros k Hk. rewrite assign_keys. rewrite bool_decide_eq_false_2 by done.
    apply omap_has_false in Hfresh as Hhas. rewrite Hhas. simpl.
    apply not_elem_of_cons. split; [intros ->; done|].
    apply Hdisj. simpl. by right.
Qed.

Lemma deserializeEntries_get k l map :
  NoDup (OMap.keys l) ->
  OMap.get k (deserializeEntries l map)
  = match OMap.get k l with
    | Some child => Some (deserializeNode child)
    | None => OMap.get k map
    end.
Proof.
  revert map. induction l as [|[k0 c0] r IH]; intros map Hnd; simpl; [done|].
  simpl in Hnd. apply NoDup_cons in Hnd as [Hk0 Hnd]. rewrite IH by done.
  destruct (decide (k = k0)) as [->|Hne].
  - apply omap_get_None in Hk0. rewrite Hk0. apply omap_get_set_eq.
  - destruct (OMap.get k r); [done|]. by apply omap_get_set_ne.
Qed.

Lemma deserializeEntries_fresh l map :
  NoDup (OMap.keys map ++ OMap.keys l) ->
  deserializeEntries l map
  = map ++ List.map (fun kv => (fst kv, deserializeNode (snd kv))) l.
Proof.
  revert map. induction l as [|[k0 c0] r IH]; intros map Hnd; simpl.
  - by rewrite app_nil_r.
  - pose proof Hnd as Hall. apply NoDup_app in Hnd as (_ & Hdisj & _).
    rewrite omap_set_fresh by (intros Hin; apply (Hdisj _ Hin); by left).
    rewrite IH.
    + by rewrite <- app_assoc.
    + unfold OMap.keys in *. rewrite fmap_app. simpl. by rewrite <- app_assoc.
Qed.

Lemma serializeEntries_plain l obj :
  storableKeys (OMap.keys l) = true ->
  plainKeys (OMap.keys l) = true ->
  (forall k, k ∈ OMap.keys l -> k ∉ OMap.keys obj) ->
  serializeEntries l obj
  = obj ++ List.map (fun kv => (fst kv, serializeNode (snd kv))) l.
Proof.
  revert obj. induction l as [|[k0 c0] r IH]; intros obj Hs Hpl Hdisj; simpl.
  - by rewrite app_nil_r.
  - apply storableKeys_cons in Hs as (Hp & Hk0 & Hs).
    simpl in Hpl. apply andb_prop in Hpl as [Hidx Hpl].
    apply bool_decide_eq_true in Hidx.
    assert (Hfresh : k0 ∉ OMap.keys obj) by (apply Hdisj; simpl; left).
    rewrite assign_plain by done. rewrite IH; [by rewrite <- app_assoc | done..|].
    intros k Hk. unfold OMap.keys. rewrite fmap_app. simpl.
    intros [Hin|Hin]%elem_of_app.
    + revert Hin. apply Hdisj. simpl. by right.
    + apply list_elem_of_singleton in Hin as ->. done.
Qed.

Lemma omap_get_Some_elem {V : Type} (k : string) (v : V) (m : list (string * V)) :
  OMap.get k m = Some v -> (k, v) ∈ m.
Proof.
  induction m as [|[k' v'] r IH]; simpl; [done|].
  destruct (decide (k = k')) as [->|].
  - intros [= ->]. apply list_elem_of_here.
  - intros H. apply list_elem_of_further, IH, H.
Qed.

Lemma keys_fmap_snd {A B : Type} (f : A -> B) (l : list (string * A)) :
  OMap.keys (List.map (fun kv => (fst kv, f (snd kv))) l) = OMap.keys l.
Proof.
  unfold OMap.keys. induction l as [|[k x] r IH]; simpl; [done | by f_equal].
Qed.

Lemma storableKeys_NoDup l : storableKeys l = true -> NoDup l.
Proof. by intros [Hnd%bool_decide_eq_true _]%andb_prop. Qed.

Lemma orElse_zero (x : Z) : orElse (Some x) 0 = x.
Proof. unfold orElse. by case_bool_decide. Qed.

(** The node read back has the fields of the node written, and so has
    every node below it, under the same keys. *)
Lemma deserialize_serialize_nodeAt (n : FolderChunkNode) :
  everyLevel storableKeys n = true ->
  forall keys,
    summary <$> nodeAt keys (deserializeNode (serializeNode n))
    = summary <$> nodeAt keys n.
Proof.
  induction n as [nm p f c ch IH] using node_ind'. intros Hs keys.
  rewrite everyLevel_eq in Hs. apply andb_prop in Hs as [Hks Hch].
  rewrite serializeNode_eq, deserializeNode_eq.
  assert (Hnd : NoDup (OMap.keys (serializeEntries ch []))).
  { apply serializeEntries_NoDup. simpl. constructor. }
  destruct keys as [|k rest]; simpl.
  - unfold summary. simpl. do 2 f_equal.
    rewrite deserializeEntries_fresh by done. simpl.
    rewrite length_map, serializeEntries_length; [done | done |].
    intros ? _. simpl. apply not_elem_of_nil.
  - rewrite deserializeEntries_get, serializeEntries_get by done. simpl.
    destruct (OMap.get k ch) as [child|] eqn:Hc; [|done].
    apply omap_get_Some_elem in Hc.
    rewrite Forall_forall in IH. apply (IH _ Hc).
    rewrite forallb_forall in Hch. apply (Hch (k, child)).
    by apply list_elem_of_In.
Qed.

(** Without array indices among the keys, the node read back is the node
    written. *)
Lemma deserialize_serialize_node (n : FolderChunkNode) :
  everyLevel storableKeys n = true ->
  everyLevel plainKeys n = true ->
  deserializeNode (serializeNode n) = n.
Proof.
  induction n as [nm p f c ch IH] using node_ind'. intros Hs Hp.
  rewrite everyLevel_eq in Hs, Hp.
  apply andb_prop in Hs as [Hks Hch]. apply andb_prop in Hp as [Hkp Hcp].
  rewrite serializeNode_eq, deserializeNode_eq. f_equal.
  rewrite serializeEntries_plain; [|done..|intros ? _; apply not_elem_of_nil].
  simpl. rewrite deserializeEntries_fresh.
  - simpl. rewrite forallb_forall in Hch, Hcp. rewrite Forall_forall in IH.
    clear Hks Hkp. induction ch as [|[k x] r IHr]; simpl; [done|].
    f_equal.
    + f_equal. apply (IH (k, x)); [apply list_elem_of_here | |].
      * apply (Hch (k, x)). by left.
      * apply (Hcp (k, x)). by left.
    + apply IHr.
      * intros kv Hin. apply IH. by apply list_elem_of_further.
      * intros kv Hin. apply Hch. by right.
      * intros kv Hin. apply Hcp. by right.
  - simpl. rewrite keys_fmap_snd. by apply storableKeys_NoDup.
Qed.

(** X1.  Folder statistics written by [serializeFolderChunkStats] and read
    back by [deserializeFolderChunkStats] are the statistics written,
    provided no key in the tree is [__proto__] or an array index (keys of a
    map are distinct) and the time stamp written is not [0]. *)
Theorem X1_folder_stats_round_trip (stats : FolderChunkStats) (now : Z) :
  everyLevelOfStats storableKeys stats = true ->
  everyLevelOfStats plainKeys stats = true ->
  FolderTree.lastUpdated stats <> 0 ->
  deserializeFolderChunkStats now (serializeFolderChunkStats stats) = stats.
Proof.
  destruct stats as [rts total updated]. unfold everyLevelOfStats. simpl.
  intros [Hks Hch]%andb_prop [Hkp Hcp]%andb_prop Hupdated.
  unfold deserializeFolderChunkStats, serializeFolderChunkStats,
    JsObject.entries.
  cbn [s_roots s_totalChunks s_lastUpdated FolderTree.roots
       FolderTree.totalChunks FolderTree.lastUpdated].
  rewrite orElse_zero. unfold orElse. rewrite bool_decide_eq_false_2 by done.
  f_equal.
  rewrite serializeEntries_plain; [|done..|intros ? _; apply not_elem_of_nil].
  simpl. rewrite deserializeEntries_fresh.
  - simpl. rewrite forallb_forall in Hch, Hcp.
    clear Hks Hkp. induction rts as [|[k x] r IHr]; simpl; [done|].
    f_equal.
    + f_equal. apply deserialize_serialize_node.
      * apply (Hch (k, x)). by left.
      * apply (Hcp (k, x)). by left.
    + apply IHr.
      * intros kv Hin. apply Hch. by right.
      * intros kv Hin. apply Hcp. by right.
  - simpl. rewrite keys_fmap_snd. by apply storableKeys_NoDup.
Qed.

Lemma X1_witness :
  FolderStatsFile.deserializeFolderChunkStats 5
    (FolderStatsFile.serializeFolderChunkStats Cases.guideStats)
  = Cases.guideStats.
Proof.
  apply (X1_folder_stats_round_trip Cases.guideStats 5).
  - vm_compute. reflexivity.
  - vm_compute. reflexivity.
  - vm_compute. lia.
Defined.

(** X2.  Whatever the keys (array indices included, which an object
    enumerates first), the statistics read back hold the same total, the
    same number of roots and, under every root key and every path of child
    keys, a node with the same name, path, file flag, chunk count and
    number of children as the statistics written. *)
Theorem X2_folder_stats_survive_reordering (stats : FolderChunkStats) (now : Z) :
  everyLevelOfStats storableKeys stats = true ->
  FolderTree.totalChunks
    (deserializeFolderChunkStats now (serializeFolderChunkStats stats))
  = FolderTree.totalChunks stats
  /\ length (FolderTree.roots
               (deserializeFolderChunkStats now (serializeFolderChunkStats stats)))
     = length (FolderTree.roots stats)
  /\ forall rootKey keys,
       summary <$> nodeUnder
                     (deserializeFolderChunkStats now
                        (serializeFolderChunkStats stats)) rootKey keys
       = summary <$> nodeUnder stats rootKey keys.
Proof.
  destruct stats as [rts total updated]. unfold everyLevelOfStats. simpl.
  intros [Hks Hch]%andb_prop.
  assert (Hnd : NoDup (OMap.keys (serializeEntries rts []))).
  { apply serializeEntries_NoDup. simpl. constructor. }
  unfold deserializeFolderChunkStats, serializeFolderChunkStats, nodeUnder,
    JsObject.entries.
  cbn [s_roots s_totalChunks s_lastUpdated FolderTree.roots
       FolderTree.totalChunks FolderTree.lastUpdated].
  split; [apply orElse_zero|]. split.
  - rewrite deserializeEntries_fresh by done. simpl.
    rewrite length_map, serializeEntries_length; [done | done |].
    intros ? _. apply not_elem_of_nil.
  - intros rootKey keys.
    rewrite deserializeEntries_get, serializeEntries_get by done. simpl.
    destruct (OMap.get rootKey rts) as [root|] eqn:Hr; [|done].
    apply deserialize_serialize_nodeAt.
    rewrite forallb_forall in Hch. apply (Hch (rootKey, root)).
    by apply list_elem_of_In, omap_get_Some_elem.
Qed.

Lemma X2_witness :
  FolderTree.roots
    (FolderStatsFile.deserializeFolderChunkStats 5
       (FolderStatsFile.serializeFolderChunkStats Cases.datedStats))
  <> FolderTree.roots Cases.datedStats
  /\ forall rootKey keys,
       summary <$> nodeUnder
                     (deserializeFolderChunkStats 5
                        (serializeFolderChunkStats Cases.datedStats))
                     rootKey keys
       = summary <$> nodeUnder Cases.datedStats rootKey keys.
Proof.
  split.
  - vm_compute. discriminate.
  - apply (X2_folder_stats_survive_reordering Cases.datedStats 5).
    vm_compute. reflexivity.
Defined.

End StatsFileFacts.

(** ** Shutdown *)

Section LifecycleFacts.
Import Registry Lifecycle.
Context {platform : Platform}.

(** X3.  After [dispose], every mutating call and [getVectorStore] throw
    "TopicManager not initialized" and change nothing, while the reads
    still list the topics of the common registry, which [dispose] leaves
    loaded. *)
Theorem X3_disposed_manager_rejects_every_call (env : Env) (c : Command)
    (i : Instance) :
  run env c (sys (dispose i)) = (Throw notInitialized, sys (dispose i))
  /\ isInitialized (dispose i) = false
  /\ getAllTopics (tm (sys (dispose i)))
     = match commonTopicsIndex (tm (sys i)) with
       | Some cidx => map (withSource common) (OMap.values (topics cidx))
       | None => []
       end.
Proof.
  repeat split.
  destruct c; simpl; unfold createTopic, updateTopic, deleteTopic,
    deleteTopicVectorStore, addDocuments, addDocumentsFrom,
    removeDocumentByFilePath, exportTopic, importTopic, getVectorStore;
    mrun; reflexivity.
Qed.

(** ** Reload *)

Lemma omap_get_is_Some {V : Type} (k : string) (m : list (string * V)) :
  is_Some (OMap.get k m) <-> k ∈ OMap.keys m.
Proof.
  destruct (OMap.get k m) as [v|] eqn:Hg.
  - split; [intros _ | by eexists].
    destruct (decide (k ∈ OMap.keys m)) as [|Hn]; [done|].
    apply omap_get_None in Hn. congruence.
  - apply omap_get_None in Hg. split; [by intros [? [=]] | done].
Qed.

(** The loop of [loadAllTopicDocuments] over the topic identifiers [l]:
    it gives every topic of [l] the document map of its file, and touches
    nothing else but the folder statistics. *)
Lemma loadAllTopicDocuments_loop (env : Env) (l : list string) (i : Instance) :
  exists i',
    forEach l (fun topicId =>
                 onSys (loadTopicDocuments topicId) ;;
                 loadFolderChunkStats env topicId) i = (Ok tt, i')
    /\ world (sys i') = world (sys i)
    /\ isInitialized i' = isInitialized i
    /\ folderStatsFiles i' = folderStatsFiles i
    /\ tm (sys i')
       = setFolderChunkStats (folderChunkStats (tm (sys i')))
           (setTopicDocuments (topicDocuments (tm (sys i'))) (tm (sys i)))
    /\ forall topicId,
         topicDocuments (tm (sys i')) !! topicId
         = if decide (topicId ∈ l)
           then Some (documentsOnDisk (world (sys i)) topicId)
           else topicDocuments (tm (sys i)) !! topicId.
Proof.
  revert i. induction l as [|x rest IH]; intros [[m w] b files isNull].
  - eexists. split; [reflexivity|]. simpl. repeat split. by destruct m.
  - simpl. unfold loadTopicDocuments, loadFolderChunkStats, onSys, onTm.
    mrun.
    set (m1 := setTopicDocuments _ m).
    destruct (IH (mkInstance
                    (mkSys
                       (match files !! x with
                        | Some serialized =>
                            setFolderChunkStats
                              (<[x := FolderStatsFile.deserializeFolderChunkStats
                                        (now env) serialized]>
                                 (folderChunkStats m1)) m1
                        | None => m1
                        end) w) b files isNull))
      as (i' & Hrun & Hw & Hb & Hf & Htm & Hdocs).
    exists i'. split.
    { destruct (files !! x); mrun; exact Hrun. }
    simpl in *. repeat split; try done.
    + rewrite Htm. subst m1. destruct m. by destruct (files !! x).
    + intros topicId. rewrite Hdocs. subst m1.
      destruct (decide (topicId ∈ rest)) as [Hin|Hnin].
      * by rewrite decide_True by (by right).
      * destruct (decide (topicId = x)) as [->|Hne].
        -- rewrite decide_True by (by left).
           destruct (files !! x); simpl; by rewrite lookup_insert_eq.
        -- rewrite decide_False by (by intros [?|?]%elem_of_cons).
           destruct (files !! x); simpl; by rewrite lookup_insert_ne.
Qed.

(** X4.  When memory and disk agree, [refresh] succeeds and changes
    nothing but the folder statistics: the index, every document map and
    the files are as before. *)
Theorem X4_refresh_restores_what_was_saved (env : Env) (i : Instance) :
  persisted (sys i) ->
  exists i',
    refresh env i = (Ok tt, i')
    /\ world (sys i') = world (sys i)
    /\ isInitialized i' = isInitialized i
    /\ folderStatsFiles i' = folderStatsFiles i
    /\ tm (sys i')
       = setFolderChunkStats (folderChunkStats (tm (sys i'))) (tm (sys i)).
Proof.
  destruct i as [[m w] b files isNull]. simpl. intros ([idx Hidx] & Hfile & Hdocs).
  simpl in *. unfold refresh, loadTopicsIndex, loadAllTopicDocuments, onSys, onTm.
  mrun. rewrite Hfile, Hidx. mrun.
  destruct (loadAllTopicDocuments_loop env (OMap.keys (topics idx))
              (mkInstance (mkSys (setTopicsIndex (Some idx) m) w) b files isNull))
    as (i' & Hrun & Hw & Hb & Hf & Htm & Hloaded).
  exists i'. split; [exact Hrun|]. simpl in *. repeat split; try done.
  rewrite Htm. assert (Hsame : topicDocuments (tm (sys i')) = topicDocuments m).
  { apply map_eq. intros topicId. rewrite Hloaded.
    destruct (decide (topicId ∈ OMap.keys (topics idx))) as [Hin|]; [|done].
    symmetry. apply Hdocs. unfold localTopic. rewrite Hidx.
    by apply omap_get_is_Some. }
  rewrite Hsame. destruct m; simpl in *. by subst.
Qed.

(** A reload that returns leaves the index in memory equal to the one on
    disk, and every local topic with the document map of its file, unless
    the file holds [null]. *)
Lemma loadTopicsIndex_persisted (env : Env) (i i' : Instance) :
  holdsNull i = false ->
  loadTopicsIndex env i = (Ok tt, i') -> persisted (sys i').
Proof.
  destruct i as [[m w] b files isNull]. unfold holdsNull. simpl.
  unfold loadTopicsIndex, loadAllTopicDocuments, onSys, onTm,
    saveTopicsIndex, onWorld.
  mrun. destruct (indexFile w) as [idx|] eqn:Hfile; [intros _ | intros ->]; mrun.
  - destruct (loadAllTopicDocuments_loop env (OMap.keys (topics idx))
                (mkInstance (mkSys (setTopicsIndex (Some idx) m) w) b files isNull))
      as (i1 & Hrun & Hw & Hb & Hf & Htm & Hloaded).
    intros Hres. pose proof (eq_trans (eq_sym Hres) Hrun) as [= ->].
    simpl in *. unfold persisted.
    rewrite Htm, Hw. simpl. split; [by eexists|]. split; [done|].
    intros topicId Hlocal. rewrite Hloaded. unfold localTopic in Hlocal.
    rewrite Htm in Hlocal. simpl in Hlocal.
    by rewrite decide_True by (by apply omap_get_is_Some).
  - destruct (failSaveIndex env); mrun; [done|]. intros [= <-]. simpl.
    unfold persisted. simpl. split; [by eexists|]. split; [done|].
    unfold localTopic. simpl. by intros topicId [? [=]].
Qed.

(** A reload from a file that holds [null] returns with the index unset
    and nothing else changed. *)
Lemma loadTopicsIndex_null (env : Env) (i : Instance) :
  holdsNull i = true ->
  loadTopicsIndex env i
  = (Ok tt,
     mkInstance (mkSys (setTopicsIndex None (tm (sys i))) (world (sys i)))
       (isInitialized i) (folderStatsFiles i) (indexFileNull i)).
Proof.
  destruct i as [[m w] b files isNull]. unfold holdsNull. simpl.
  unfold loadTopicsIndex, loadAllTopicDocuments, onSys, onTm.
  mrun. destruct (indexFile w) as [idx|]; [done|]. intros ->. by mrun.
Qed.

(** X6.  A [refresh] that returns leaves memory and disk in agreement,
    whatever the state before: the index in memory is the one in
    [topics.json] (a new, empty one, written out, when the file could not
    be read or parsed), and every local topic has the document map of its
    documents file.  The one exception is a [topics.json] that holds
    [null]: then [refresh] returns with the index unset and with
    everything else as it was. *)
Theorem X6_refresh_brings_memory_and_disk_together (env : Env)
    (i i' : Instance) :
  refresh env i = (Ok tt, i') ->
  if holdsNull i
  then topicsIndex (tm (sys i')) = None
       /\ i' = mkInstance
                 (mkSys (setTopicsIndex None (tm (sys i))) (world (sys i)))
                 (isInitialized i) (folderStatsFiles i) (indexFileNull i)
  else persisted (sys i').
Proof.
  unfold refresh. destruct (holdsNull i) eqn:Hnull.
  - rewrite (loadTopicsIndex_null env i Hnull). by intros [= <-].
  - by apply loadTopicsIndex_persisted.
Qed.


(** ** Memory and disk after a call *)

Lemma keyedById_set (doc : TopicDocument) (docs : list (string * TopicDocument)) :
  keyedById docs -> keyedById (OMap.set (d_id doc) doc docs).
Proof.
  intros [Hk Hnd]. split.
  - clear Hnd. induction docs as [|[k d] r IH]; simpl.
    + by constructor.
    + apply Forall_cons in Hk as [Hhd Htl].
      destruct (decide (d_id doc = k)) as [<-|Hne]; constructor; auto.
  - rewrite omap_keys_set. destruct (OMap.has (d_id doc) docs) eqn:Hhas; [done|].
    apply omap_has_false in Hhas. apply NoDup_app. repeat split; [done| |].
    + intros k Hin ->%list_elem_of_singleton. done.
    + apply NoDup_singleton.
Qed.

Lemma omap_keys_delete {V : Type} (k : string) (m : list (string * V)) :
  OMap.keys (OMap.delete k m) = filter (fun k' => k <> k') (OMap.keys m).
Proof.
  induction m as [|[k' v'] r IH]; simpl; [done|].
  destruct (decide (k = k')) as [->|Hne].
  - by rewrite filter_cons_False by (by intros ?).
  - rewrite filter_cons_True by done. simpl. by rewrite IH.
Qed.

Lemma keyedById_delete (k : string) (docs : list (string * TopicDocument)) :
  keyedById docs -> keyedById (OMap.delete k docs).
Proof.
  intros [Hk Hnd]. split.
  - clear Hnd. induction docs as [|[k' d] r IH]; simpl; [done|].
    apply Forall_cons in Hk as [Hhd Htl].
    destruct (decide (k = k')); [auto | constructor; auto].
  - rewrite omap_keys_delete. by apply NoDup_filter.
Qed.

Lemma keyedById_documentsMapOf (documentsArray : list TopicDocument) :
  keyedById (documentsMapOf documentsArray).
Proof.
  unfold documentsMapOf.
  assert (Hnil : keyedById []) by (split; constructor).
  revert Hnil. generalize (@nil (string * TopicDocument)).
  induction documentsArray as [|doc rest IH]; intros acc Hacc; simpl; [done|].
  by apply IH, keyedById_set.
Qed.

(** A document map written to its file and read back is the same map. *)
Lemma documentsMapOf_values_keyed (docs : list (string * TopicDocument)) :
  keyedById docs -> documentsMapOf (OMap.values docs) = docs.
Proof.
  intros [Hk Hnd]. unfold documentsMapOf.
  assert (Hids : map d_id (OMap.values docs) = OMap.keys docs).
  { clear Hnd. induction docs as [|[k d] r IH]; simpl; [done|].
    apply Forall_cons in Hk as [Hhd Htl]. simpl in Hhd. by rewrite IH, Hhd. }
  rewrite documentsMapOf_app by (simpl; by rewrite Hids). simpl. clear Hnd Hids.
  induction docs as [|[k d] r IH]; simpl; [done|].
  apply Forall_cons in Hk as [Hhd Htl]. simpl in Hhd. by rewrite IH, Hhd.
Qed.

Lemma documentsOnDisk_keyed (w : World) (topicId : string) :
  keyedById (documentsOnDisk w topicId).
Proof.
  unfold documentsOnDisk. destruct (documentsFiles w !! topicId).
  - apply keyedById_documentsMapOf.
  - split; constructor.
Qed.

(** The loop of [addDocuments] leaves the index and the files alone, and
    adds to the document map of its topic only, under the identifiers of
    the documents added. *)
Lemma addEach_documents (env : Env) (topicId : string) (filePaths : list string) :
  forall n results s,
    topicsIndex (tm (addEach env topicId filePaths n results s).2)
    = topicsIndex (tm s)
    /\ world (addEach env topicId filePaths n results s).2 = world s
    /\ (forall other, other <> topicId ->
          topicDocuments (tm (addEach env topicId filePaths n results s).2) !! other
          = topicDocuments (tm s) !! other)
    /\ (forall docs,
          topicDocuments (tm s) !! topicId = Some docs -> keyedById docs ->
          exists docs',
            topicDocuments (tm (addEach env topicId filePaths n results s).2)
              !! topicId = Some docs'
            /\ keyedById docs').
Proof.
  induction filePaths as [|filePath rest IH]; intros n results [m w]; simpl.
  - repeat split; eauto.
  - destruct (processDocument env filePath); [|apply IH..].
    unfold updateFolderChunkStats, onTm. mrun.
    match goal with
    | |- context [addEach env topicId rest (S n) ?r ?s1] =>
        destruct (IH (S n) r s1) as (Hi & Hw & Ho & Hd)
    end.
    simpl in *. repeat split; [by rewrite Hi | done | |].
    + intros other Hne. rewrite Ho by done. by rewrite lookup_insert_ne.
    + intros docs Hdocs Hkeyed. eapply Hd.
      * rewrite lookup_insert_eq, Hdocs. reflexivity.
      * match goal with
        | |- keyedById (OMap.set _ ?d _) => by apply (keyedById_set d)
        end.
Qed.

Lemma persisted_local_keyed (s : Sys) (topicId : string) :
  persisted s -> is_Some (localTopic (tm s) topicId) ->
  exists docs, topicDocuments (tm s) !! topicId = Some docs /\ keyedById docs.
Proof.
  intros (_ & _ & Hdocs) Hlocal. eexists. split; [by apply Hdocs|].
  apply documentsOnDisk_keyed.
Qed.

Lemma addDocumentsFrom_persisted (k : nat) (env : Env) (topicId : string)
    (filePaths : list string) (s s' : Sys) (r : list TopicDocument) :
  persisted s ->
  addDocumentsFrom k env topicId filePaths s = (Ok r, s') ->
  persisted s'.
Proof.
  intros Hp. pose proof Hp as ([idx Hidx] & Hfile & Hdocs).
  unfold addDocumentsFrom, bind at 1, gets at 1. cbn [fst snd]. rewrite Hidx.
  destruct (OMap.get topicId (topics idx)) as [t|] eqn:Ht; [|done].
  destruct (persisted_local_keyed s topicId Hp) as (docs & Hd & Hkeyed).
  { unfold localTopic. rewrite Hidx, Ht. by eexists. }
  unfold bind at 1.
  destruct (addEach_returns env topicId filePaths k [] s) as [res Hres].
  destruct (addEach_documents env topicId filePaths k [] s)
    as (Hi & Hw & Ho & Hk).
  destruct (Hk docs Hd Hkeyed) as (docs' & Hd' & Hkeyed'). clear Hk.
  destruct (addEach env topicId filePaths k [] s) as [res0 [m1 w1]].
  simpl in Hres, Hi, Hw, Ho, Hd'. subst res0 w1.
  unfold assignTopic, saveTopicsIndex, saveTopicDocuments, onTm, onWorld.
  mrun. rewrite Hi, Hidx, Ht. mrun.
  destruct (failSaveIndex env); mrun; [done|]. rewrite Hd'. mrun.
  destruct (failSaveDocuments env); mrun; [done|]. intros [= <- <-].
  unfold persisted, localTopic, documentsOnDisk. simpl.
  split; [by eexists|]. split; [done|]. intros other Hlocal.
  destruct (decide (other = topicId)) as [->|Hne].
  - rewrite lookup_insert_eq, Hd'. f_equal. symmetry.
    by apply documentsMapOf_values_keyed.
  - rewrite lookup_insert_ne by done. rewrite Ho by done.
    rewrite omap_get_set_ne in Hlocal by done. apply Hdocs.
    unfold localTopic. by rewrite Hidx.
Qed.

Lemma removeDocumentByFilePath_persisted (env : Env) (topicId filePath : string)
    (s s' : Sys) (r : bool) :
  persisted s ->
  removeDocumentByFilePath env topicId filePath s = (Ok r, s') ->
  persisted s'.
Proof.
  intros Hp. pose proof Hp as ([idx Hidx] & Hfile & Hdocs).
  unfold removeDocumentByFilePath, bind at 1, gets at 1. cbn [fst snd].
  rewrite Hidx. destruct (vectorStoreFactory (tm s)) as [factory|]; [|done].
  destruct (OMap.get topicId (topics idx)) as [t|] eqn:Ht; [|done].
  destruct (persisted_local_keyed s topicId Hp) as (docs & Hd & Hkeyed).
  { unfold localTopic. rewrite Hidx, Ht. by eexists. }
  rewrite Hd.
  destruct (find _ (OMap.values docs)) as [doc|]; [|by intros [= <- <-]].
  unfold bind at 1, onTm at 1, modify at 1. cbn [fst snd]. unfold bind at 1.
  match goal with
  | |- context [getVectorStore env topicId ?s0] =>
      pose proof (getVectorStore_frame env topicId s0) as [Hw Hm];
      destruct (getVectorStore env topicId s0) as [[store|e] [m2 w2]];
      [|done]
  end.
  cbn [fst snd tm world] in *. subst w2. rewrite Hm. clear Hm.
  destruct s as [m w]. cbn [tm world] in *.
  unfold deleteRows, assignTopic, saveTopicsIndex, saveTopicDocuments,
    removeFolderChunkStats, onTm, onWorld.
  assert (Hfinal : forall index' docs' files',
    index' = Some (mkIndex
                     (OMap.set topicId
                        (setDocumentCount env
                           (OMap.size (OMap.delete (d_id doc) docs)) t)
                        (topics idx)) (modelName idx) (now env)) ->
    docs' = <[topicId := OMap.delete (d_id doc) docs]> (topicDocuments m) ->
    files' = <[topicId := OMap.values (OMap.delete (d_id doc) docs)]>
               (documentsFiles w) ->
    is_Some index'
    /\ Some (mkIndex
               (OMap.set topicId
                  (setDocumentCount env
                     (OMap.size (OMap.delete (d_id doc) docs)) t)
                  (topics idx)) (modelName idx) (now env)) = index'
    /\ forall other,
         is_Some (match index' with
                  | Some idx' => OMap.get other (topics idx')
                  | None => None
                  end) ->
         docs' !! other
         = Some (match files' !! other with
                 | Some documentsArray => documentsMapOf documentsArray
                 | None => []
                 end)).
  { intros index' docs' files' -> -> ->. split; [by eexists|]. split; [done|].
    simpl. intros other Hlocal.
    destruct (decide (other = topicId)) as [->|Hne].
    - rewrite !lookup_insert_eq. f_equal. symmetry.
      by apply documentsMapOf_values_keyed, keyedById_delete.
    - rewrite !lookup_insert_ne by done.
      rewrite omap_get_set_ne in Hlocal by done. apply Hdocs.
      unfold localTopic. simpl. by rewrite Hidx. }
  destruct store as [st|]; mrun.
  - destruct (failTableDelete env); mrun;
      rewrite ?Hidx, ?Ht; mrun;
      (destruct (failSaveIndex env); mrun; [done|]);
      rewrite ?lookup_insert_eq; mrun;
      (destruct (failSaveDocuments env); mrun; [done|]);
      try (destruct (vs_root st); mrun);
      (destruct (folderChunkStats m !! topicId) eqn:Hfs; mrun);
      intros [= <- <-]; unfold persisted, localTopic, documentsOnDisk; simpl;
      by apply Hfinal.
  - rewrite ?Hidx, ?Ht; mrun;
      (destruct (failSaveIndex env); mrun; [done|]);
      rewrite ?lookup_insert_eq; mrun;
      (destruct (failSaveDocuments env); mrun; [done|]);
      (destruct (folderChunkStats m !! topicId) eqn:Hfs; mrun);
      intros [= <- <-]; unfold persisted, localTopic, documentsOnDisk; simpl;
      by apply Hfinal.
Qed.

Lemma deleteTopic_persisted (env : Env) (topicId : string) (s s' : Sys) :
  persisted s -> deleteTopic env topicId s = (Ok tt, s') -> persisted s'.
Proof.
  intros ([idx Hidx] & Hfile & Hdocs). destruct s as [m w]. simpl in *.
  unfold deleteTopic, deleteStore, saveTopicsIndex, notifyAgentCacheCleanup,
    onTm, onWorld.
  mrun. rewrite Hidx. destruct (vectorStoreFactory m); [|done].
  destruct (OMap.get topicId (topics idx)) eqn:Ht; [|done].
  destruct (failDeleteStore env); mrun; [done|]. rewrite Hidx. mrun.
  destruct (failSaveIndex env); mrun; [done|].
  assert (Hfinal : forall other,
    is_Some (OMap.get other (OMap.delete topicId (topics idx))) ->
    delete topicId (topicDocuments m) !! other
    = Some (match delete topicId (documentsFiles w) !! other with
            | Some documentsArray => documentsMapOf documentsArray
            | None => []
            end)).
  { intros other Hlocal. destruct (decide (other = topicId)) as [->|Hne].
    - rewrite omap_get_delete_eq in Hlocal. by destruct Hlocal.
    - rewrite omap_get_delete_ne in Hlocal by done.
      rewrite !lookup_delete_ne by done. apply Hdocs.
      unfold localTopic. by rewrite Hidx. }
  destruct (agentCacheCleanupCallback m); mrun;
    [destruct (callbackThrows env); mrun|];
    intros ?; simplify_eq; unfold persisted, localTopic, documentsOnDisk; simpl;
    (split; [by eexists|]); (split; [done|]); exact Hfinal.
Qed.

Lemma updateTopic_persisted (env : Env) (topicId : string)
    (updates : TopicUpdates) (s s' : Sys) (r : Topic) :
  persisted s -> updateTopic env topicId updates s = (Ok r, s') -> persisted s'.
Proof.
  intros ([idx Hidx] & Hfile & Hdocs). destruct s as [m w]. simpl in *.
  unfold updateTopic, assignTopic, saveTopicsIndex, onTm, onWorld.
  mrun. rewrite Hidx.
  destruct (OMap.get topicId (topics idx)) as [t|] eqn:Ht; [|done].
  destruct (truthy (u_name updates)) as [newName|] eqn:Hn;
    [destruct (bool_decide (newName = t_name t)); [|destruct (find _ _)]|];
    destruct (u_name updates); mrun; try done;
    rewrite ?Hidx, ?Ht; mrun;
    (destruct (failSaveIndex env); mrun; [done|]);
    intros [= <- <-]; unfold persisted, localTopic, documentsOnDisk; simpl;
    (split; [by eexists|]); (split; [done|]); intros other Hlocal;
    (destruct (decide (other = topicId)) as [->|Hne];
      [|rewrite omap_get_set_ne in Hlocal by done]);
    apply Hdocs; unfold localTopic; rewrite Hidx; by rewrite ?Ht.
Qed.

Lemma createTopic_persisted (env : Env) (options : CreateTopicOptions)
    (s s' : Sys) (r : Topic) :
  persisted s ->
  documentsFiles (world s) !! generateTopicId env 0 = None ->
  createTopic env options s = (Ok r, s') ->
  persisted s'.
Proof.
  intros ([idx Hidx] & Hfile & Hdocs) Hclean. destruct s as [m w]. simpl in *.
  unfold createTopic, bind at 1, gets at 1. cbn [fst snd tm]. rewrite Hidx.
  destruct (findByName (o_name options) (topics idx)); [done|].
  unfold saveTopicsIndex, onTm, onWorld. mrun.
  destruct (failSaveIndex env); mrun; [done|].
  match goal with
  | |- context [mkSys (setTopicDocuments ?d ?m1) ?w1] =>
      assert (Hmid : persisted (mkSys (setTopicDocuments d m1) w1))
  end.
  { unfold persisted, localTopic, documentsOnDisk. simpl.
    split; [by eexists|]. split; [done|]. intros other Hlocal.
    destruct (decide (other = generateTopicId env 0)) as [->|Hne].
    - by rewrite lookup_insert_eq, Hclean.
    - rewrite lookup_insert_ne by done.
      rewrite omap_get_set_ne in Hlocal by done. apply Hdocs.
      unfold localTopic. by rewrite Hidx. }
  destruct (o_initialDocuments options) as [|file files]; mrun.
  - by intros [= <- <-].
  - match goal with
    | |- context [addDocumentsFrom 1 env ?id ?l ?s1] =>
        pose proof (addDocumentsFrom_persisted 1 env id l s1) as Hadd;
        destruct (addDocumentsFrom 1 env id l s1) as [[res|e] s2]; [|done]
    end.
    mrun. intros [= <- <-]. by eapply Hadd.
Qed.

Lemma importTopic_persisted (env : Env) (archivePath : string) (s s' : Sys)
    (r : Topic) :
  persisted s -> importTopic env archivePath s = (Ok r, s') -> persisted s'.
Proof.
  intros ([idx Hidx] & Hfile & Hdocs). destruct s as [m w]. simpl in *.
  unfold importTopic, saveTopicsIndex, saveTopicDocuments, onTm, onWorld.
  mrun. rewrite Hidx.
  destruct (archives w !! archivePath) as [entries|]; [|done].
  destruct (find _ entries) as [topicEntry|]; [|done].
  destruct (entryData topicEntry) as [exportData| |]; try done.
  mrun. rewrite Hidx. mrun.
  destruct (failSaveIndex env); mrun; [done|].
  rewrite lookup_insert_eq. mrun.
  destruct (failSaveDocuments env); mrun; [done|].
  intros [= <- <-]. unfold persisted, localTopic, documentsOnDisk. simpl.
  split; [by eexists|]. split; [done|]. intros other Hlocal.
  destruct (decide (other = generateTopicId env 0)) as [->|Hne].
  - rewrite !lookup_insert_eq. f_equal. symmetry.
    apply documentsMapOf_values_keyed, keyedById_documentsMapOf.
  - rewrite !lookup_insert_ne by done.
    rewrite omap_get_set_ne in Hlocal by done. apply Hdocs.
    unfold localTopic. by rewrite Hidx.
Qed.

(** A method that assigns neither the index nor the document maps, and
    writes neither [topics.json] nor a documents file. *)
Lemma persisted_frame (s : Sys) (m' : TopicManager) (w' : World) :
  persisted s ->
  topicsIndex m' = topicsIndex (tm s) ->
  topicDocuments m' = topicDocuments (tm s) ->
  indexFile w' = indexFile (world s) ->
  documentsFiles w' = documentsFiles (world s) ->
  persisted (mkSys m' w').
Proof.
  unfold persisted, localTopic, documentsOnDisk. simpl.
  by intros Hp -> -> -> ->.
Qed.

Ltac persisted_step :=
  first
    [ preserve_step
    | apply preserves_modify; intros [? ?] ?;
      (eapply persisted_frame; [eassumption | try done..]);
      simpl; repeat case_match; done ].

Lemma deleteTopicVectorStore_persisted (env : Env) (topicId : string) :
  preserves persisted (deleteTopicVectorStore env topicId).
Proof.
  unfold deleteTopicVectorStore, deleteStore, notifyAgentCacheCleanup,
    onTm, onWorld.
  repeat persisted_step.
Qed.

Lemma exportTopic_persisted (env : Env) (topicId exportPath : string) :
  preserves persisted (exportTopic env topicId exportPath).
Proof.
  unfold exportTopic, onTm, onWorld. repeat persisted_step.
Qed.

Lemma getVectorStore_persisted (env : Env) (topicId : string) :
  preserves persisted (getVectorStore env topicId).
Proof.
  unfold getVectorStore, ensureEmbeddingModelCompatibility, loadStore, onTm,
    onWorld.
  repeat persisted_step.
Qed.

(** X5.  A call that returns leaves memory and disk in agreement when it
    found them so: afterwards [topics.json] holds the index in memory and
    the documents file of every local topic gives its document map.
    [createTopic] is asked not to meet a stale documents file under the
    identifier it generates. *)
Theorem X5_returning_calls_keep_disk_in_step (env : Env) (c : Command)
    (s s' : Sys) :
  persisted s ->
  startsClean env c s ->
  run env c s = (Ok tt, s') ->
  persisted s'.
Proof.
  intros Hp Hclean. destruct c; simpl in *; unfold bind, ret.
  - destruct (createTopic env options s) as [[r|e] s1] eqn:Hrun; [|done].
    intros [= <-]. by eapply createTopic_persisted.
  - destruct (updateTopic env topicId updates s) as [[r|e] s1] eqn:Hrun; [|done].
    intros [= <-]. by eapply updateTopic_persisted.
  - by apply deleteTopic_persisted.
  - intros Hrun. pose proof (deleteTopicVectorStore_persisted env topicId s Hp).
    by rewrite Hrun in *.
  - destruct (addDocuments env topicId filePaths s) as [[r|e] s1] eqn:Hrun;
      [|done].
    intros [= <-]. by eapply addDocumentsFrom_persisted.
  - destruct (removeDocumentByFilePath env topicId filePath s)
      as [[r|e] s1] eqn:Hrun; [|done].
    intros [= <-]. by eapply removeDocumentByFilePath_persisted.
  - intros Hrun. pose proof (exportTopic_persisted env topicId exportPath s Hp).
    by rewrite Hrun in *.
  - destruct (importTopic env archivePath s) as [[r|e] s1] eqn:Hrun; [|done].
    intros [= <-]. by eapply importTopic_persisted.
  - pose proof (getVectorStore_persisted env topicId s Hp) as Hgv.
    destruct (getVectorStore env topicId s) as [[r|e] s1]; [|done].
    by intros [= <-].
Qed.

End LifecycleFacts.

(** The state reached by creating [Docs] and adding one file has been
    written out in full. *)
Lemma afterAdd_persisted : Lifecycle.persisted Examples.afterAdd.
Proof.
  split; [by eexists|]. split; [by vm_compute|].
  intros topicId Hlocal. unfold Registry.localTopic in Hlocal.
  assert (Hkeys : exists idx,
    Registry.topicsIndex (Registry.tm Examples.afterAdd) = Some idx
    /\ OMap.keys (Registry.topics idx) = [Examples.docsId]).
  { eexists. split; vm_compute; reflexivity. }
  destruct Hkeys as (idx & Hidx & Hkeys). rewrite Hidx in Hlocal.
  apply omap_get_is_Some in Hlocal. rewrite Hkeys in Hlocal.
  apply list_elem_of_singleton in Hlocal. subst topicId. by vm_compute.
Qed.

Lemma X4_witness :
  exists i',
    Lifecycle.refresh Examples.later Cases.running = (Ok tt, i')
    /\ Registry.world (Lifecycle.sys i') = Registry.world Examples.afterAdd
    /\ Lifecycle.isInitialized i' = true
    /\ Lifecycle.folderStatsFiles i' = ∅
    /\ Registry.tm (Lifecycle.sys i')
       = Registry.setFolderChunkStats
           (Registry.folderChunkStats (Registry.tm (Lifecycle.sys i')))
           (Registry.tm Examples.afterAdd).
Proof.
  apply (X4_refresh_restores_what_was_saved Examples.later Cases.running).
  apply afterAdd_persisted.
Defined.

Lemma X5_witness :
  Lifecycle.persisted
    (Lifecycle.run (platform := Posix.posix) Examples.later
       (Lifecycle.AddDocuments Examples.docsId ["/w/guide/setup.md"])
       Examples.afterAdd).2.
Proof.
  apply (X5_returning_calls_keep_disk_in_step (platform := Posix.posix)
           Examples.later
           (Lifecycle.AddDocuments Examples.docsId ["/w/guide/setup.md"])
           Examples.afterAdd).
  - apply afterAdd_persisted.
  - exact I.
  - vm_compute. reflexivity.
Defined.

Lemma X6_witness :
  Lifecycle.persisted
    (Lifecycle.sys
       (Lifecycle.refresh Examples.later
          (Lifecycle.dispose Cases.running)).2)
  /\ Registry.topicsIndex
       (Registry.tm
          (Lifecycle.sys
             (Lifecycle.refresh Examples.later Cases.nullIndexFile).2)) = None.
Proof.
  split.
  - apply (X6_refresh_brings_memory_and_disk_together Examples.later
             (Lifecycle.dispose Cases.running)).
    vm_compute. reflexivity.
  - apply (X6_refresh_brings_memory_and_disk_together Examples.later
             Cases.nullIndexFile).
    vm_compute. reflexivity.
Defined.

(** ** Start-up and the default topic *)

Section StartFacts.
Import Registry Lifecycle.
Context {platform : Platform}.

Lemma bind_Ok {S A B : Type} (m : M S A) (k : A -> M S B) (s s' : S) (b : B) :
  bind m k s = (Ok b, s') ->
  exists a s1, m s = (Ok a, s1) /\ k a s1 = (Ok b, s').
Proof.
  unfold bind. destruct (m s) as [[a|e] s1]; [eauto | done].
Qed.

Lemma bind_Throw {S A B : Type} (m : M S A) (k : A -> M S B) (s s' : S)
    (e : string) :
  bind m k s = (Throw e, s') ->
  m s = (Throw e, s') \/ exists a s1, m s = (Ok a, s1) /\ k a s1 = (Throw e, s').
Proof.
  unfold bind. destruct (m s) as [[a|e0] s1]; intros H.
  - right. by exists a, s1.
  - left. by injection H as -> ->.
Qed.

Lemma run_bind_gets {S A B : Type} (f : S -> A) (k : A -> M S B) (s : S) :
  bind (gets f) k s = k (f s) s.
Proof. reflexivity. Qed.

Lemma run_bind {S A B : Type} (m : M S A) (k : A -> M S B) (s : S) :
  bind m k s
  = match m s with
    | (Ok a, s1) => k a s1
    | (Throw e, s1) => (Throw e, s1)
    end.
Proof. reflexivity. Qed.

Lemma onSys_flag {A : Type} (m : M Sys A) (i : Instance) :
  isInitialized (onSys m i).2 = isInitialized i
  /\ folderStatsFiles (onSys m i).2 = folderStatsFiles i
  /\ sys (onSys m i).2 = (m (sys i)).2
  /\ (onSys m i).1 = (m (sys i)).1.
Proof. unfold onSys. by destruct (m (sys i)). Qed.

(** [loadTopicsIndex] never touches the flag. *)
Lemma loadTopicsIndex_flag (env : Env) (i : Instance) :
  isInitialized (loadTopicsIndex env i).2 = isInitialized i.
Proof.
  destruct i as [[m w] b files isNull].
  unfold loadTopicsIndex, loadAllTopicDocuments, onSys, onTm, saveTopicsIndex,
    onWorld.
  mrun. destruct (indexFile w) as [idx|]; mrun.
  - destruct (loadAllTopicDocuments_loop env (OMap.keys (topics idx))
                (mkInstance (mkSys (setTopicsIndex (Some idx) m) w) b files isNull))
      as (i1 & Hrun & _ & Hb & _).
    pose proof (f_equal snd Hrun) as Hsnd. simpl in Hsnd.
    etransitivity; [|exact Hb]. f_equal. exact Hsnd.
  - destruct isNull; mrun; [done|]. by destruct (failSaveIndex env).
Qed.

(** What [init] leaves behind: nothing at all when the manager is
    initialized already; otherwise a manager that is initialized, has an
    index and a factory labelled with the model of that index, and agrees
    with the disk, or, when a step throws, a manager whose flag is still
    down. *)
Lemma init_outcome (e : StartEnv) (i : Instance) :
  if isInitialized i then init e i = (Ok tt, i)
  else
    match init e i with
    | (Ok _, i') =>
        isInitialized i' = true
        /\ persisted (sys i')
        /\ exists idx,
             topicsIndex (tm (sys i')) = Some idx
             /\ vectorStoreFactory (tm (sys i')) = Some (modelName idx)
    | (Throw _, i') => isInitialized i' = false
    end.
Proof.
  destruct (isInitialized i) eqn:Hflag; unfold init; rewrite run_bind_gets, Hflag;
    [done|].
  rewrite run_bind.
  assert (H1 : isInitialized (initializeEmbeddings e i).2 = false).
  { unfold initializeEmbeddings. destruct (embeddingInitialize e); [|done].
    by rewrite (proj1 (onSys_flag _ i)). }
  destruct (initializeEmbeddings e i) as [[[]|err] i1]; [|done].
  simpl in H1. rewrite run_bind.
  pose proof (loadTopicsIndex_flag (callEnv e) i1) as H2.
  destruct (holdsNull i1) eqn:Hnull.
  { rewrite (loadTopicsIndex_null (callEnv e) i1 Hnull) in *.
    simpl in H2. rewrite run_bind. unfold initializePipeline.
    destruct (pipelineInitialize e); unfold throw, ret; [done|].
    by rewrite run_bind_gets. }
  pose proof (loadTopicsIndex_persisted (callEnv e) i1) as Hp.
  destruct (loadTopicsIndex (callEnv e) i1) as [[[]|err] i2];
    simpl in H2; [|congruence].
  specialize (Hp i2 Hnull eq_refl). rewrite run_bind.
  unfold initializePipeline.
  destruct (pipelineInitialize e); unfold throw, ret; [congruence|].
  rewrite run_bind_gets.
  destruct Hp as ([idx Hidx] & Hfile & Hdocs). rewrite Hidx.
  destruct i2 as [[m2 w2] b2 files2]. simpl in *.
  unfold loadCommonDatabase, onSys, onTm. mrun.
  assert (Hgoal : forall ci cd cp,
    persisted
      (mkSys (setCommon ci cd cp (setVectorStoreFactory (Some (modelName idx)) m2))
         w2)).
  { intros. unfold persisted, localTopic. simpl. rewrite Hidx.
    split; [by eexists|]. split; [congruence|]. intros topicId Hl.
    apply Hdocs. unfold localTopic. by rewrite Hidx. }
  repeat case_match; simplify_eq; simpl; (split; [done|]);
    (split; [apply Hgoal | exists idx; simpl; by rewrite ?Hidx]).
Qed.

(** X12.  [init] does nothing on an initialized manager.  On another one
    it either returns, and then the manager is initialized, holds an index
    and a factory labelled with the model of that index, and agrees with
    the disk; or it throws, and then the manager is still not initialized. *)
Theorem X12_init_raises_the_flag_only_on_success (e : StartEnv) (i : Instance) :
  if isInitialized i then init e i = (Ok tt, i)
  else
    match init e i with
    | (Ok _, i') =>
        isInitialized i' = true
        /\ persisted (sys i')
        /\ exists idx,
             topicsIndex (tm (sys i')) = Some idx
             /\ vectorStoreFactory (tm (sys i')) = Some (modelName idx)
    | (Throw _, i') => isInitialized i' = false
    end.
Proof. apply init_outcome. Qed.

(** A topic put into the index under a predicate that no topic of the
    index met is the first topic to meet it. *)
Lemma find_set_new (p : Topic -> bool) (k : string) (t : Topic)
    (ts : list (string * Topic)) :
  List.find p (OMap.values ts) = None -> p t = true ->
  List.find p (OMap.values (OMap.set k t ts)) = Some t.
Proof.
  intros Hnone Hp. induction ts as [|[k' t'] r IH]; simpl in *.
  - by rewrite Hp.
  - destruct (p t') eqn:Hp'; [done|].
    destruct (decide (k = k')); simpl; [by rewrite Hp | by rewrite Hp', IH].
Qed.

(** What a [createTopic] without initial documents returns, and where it
    files it. *)
Lemma createTopic_empty_run (env : Env) (name : string)
    (description : option string) (s s' : Sys) (t : Topic) (idx : TopicsIndex) :
  topicsIndex (tm s) = Some idx ->
  createTopic env (mkOptions name description []) s = (Ok t, s') ->
  t_name t = name
  /\ topicsIndex (tm s')
     = Some (mkIndex (OMap.set (generateTopicId env 0) t (topics idx))
               (modelName idx) (now env)).
Proof.
  destruct s as [m w]. simpl. intros Hidx.
  unfold createTopic, saveTopicsIndex, onTm, onWorld. mrun. rewrite Hidx.
  destruct (findByName name (topics idx)); [done|]. mrun.
  destruct (failSaveIndex env); mrun; [done|].
  rewrite omap_get_set_eq. by intros [= <- <-].
Qed.

(** Where a returning [ensureDefaultTopic] leaves the manager. *)
Lemma ensureDefaultTopic_run (e : StartEnv) (i i' : Instance) (t : Topic) :
  ensureDefaultTopic e i = (Ok t, i') ->
  isInitialized i' = true
  /\ exists idx,
       topicsIndex (tm (sys i')) = Some idx
       /\ List.find (fun t => bool_decide (t_name t = DEFAULT_TOPIC_NAME))
                    (OMap.values (topics idx)) = Some t.
Proof.
  unfold ensureDefaultTopic. rewrite run_bind.
  assert (Hready : match ensureInitialized e i with
                   | (Ok _, i1) => isInitialized i1 = true
                   | (Throw _, _) => True
                   end).
  { unfold ensureInitialized. rewrite run_bind_gets.
    pose proof (init_outcome e i) as Hinit.
    destruct (isInitialized i) eqn:Hflag; [done|].
    destruct (init e i) as [[[]|err] i1]; [by destruct Hinit | done]. }
  destruct (ensureInitialized e i) as [[[]|err] i1]; [|done].
  rewrite run_bind_gets.
  destruct (topicsIndex (tm (sys i1))) as [idx|] eqn:Hidx; [|done].
  destruct (List.find _ (OMap.values (topics idx))) as [d|] eqn:Hfind.
  - intros [= <- <-]. split; [done|]. exists idx. by rewrite Hidx.
  - intros Hrun. pose proof (onSys_flag (createTopic (callEnv e)
                                           defaultTopicOptions) i1)
      as (Hb & _ & Hs & Hr).
    rewrite Hrun in Hb, Hs, Hr. simpl in Hb, Hs, Hr.
    destruct (createTopic (callEnv e) defaultTopicOptions (sys i1))
      as [r s1] eqn:Hcreate. simpl in Hs, Hr. subst r s1.
    destruct (createTopic_empty_run _ _ _ _ _ _ _ Hidx Hcreate) as [Hname Hidx'].
    split; [congruence|]. eexists. split; [exact Hidx'|]. simpl.
    apply find_set_new; [done|]. by rewrite Hname, bool_decide_eq_true_2.
Qed.

(** X7.  [ensureDefaultTopic] is idempotent: once it has returned a topic,
    every later call returns the same topic and changes nothing, whatever
    the outcomes of its collaborators. *)
Theorem X7_ensureDefaultTopic_is_idempotent (e e' : StartEnv)
    (i i' : Instance) (t : Topic) :
  ensureDefaultTopic e i = (Ok t, i') ->
  ensureDefaultTopic e' i' = (Ok t, i').
Proof.
  intros (Hflag & idx & Hidx & Hfind)%ensureDefaultTopic_run.
  unfold ensureDefaultTopic, ensureInitialized.
  rewrite run_bind, run_bind_gets, Hflag. unfold ret.
  by rewrite run_bind_gets, Hidx, Hfind.
Qed.

(** X8.  The default topic is looked up by its exact name but created
    under the check that ignores case: on an initialized manager that
    holds no topic named [Default] but one whose name differs from it only
    by case, [ensureDefaultTopic] throws the "already exists" error and
    changes nothing. *)
Theorem X8_ensureDefaultTopic_trips_over_case (e : StartEnv) (i : Instance)
    (idx : TopicsIndex) (other : Topic) :
  isInitialized i = true ->
  topicsIndex (tm (sys i)) = Some idx ->
  List.find (fun t => bool_decide (t_name t = DEFAULT_TOPIC_NAME))
            (OMap.values (topics idx)) = None ->
  findByName DEFAULT_TOPIC_NAME (topics idx) = Some other ->
  ensureDefaultTopic e i = (Throw (alreadyExists DEFAULT_TOPIC_NAME), i).
Proof.
  intros Hflag Hidx Hexact Hfolded. destruct i as [[m w] b files isNull].
  simpl in *. unfold ensureDefaultTopic, ensureInitialized.
  rewrite run_bind, run_bind_gets. simpl. rewrite Hflag. unfold ret.
  rewrite run_bind_gets. simpl. rewrite Hidx, Hexact.
  unfold onSys, createTopic. rewrite run_bind_gets. simpl.
  by rewrite Hidx, Hfolded.
Qed.

End StartFacts.

Lemma X7_witness :
  exists t,
    Lifecycle.ensureDefaultTopic (platform := Posix.posix) Cases.quietStart
      (Lifecycle.ensureDefaultTopic (platform := Posix.posix) Cases.quietStart
         Cases.running).2
    = (Ok t,
       (Lifecycle.ensureDefaultTopic (platform := Posix.posix) Cases.quietStart
          Cases.running).2).
Proof.
  destruct (Lifecycle.ensureDefaultTopic (platform := Posix.posix)
              Cases.quietStart Cases.running) as [[t|err] i'] eqn:Hrun.
  - exists t.
    apply (X7_ensureDefaultTopic_is_idempotent (platform := Posix.posix)
             Cases.quietStart Cases.quietStart Cases.running i' t Hrun).
  - vm_compute in Hrun. discriminate Hrun.
Defined.

Lemma X8_witness :
  Lifecycle.ensureDefaultTopic (platform := Posix.posix) Cases.quietStart
    Cases.lowercase
  = (Throw (Registry.alreadyExists "Default"), Cases.lowercase).
Proof.
  apply (X8_ensureDefaultTopic_trips_over_case (platform := Posix.posix)
           Cases.quietStart Cases.lowercase
           (Registry.mkIndex [("topic-d", Cases.lowerDefault)] "model-b" 1)
           Cases.lowerDefault).
  - reflexivity.
  - reflexivity.
  - vm_compute. reflexivity.
  - vm_compute. reflexivity.
Defined.


(** ** Topic names stay distinct *)

Section NameFacts.
Import Registry Lifecycle.
Context {platform : Platform}.

Lemma foldedNames_set_elem (k : string) (t : Topic) (ts : list (string * Topic))
    (x : string) :
  x ∈ foldedNames (OMap.set k t ts) ->
  x = toLowerCase (t_name t) \/ x ∈ foldedNames ts.
Proof.
  unfold foldedNames. induction ts as [|[k' t'] r IH]; simpl.
  - intros ->%list_elem_of_singleton. by left.
  - destruct (decide (k = k')); simpl; intros [->|Hin]%elem_of_cons.
    + by left.
    + right. by right.
    + right. by left.
    + destruct (IH Hin) as [->|Hr]; [by left | right; by right].
Qed.

(** Filing [t] under [k] keeps the names distinct when no topic filed
    under another key bears the name of [t] up to case. *)
Lemma foldedNames_set_NoDup (k : string) (t : Topic) (ts : list (string * Topic)) :
  NoDup (OMap.keys ts) -> NoDup (foldedNames ts) ->
  (forall k' t', (k', t') ∈ ts -> k' <> k ->
                 toLowerCase (t_name t') <> toLowerCase (t_name t)) ->
  NoDup (foldedNames (OMap.set k t ts)).
Proof.
  unfold foldedNames. induction ts as [|[k0 t0] r IH]; simpl; intros Hk Hn Hother.
  - apply NoDup_singleton.
  - apply NoDup_cons in Hk as [Hk0 Hk]. apply NoDup_cons in Hn as [Hn0 Hn].
    destruct (decide (k = k0)) as [->|Hne]; simpl; apply NoDup_cons.
    + split; [|done]. intros Hin.
      apply list_elem_of_fmap in Hin as (t' & Heq & Hin).
      apply list_elem_of_fmap in Hin as ([k' t''] & -> & Hin). simpl in *.
      apply (Hother k' t''); [by right | | done].
      intros ->. apply Hk0. apply list_elem_of_fmap. by exists (k0, t'').
    + split.
      * intros [Heq|Hin]%foldedNames_set_elem; [|done].
        apply (Hother k0 t0); [by left | by intros -> | done].
      * apply IH; [done..|]. intros k' t' Hin. apply Hother. by right.
Qed.

(** Replacing a topic by one of the same name, up to case, leaves the
    list of names as it was. *)
Lemma foldedNames_set_same (k : string) (t old : Topic)
    (ts : list (string * Topic)) :
  OMap.get k ts = Some old ->
  toLowerCase (t_name t) = toLowerCase (t_name old) ->
  foldedNames (OMap.set k t ts) = foldedNames ts.
Proof.
  unfold foldedNames. intros Hget Hsame.
  induction ts as [|[k' t'] r IH]; simpl in *; [done|].
  destruct (decide (k = k')); simpl.
  - injection Hget as ->. by rewrite Hsame.
  - by rewrite IH.
Qed.

Lemma omap_keys_set_existing {V : Type} (k : string) (v old : V)
    (m : list (string * V)) :
  OMap.get k m = Some old -> OMap.keys (OMap.set k v m) = OMap.keys m.
Proof.
  intros Hget. rewrite omap_keys_set. unfold OMap.has. by rewrite Hget.
Qed.

Lemma filed_set (k : string) (t : Topic) (ts : list (string * Topic)) :
  Forall (fun kv => t_id (snd kv) = fst kv) ts -> t_id t = k ->
  Forall (fun kv => t_id (snd kv) = fst kv) (OMap.set k t ts).
Proof.
  intros Hf Hid. induction ts as [|[k' t'] r IH]; simpl.
  - by repeat constructor.
  - apply Forall_cons in Hf as [Hhd Htl].
    destruct (decide (k = k')) as [->|]; constructor; auto.
Qed.

Lemma foldedNames_delete (k : string) (ts : list (string * Topic)) :
  foldedNames (OMap.delete k ts) `sublist_of` foldedNames ts.
Proof.
  unfold foldedNames. induction ts as [|[k' t'] r IH]; simpl; [done|].
  destruct (decide (k = k')); simpl.
  - by apply sublist_cons.
  - by apply sublist_skip.
Qed.

Lemma filed_delete (k : string) (ts : list (string * Topic)) :
  Forall (fun kv => t_id (snd kv) = fst kv) ts ->
  Forall (fun kv => t_id (snd kv) = fst kv) (OMap.delete k ts).
Proof.
  intros Hf. induction ts as [|[k' t'] r IH]; simpl; [done|].
  apply Forall_cons in Hf as [Hhd Htl].
  destruct (decide (k = k')); [auto | constructor; auto].
Qed.

(** The property as a predicate of the state. *)
Lemma distinctNames_frame (m m' : TopicManager) :
  topicsIndex m' = topicsIndex m -> distinctNames m -> distinctNames m'.
Proof. unfold distinctNames. by intros ->. Qed.

(** A field of an existing topic is assigned, other than its identifier and
    its name. *)
Lemma assignTopic_distinctNames (env : Env) (topicId : string)
    (f : Topic -> Topic) :
  (forall t, t_id (f t) = t_id t /\ t_name (f t) = t_name t) ->
  preserves (fun s => distinctNames (tm s)) (assignTopic env topicId f).
Proof.
  intros Hf. unfold assignTopic, onTm. apply preserves_modify.
  intros [m w]. unfold distinctNames. simpl.
  destruct (topicsIndex m) as [idx|] eqn:Hidx; simpl; [|by rewrite Hidx].
  intros (Hk & Hfiled & Hn).
  destruct (OMap.get topicId (topics idx)) as [t|] eqn:Ht; [|done].
  destruct (Hf t) as [Hid Hname].
  rewrite (omap_keys_set_existing topicId (f t) t) by done.
  rewrite (foldedNames_set_same topicId (f t) t) by (by rewrite ?Hname).
  repeat split; [done | | done]. apply filed_set; [done|].
  rewrite Hid. apply omap_get_Some_elem in Ht.
  rewrite Forall_forall in Hfiled. apply (Hfiled _ Ht).
Qed.

Ltac names_step :=
  first
    [ apply assignTopic_distinctNames; intros ?; by split
    | apply addEach_preserves; intros; by eapply distinctNames_frame
    | preserve_step
    | apply preserves_modify; intros [? ?] ?;
      (eapply distinctNames_frame; [|eassumption]);
      simpl; repeat case_match; done ].

Lemma tail_distinctNames (env : Env) (topicId : string) (k : nat)
    (filePaths : list string) :
  preserves (fun s => distinctNames (tm s))
    (addDocumentsFrom k env topicId filePaths).
Proof.
  unfold addDocumentsFrom, saveTopicsIndex, saveTopicDocuments, onTm, onWorld.
  repeat names_step.
Qed.

Lemma createTopic_distinctNames (env : Env) (options : CreateTopicOptions) :
  preserves (fun s => distinctNames (tm s)) (createTopic env options).
Proof.
  intros [m w] Hp. unfold createTopic. rewrite run_bind_gets. simpl.
  destruct (topicsIndex m) as [idx|] eqn:Hidx; [|done].
  destruct (findByName (o_name options) (topics idx)) eqn:Hfind; [done|].
  rewrite run_bind. unfold onTm at 1, modify at 1. cbn [fst snd tm world].
  match goal with
  | |- context [mkSys (setTopicsIndex ?i m) w] =>
      assert (Hnew : distinctNames (setTopicsIndex i m))
  end.
  { unfold distinctNames in *. simpl in Hp. rewrite Hidx in Hp. simpl.
    destruct Hp as (Hk & Hfiled & Hn). repeat split.
    - rewrite omap_keys_set.
      destruct (OMap.has _ (topics idx)) eqn:Hhas; [done|].
      apply omap_has_false in Hhas. apply NoDup_app. repeat split; [done| |].
      + intros k' Hin ->%list_elem_of_singleton. done.
      + apply NoDup_singleton.
    - by apply filed_set.
    - apply foldedNames_set_NoDup; [done..|]. intros k' t' Hin _. simpl.
      unfold findByName in Hfind.
      assert (Hin' : In t' (OMap.values (topics idx))).
      { apply list_elem_of_In, list_elem_of_fmap. by exists (k', t'). }
      pose proof (find_none _ _ Hfind t' Hin') as Hno.
      by apply bool_decide_eq_false in Hno. }
  match goal with
  | |- distinctNames (tm (?k ?s1).2) =>
      cut (preserves (fun s => distinctNames (tm s)) k);
        [intros Hpres; by apply (Hpres s1) |]
  end.
  unfold saveTopicsIndex, onTm, onWorld.
  repeat first [apply tail_distinctNames | names_step].
Qed.

Lemma updateTopic_distinctNames (env : Env) (topicId : string)
    (updates : TopicUpdates) :
  preserves (fun s => distinctNames (tm s)) (updateTopic env topicId updates).
Proof.
  intros [m w] Hp. unfold updateTopic. rewrite run_bind_gets. simpl.
  destruct (topicsIndex m) as [idx|] eqn:Hidx; [|done].
  destruct (OMap.get topicId (topics idx)) as [topic|] eqn:Ht; [|done].
  pose proof Hp as Hp0. unfold distinctNames in Hp. simpl in Hp.
  rewrite Hidx in Hp. destruct Hp as (Hk & Hfiled & Hn).
  assert (Hid : t_id topic = topicId).
  { apply omap_get_Some_elem in Ht. rewrite Forall_forall in Hfiled.
    apply (Hfiled _ Ht). }
  assert (Hrename : forall newName description,
    (newName = t_name topic
     \/ List.find
          (fun t => negb (bool_decide (t_id t = topicId))
                    && bool_decide (toLowerCase (t_name t) = toLowerCase newName))
          (OMap.values (topics idx)) = None) ->
    distinctNames
      (tm ((assignTopic env topicId
              (fun _ => setTopicFields newName description (now env)
                          (t_documentCount topic) topic) ;;
            saveTopicsIndex env ;;
            ret (setTopicFields newName description (now env)
                   (t_documentCount topic) topic)) (mkSys m w)).2)).
  { intros newName description Hfree.
    rewrite run_bind. unfold assignTopic at 1, onTm at 1, modify at 1.
    cbn [fst snd tm world]. rewrite Hidx, Ht.
    match goal with
    | |- distinctNames (tm (?k ?s1).2) =>
        cut (preserves (fun s => distinctNames (tm s)) k);
          [intros Hpres; apply (Hpres s1) |]
    end.
    2: { unfold saveTopicsIndex, onTm, onWorld. repeat names_step. }
    unfold distinctNames. simpl.
    rewrite (omap_keys_set_existing topicId _ topic) by done.
    repeat split; [done | by apply filed_set |].
    destruct Hfree as [->|Hnone].
    - by rewrite (foldedNames_set_same topicId _ topic).
    - apply foldedNames_set_NoDup; [done..|]. intros k' t' Hin Hne. simpl.
      assert (Hin' : In t' (OMap.values (topics idx))).
      { apply list_elem_of_In, list_elem_of_fmap. by exists (k', t'). }
      pose proof (find_none _ _ Hnone t' Hin') as Hno. simpl in Hno.
      apply andb_false_iff in Hno as [Hno|Hno].
      + apply negb_false_iff, bool_decide_eq_true in Hno.
        rewrite Forall_forall in Hfiled. specialize (Hfiled _ Hin).
        simpl in Hfiled. congruence.
      + by apply bool_decide_eq_false in Hno. }
  destruct (truthy (u_name updates)) as [newName|] eqn:Hname.
  - destruct (bool_decide (newName = t_name topic)) eqn:Hsame.
    + apply bool_decide_eq_true in Hsame.
      destruct (u_name updates); apply Hrename; by left.
    + destruct (List.find _ (OMap.values (topics idx))) eqn:Hfind.
      * destruct (u_name updates); [exact Hp0 | done].
      * destruct (u_name updates); apply Hrename; by right.
  - destruct (u_name updates); apply Hrename; by left.
Qed.

Lemma deleteTopic_distinctNames (env : Env) (topicId : string) :
  preserves (fun s => distinctNames (tm s)) (deleteTopic env topicId).
Proof.
  assert (Hdel : preserves (fun s => distinctNames (tm s))
    (onTm (fun m =>
       match topicsIndex m with
       | Some idx =>
           setTopicsIndex
             (Some (mkIndex (OMap.delete topicId (topics idx))
                            (modelName idx) (now env))) m
       | None => m
       end))).
  { apply preserves_modify. intros [m w]. unfold distinctNames. simpl.
    destruct (topicsIndex m) as [idx|] eqn:Hidx; simpl; rewrite ?Hidx; [|done].
    intros (Hk & Hfiled & Hn). repeat split.
    - rewrite omap_keys_delete. by apply NoDup_filter.
    - by apply filed_delete.
    - exact (sublist_NoDup _ _ Hn (foldedNames_delete _ _)). }
  unfold deleteTopic, deleteStore, saveTopicsIndex, notifyAgentCacheCleanup.
  repeat first [apply Hdel | unfold onTm, onWorld; names_step].
Qed.

(** X9.  Every call other than [importTopic], whether it returns or
    throws, keeps the local topics under pairwise distinct names up to
    case (and each filed once, under its own identifier). *)
Theorem X9_local_names_stay_distinct (env : Env) (c : Command) (s : Sys) :
  keepsNames c ->
  distinctNames (tm s) ->
  distinctNames (tm (run env c s).2).
Proof.
  intros Hc. revert s.
  change (preserves (fun s => distinctNames (tm s)) (run env c)).
  destruct c; simpl in *; try done.
  - apply preserves_bind; [apply createTopic_distinctNames | intros; names_step].
  - apply preserves_bind; [apply updateTopic_distinctNames | intros; names_step].
  - apply deleteTopic_distinctNames.
  - unfold deleteTopicVectorStore, deleteStore, notifyAgentCacheCleanup,
      onTm, onWorld.
    repeat names_step.
  - apply preserves_bind; [apply tail_distinctNames | intros; names_step].
  - unfold removeDocumentByFilePath, getVectorStore,
      ensureEmbeddingModelCompatibility, loadStore, deleteRows,
      saveTopicsIndex, saveTopicDocuments, removeFolderChunkStats, onTm, onWorld.
    repeat names_step.
  - unfold exportTopic, onTm, onWorld. repeat names_step.
  - unfold getVectorStore, ensureEmbeddingModelCompatibility, loadStore,
      onTm, onWorld.
    repeat names_step.
Qed.

End NameFacts.

Lemma afterAdd_distinctNames :
  Lifecycle.distinctNames (platform := Posix.posix)
    (Registry.tm Examples.afterAdd).
Proof.
  unfold Lifecycle.distinctNames.
  assert (Hidx : Registry.topicsIndex (Registry.tm Examples.afterAdd)
                 = Some Cases.docsIndex) by (vm_compute; reflexivity).
  rewrite Hidx.
  assert (Hkeys : OMap.keys (Registry.topics Cases.docsIndex)
                  = [Examples.docsId]) by (vm_compute; reflexivity).
  assert (Hnames : Lifecycle.foldedNames (platform := Posix.posix)
                     (Registry.topics Cases.docsIndex) = ["docs"])
    by (vm_compute; reflexivity).
  rewrite Hkeys, Hnames. repeat split; try apply NoDup_singleton.
  vm_compute. by repeat constructor.
Qed.

Lemma X9_witness :
  Lifecycle.distinctNames (platform := Posix.posix)
    (Registry.tm
       (Lifecycle.run (platform := Posix.posix) Examples.later
          (Lifecycle.UpdateTopic Examples.docsId
             (Registry.mkUpdates (Some "Guides") None))
          Examples.afterAdd).2).
Proof.
  apply (X9_local_names_stay_distinct (platform := Posix.posix)
           Examples.later
           (Lifecycle.UpdateTopic Examples.docsId
              (Registry.mkUpdates (Some "Guides") None))
           Examples.afterAdd).
  - exact I.
  - apply afterAdd_distinctNames.
Defined.

(** ** Restart under another model *)

Section RestartFacts.
Import Registry Lifecycle.
Context {platform : Platform}.

(** The loop of [reinitializeWithNewModel] over the topic identifiers: the
    callback, when one is registered, is called with each in turn; its
    throwing is of no consequence. *)
Lemma notify_loop (env : Env) (l : list string) (i : Instance) :
  forEach l (fun topicId => onSys (notifyAgentCacheCleanup env topicId)) i
  = (Ok tt,
     mkInstance
       (mkSys (tm (sys i))
          (if agentCacheCleanupCallback (tm (sys i))
           then setCleanupCalls (cleanupCalls (world (sys i)) ++ l)
                  (world (sys i))
           else world (sys i)))
       (isInitialized i) (folderStatsFiles i) (indexFileNull i)).
Proof.
  revert i. induction l as [|x rest IH]; intros [[m w] b files isNull]; simpl.
  - destruct (agentCacheCleanupCallback m); [|done].
    rewrite app_nil_r. by destruct w.
  - rewrite run_bind. unfold onSys at 1, notifyAgentCacheCleanup at 1, onWorld.
    mrun. destruct (agentCacheCleanupCallback m) eqn:Hcb; mrun.
    + destruct (callbackThrows env); mrun; rewrite IH; simpl; rewrite Hcb;
        by rewrite <- app_assoc.
    + rewrite IH. simpl. by rewrite Hcb.
Qed.

(** X10.  A [reinitializeWithNewModel] that returns has emptied the
    vector-store cache, called the cleanup callback once for every local
    topic in index order, labelled the index and a new factory with the
    active model and written the index out; the topics, their documents,
    their folder statistics and the stored vectors, with the model each
    topic was indexed under, are as before. *)
Theorem X10_restart_relabels_and_keeps_the_topics (e : StartEnv)
    (i i' : Instance) (idx : TopicsIndex) :
  topicsIndex (tm (sys i)) = Some idx ->
  reinitializeWithNewModel e i = (Ok tt, i') ->
  let relabelled :=
    mkIndex (topics idx) (currentModel (world (sys i))) (now (callEnv e)) in
  tm (sys i')
  = setVectorStoreFactory (Some (currentModel (world (sys i))))
      (setTopicsIndex (Some relabelled)
         (setVectorStoreCache ∅ (tm (sys i))))
  /\ world (sys i')
     = setIndexFile (Some relabelled)
         (if agentCacheCleanupCallback (tm (sys i))
          then setCleanupCalls
                 (cleanupCalls (world (sys i)) ++ OMap.keys (topics idx))
                 (world (sys i))
          else world (sys i))
  /\ isInitialized i' = isInitialized i
  /\ folderStatsFiles i' = folderStatsFiles i.
Proof.
  destruct i as [[m w] b files isNull]. simpl. intros Hidx.
  unfold reinitializeWithNewModel. rewrite run_bind_gets. simpl. rewrite Hidx.
  rewrite run_bind. unfold onSys at 1, onTm at 1, modify at 1.
  cbn [fst snd sys isInitialized folderStatsFiles tm world].
  rewrite run_bind, notify_loop. cbn [fst snd sys isInitialized folderStatsFiles tm world].
  rewrite run_bind. unfold initializePipeline.
  destruct (pipelineInitialize e); unfold throw, ret; [done|].
  rewrite !run_bind_gets. simpl. rewrite Hidx.
  unfold onSys, onTm, saveTopicsIndex, onWorld. mrun.
  destruct (failSaveIndex (callEnv e)); mrun; [done|].
  intros [= <-]. simpl.
  by repeat split; destruct (agentCacheCleanupCallback m).
Qed.

(** ** A changed file is indexed again *)

Lemma omap_delete_absent {V : Type} (k : string) (m : list (string * V)) :
  k ∉ OMap.keys m -> OMap.delete k m = m.
Proof.
  induction m as [|[k' v'] r IH]; simpl; [done|].
  intros [Hne Hr]%not_elem_of_cons. rewrite decide_False by done.
  by rewrite IH.
Qed.

(** Deleting the first document recorded under a path takes the head off
    the list of the documents recorded under it, and leaves the lists of
    the other paths alone. *)
Lemma delete_first_under (filePath : string) (docs : list (string * TopicDocument))
    (doc : TopicDocument) :
  keyedById docs ->
  List.find (fun d => bool_decide (d_filePath d = filePath)) (OMap.values docs)
  = Some doc ->
  d_filePath doc = filePath
  /\ filter (fun d => d_filePath d = filePath)
        (OMap.values (OMap.delete (d_id doc) docs))
     = tail (filter (fun d => d_filePath d = filePath) (OMap.values docs))
  /\ forall other, other <> filePath ->
       filter (fun d => d_filePath d = other)
         (OMap.values (OMap.delete (d_id doc) docs))
       = filter (fun d => d_filePath d = other) (OMap.values docs).
Proof.
  intros [Hk Hnd]. induction docs as [|[k d] r IH]; simpl; [done|].
  apply Forall_cons in Hk as [Hhd Htl]. simpl in Hhd, Hnd. subst k.
  apply NoDup_cons in Hnd as [Hfresh Hnd].
  case_bool_decide as Hpath.
  - intros [= <-]. rewrite decide_True by done.
    rewrite omap_delete_absent by done. split; [done|]. split.
    + by rewrite filter_cons_True.
    + intros other Hne. rewrite filter_cons_False; [done|]. congruence.
  - intros Hfind. destruct (IH Htl Hnd Hfind) as (Hp & Hsame & Hothers).
    assert (Hne : d_id doc <> d_id d).
    { intros Heq. apply Hfresh. rewrite <- Heq.
      apply find_some in Hfind as [Hin _]. apply list_elem_of_In in Hin.
      apply list_elem_of_fmap in Hin as ([k' d'] & -> & Hin). simpl.
      rewrite Forall_forall in Htl. specialize (Htl _ Hin). simpl in Htl.
      subst k'. apply list_elem_of_fmap. by exists (d_id d', d'). }
    rewrite decide_False by done. simpl. split; [done|]. split.
    + by rewrite !filter_cons_False.
    + intros other Hother. specialize (Hothers other Hother).
      destruct (decide (d_filePath d = other)).
      * rewrite !filter_cons_True by done. by rewrite Hothers.
      * by rewrite !filter_cons_False.
Qed.

(** The document map of the topic after a [removeDocumentByFilePath] that
    returns. *)
Lemma removeDocumentByFilePath_documents (env : Env) (topicId filePath : string)
    (s s1 : Sys) (r : bool) (docs : list (string * TopicDocument)) :
  topicDocuments (tm s) !! topicId = Some docs ->
  removeDocumentByFilePath env topicId filePath s = (Ok r, s1) ->
  is_Some (localTopic (tm s1) topicId)
  /\ topicDocuments (tm s1) !! topicId
     = Some (match documentAt (tm s) topicId filePath with
             | Some doc => OMap.delete (d_id doc) docs
             | None => docs
             end).
Proof.
  intros Hd. unfold removeDocumentByFilePath, documentAt.
  rewrite run_bind_gets, Hd.
  destruct (topicsIndex (tm s)) as [idx|] eqn:Hidx; [|done].
  destruct (vectorStoreFactory (tm s)) as [factory|]; [|done].
  destruct (OMap.get topicId (topics idx)) as [t|] eqn:Ht; [|done].
  destruct (find _ (OMap.values docs)) as [doc|].
  2: { intros [= <- <-]. unfold localTopic. rewrite Hidx, Ht. by split. }
  rewrite run_bind. unfold onTm at 1, modify at 1. cbn [fst snd].
  rewrite run_bind.
  match goal with
  | |- context [getVectorStore env topicId ?s0] =>
      pose proof (getVectorStore_frame env topicId s0) as [Hw Hm];
      destruct (getVectorStore env topicId s0) as [[store|e] [m2 w2]];
      [|done]
  end.
  cbn [fst snd tm world] in *. subst w2. rewrite Hm. clear Hm.
  destruct s as [m w]. cbn [tm world] in *.
  unfold deleteRows, assignTopic, saveTopicsIndex, saveTopicDocuments,
    removeFolderChunkStats, onTm, onWorld, localTopic.
  destruct store as [st|]; mrun.
  - destruct (failTableDelete env); mrun;
      rewrite ?Hidx, ?Ht; mrun;
      (destruct (failSaveIndex env); mrun; [done|]);
      rewrite ?lookup_insert_eq; mrun;
      (destruct (failSaveDocuments env); mrun; [done|]);
      try (destruct (vs_root st); mrun);
      (destruct (folderChunkStats m !! topicId) eqn:Hfs; mrun);
      intros [= <- <-]; simpl;
      rewrite ?lookup_insert_eq, ?omap_get_set_eq; by split.
  - rewrite ?Hidx, ?Ht; mrun;
      (destruct (failSaveIndex env); mrun; [done|]);
      rewrite ?lookup_insert_eq; mrun;
      (destruct (failSaveDocuments env); mrun; [done|]);
      (destruct (folderChunkStats m !! topicId) eqn:Hfs; mrun);
      intros [= <- <-]; simpl;
      rewrite ?lookup_insert_eq, ?omap_get_set_eq; by split.
Qed.

(** The document map of the topic after an [addDocuments] of one file that
    the pipeline stores. *)
Lemma addDocuments_one_documents (env : Env) (topicId filePath : string)
    (s s2 : Sys) (added : list TopicDocument) (chunksStored : Z)
    (docs : list (string * TopicDocument)) :
  topicDocuments (tm s) !! topicId = Some docs ->
  processDocument env filePath = Stored chunksStored ->
  addDocuments env topicId [filePath] s = (Ok added, s2) ->
  added = [recorded env topicId filePath chunksStored]
  /\ topicDocuments (tm s2) !! topicId
     = Some (OMap.set (generateDocumentId env 0)
               (recorded env topicId filePath chunksStored) docs).
Proof.
  intros Hd Hstored. destruct s as [m w]. simpl in Hd.
  unfold addDocuments, addDocumentsFrom, addEach, updateFolderChunkStats,
    assignTopic, saveTopicsIndex, saveTopicDocuments, onTm, onWorld, recorded.
  rewrite Hstored. mrun.
  destruct (topicsIndex m) as [idx|] eqn:Hidx; [|done].
  destruct (OMap.get topicId (topics idx)) as [t|] eqn:Ht; [|done].
  mrun. rewrite Hidx, Hd. mrun.
  destruct (failSaveIndex env); mrun; [done|].
  rewrite lookup_insert_eq. mrun.
  destruct (failSaveDocuments env); mrun; [done|].
  intros [= <- <-]. simpl. by rewrite lookup_insert_eq.
Qed.

(** X11.  The watcher's treatment of a changed file, a removal by path
    followed by an addition of the file: when both calls return and the
    pipeline stores the file, the documents recorded under the path are
    those recorded before without the first, followed by the new document
    with the new chunk count, so that a path recorded at most once before
    is recorded exactly once after; the documents recorded under the other
    paths are as before, and the topic's count agrees with its map.  The
    identifier generated for the new document is assumed not to be in use. *)
Theorem X11_changed_file_replaces_its_document (envA envB : Env)
    (topicId filePath : string) (s s1 s2 : Sys) (r : bool)
    (added : list TopicDocument) (chunksStored : Z)
    (docs : list (string * TopicDocument)) :
  topicDocuments (tm s) !! topicId = Some docs ->
  keyedById docs ->
  generateDocumentId envB 0 ∉ OMap.keys docs ->
  removeDocumentByFilePath envA topicId filePath s = (Ok r, s1) ->
  processDocument envB filePath = Stored chunksStored ->
  addDocuments envB topicId [filePath] s1 = (Ok added, s2) ->
  documentsUnder (tm s2) topicId filePath
  = tail (documentsUnder (tm s) topicId filePath)
    ++ [recorded envB topicId filePath chunksStored]
  /\ (forall other, other <> filePath ->
        documentsUnder (tm s2) topicId other
        = documentsUnder (tm s) topicId other)
  /\ countAgrees (tm s2) topicId.
Proof.
  intros Hd Hkeyed Hfresh Hremove Hstored Hadd.
  destruct (removeDocumentByFilePath_documents _ _ _ _ _ _ _ Hd Hremove)
    as ([t1 Hlocal] & Hd1).
  destruct (addDocuments_one_documents _ _ _ _ _ _ _ _ Hd1 Hstored Hadd)
    as (_ & Hd2).
  assert (Hcount : countAgrees (tm s2) topicId).
  { unfold localTopic in Hlocal.
    destruct (topicsIndex (tm s1)) as [idx1|] eqn:Hidx1; [|done].
    pose proof (addDocuments_recounts 0 envB topicId [filePath] s1 idx1 t1
                  Hidx1 Hlocal) as Hc.
    unfold addDocuments in Hadd. by rewrite Hadd in Hc. }
  unfold documentsUnder. rewrite Hd, Hd2. unfold documentAt. rewrite Hd.
  set (new := recorded envB topicId filePath chunksStored).
  assert (Hset : forall m : list (string * TopicDocument),
    OMap.keys m ⊆ OMap.keys docs ->
    OMap.values (OMap.set (generateDocumentId envB 0) new m)
    = OMap.values m ++ [new]).
  { intros m Hsub. rewrite omap_set_fresh.
    - unfold OMap.values. by rewrite map_app.
    - intros Hin. by apply Hfresh, Hsub. }
  assert (Hpath : d_filePath new = filePath) by done.
  destruct (find _ (OMap.values docs)) as [doc|] eqn:Hfind.
  - destruct (delete_first_under filePath docs doc Hkeyed Hfind)
      as (_ & Hsame & Hothers).
    rewrite Hset.
    2: { rewrite omap_keys_delete. intros k Hin.
         by apply list_elem_of_filter in Hin as [_ Hin]. }
    split; [|split; [|done]].
    + rewrite filter_app, Hsame. by rewrite filter_cons_True.
    + intros other Hne. rewrite filter_app, (Hothers other Hne).
      rewrite filter_cons_False by (rewrite Hpath; congruence).
      by rewrite app_nil_r.
  - rewrite Hset by done. split; [|split; [|done]].
    + rewrite filter_app, filter_cons_True by done.
      assert (Hnone : filter (fun d => d_filePath d = filePath)
                        (OMap.values docs) = []).
      { clear -Hfind. induction (OMap.values docs) as [|d l IH]; [done|].
        simpl in Hfind. case_bool_decide; [done|].
        rewrite filter_cons_False by done. by apply IH. }
      by rewrite Hnone.
    + intros other Hne. rewrite filter_app.
      rewrite filter_cons_False by (rewrite Hpath; congruence).
      by rewrite app_nil_r.
Qed.

End RestartFacts.

Lemma X10_witness :
  Registry.modelName
    <$> Registry.topicsIndex
          (Registry.tm
             (Lifecycle.sys
                (Lifecycle.reinitializeWithNewModel Cases.quietStart
                   Cases.running).2))
  = Some "model-b"
  /\ Registry.cleanupCalls
       (Registry.world
          (Lifecycle.sys
             (Lifecycle.reinitializeWithNewModel Cases.quietStart
                Cases.running).2))
     = [Examples.docsId].
Proof.
  pose proof (X10_restart_relabels_and_keeps_the_topics Cases.quietStart
                Cases.running
                (Lifecycle.reinitializeWithNewModel Cases.quietStart
                   Cases.running).2
                Cases.docsIndex) as Hrestart.
  destruct Hrestart as (Htm & Hworld & _).
  - vm_compute. reflexivity.
  - vm_compute. reflexivity.
  - rewrite Htm, Hworld. split; vm_compute; reflexivity.
Defined.

Lemma introDocs_keyed : Lifecycle.keyedById Cases.introDocs.
Proof.
  split.
  - by repeat constructor.
  - apply NoDup_singleton.
Qed.

Lemma X11_witness :
  Lifecycle.documentsUnder (Registry.tm Cases.introReindexed) Examples.docsId
    Examples.introFile
  = [Lifecycle.recorded (platform := Posix.posix) Examples.later
       Examples.docsId Examples.introFile 10]
  /\ Registry.countAgrees (Registry.tm Cases.introReindexed) Examples.docsId.
Proof.
  destruct (X11_changed_file_replaces_its_document (platform := Posix.posix)
              Examples.later Examples.later Examples.docsId Examples.introFile
              Examples.afterAdd Cases.introRemoved Cases.introReindexed true
              [Lifecycle.recorded (platform := Posix.posix) Examples.later
                 Examples.docsId Examples.introFile 10]
              10 Cases.introDocs) as (Hunder & _ & Hcount).
  - vm_compute. reflexivity.
  - apply introDocs_keyed.
  - vm_compute. intros Hin. apply list_elem_of_singleton in Hin. discriminate.
  - vm_compute. reflexivity.
  - reflexivity.
  - vm_compute. reflexivity.
  - split; [|exact Hcount]. rewrite Hunder. vm_compute. reflexivity.
Defined.

(* ===================================================================== *)
(** ** The file watcher: folders, the queue of changes and its batch *)
(* ===================================================================== *)

Section WatcherFacts.
Context {platform : Platform}.
Import Watcher.

Lemma seenThen_NoDup (l seen : list string) :
  NoDup seen -> NoDup (seenThen seen l).
Proof.
  revert seen. induction l as [|x l IH]; intros seen Hnd; simpl; [done|].
  apply IH. case_bool_decide; [done|].
  apply NoDup_app. repeat split; [done| |apply NoDup_singleton].
  intros y Hy Hy'. apply list_elem_of_singleton in Hy'. by subst.
Qed.

Lemma seenThen_elem (l seen : list string) (x : string) :
  x ∈ seenThen seen l <-> x ∈ seen \/ x ∈ l.
Proof.
  revert seen. induction l as [|y l IH]; intros seen; simpl.
  - split; [by left | intros [?|H]; [done | by apply elem_of_nil in H]].
  - rewrite IH, elem_of_cons. case_bool_decide as Hy.
    + split; [intros [?|?]; auto | intros [?|[->|?]]; auto].
    + rewrite elem_of_app, list_elem_of_singleton.
      split; [intros [[?|?]|?]; auto | intros [?|[?|?]]; auto].
Qed.

Lemma seenThen_fresh (l seen : list string) :
  NoDup (seen ++ l) -> seenThen seen l = seen ++ l.
Proof.
  revert seen. induction l as [|x l IH]; intros seen Hnd; simpl.
  - by rewrite app_nil_r.
  - assert (Hx : x ∉ seen).
    { apply NoDup_app in Hnd as (_ & Hdis & _). intros Hin.
      apply (Hdis x Hin). apply list_elem_of_here. }
    rewrite bool_decide_eq_false_2 by done.
    rewrite IH; rewrite <- app_assoc; done.
Qed.

Lemma unique_NoDup (l : list string) : NoDup (unique l).
Proof. apply seenThen_NoDup, NoDup_nil_2. Qed.

Lemma unique_elem (l : list string) (x : string) : x ∈ unique l <-> x ∈ l.
Proof.
  unfold unique. rewrite (seenThen_elem l [] x).
  split; [intros [H|?]; [by apply elem_of_nil in H | done] | by right].
Qed.

Lemma unique_app (a b : list string) :
  NoDup a -> unique (a ++ b) = seenThen a b.
Proof.
  intros Hnd. unfold unique. rewrite foldl_app.
  change (foldl _ [] a) with (seenThen [] a).
  by rewrite (seenThen_fresh a []).
Qed.

(** *** [resolveFolderPath] *)

Lemma resolveFolderPath_inside (workspaceFolders : list string) (folder : string) :
  nonEmpty (resolveFolderPath workspaceFolders folder) = true ->
  exists wsFolder,
    wsFolder ∈ workspaceFolders
    /\ startsWith (resolveFolderPath workspaceFolders folder) wsFolder = true.
Proof.
  unfold resolveFolderPath.
  destruct workspaceFolders as [|workspaceRoot others]; [done|].
  destruct (path_isAbsolute folder);
    match goal with
    | |- context [existsb ?p ?l] => destruct (existsb p l) eqn:Hin
    end; try done; intros _;
    apply existsb_exists in Hin as (wsFolder & Hin & Hstarts);
    exists wsFolder; by rewrite list_elem_of_In.
Qed.

(** X13. [normalizeWatchFolders] returns every folder once, none of them
    empty, and each of them starts with the path of a workspace folder;
    without a workspace folder it returns nothing, whatever is
    configured. *)
Theorem X13_watch_folders_stay_inside_the_workspace
    (workspaceFolders configuredFolders : list string) (legacyFolder : string) :
  let folders :=
    normalizeWatchFolders workspaceFolders configuredFolders legacyFolder in
  NoDup folders
  /\ Forall (fun folder =>
               nonEmpty folder = true
               /\ exists wsFolder,
                    wsFolder ∈ workspaceFolders
                    /\ startsWith folder wsFolder = true) folders
  /\ (workspaceFolders = [] -> folders = []).
Proof.
  simpl. unfold normalizeWatchFolders. split; [apply unique_NoDup|]. split.
  - apply Forall_forall. intros folder Hin.
    apply unique_elem, list_elem_of_filter in Hin as [Hne Hin].
    split; [done|].
    apply list_elem_of_In, in_map_iff in Hin as (raw & <- & _).
    by apply resolveFolderPath_inside.
  - intros ->.
    match goal with
    | |- unique ?l = [] => assert (Hnone : l = []); [|by rewrite Hnone]
    end.
    match goal with
    | |- filter _ (map _ ?raw) = [] => generalize raw
    end.
    intros raw. induction raw as [|folder raw IH]; [done|].
    simpl. by rewrite filter_cons_False.
Qed.

(** *** [handleFileChange] *)

Lemma accepted_cons (w : FileWatcherService) (e : FileEvent)
    (events : list FileEvent) :
  accepted w (e :: events)
  = if supported w e.1.2 then e.1.2 :: accepted w events else accepted w events.
Proof.
  unfold accepted. destruct (supported w e.1.2) eqn:Hs.
  - by rewrite filter_cons_True.
  - rewrite filter_cons_False; [done|]. by rewrite Hs.
Qed.

Lemma lastAccepted_cons (w : FileWatcherService) (e : FileEvent)
    (events : list FileEvent) :
  lastAccepted w (e :: events)
  = if supported w e.1.2
    then Some (default e.1.1 (lastAccepted w events))
    else lastAccepted w events.
Proof.
  unfold lastAccepted. destruct (supported w e.1.2) eqn:Hs.
  - rewrite filter_cons_True by done.
    destruct (filter _ events) as [|e' rest] eqn:Hf; [done|].
    rewrite last_cons. by destruct (last (e' :: rest)).
  - rewrite filter_cons_False; [done|]. by rewrite Hs.
Qed.

Lemma supported_same (w w' : FileWatcherService) (filePath : string) :
  includeExtensions w' = includeExtensions w ->
  supported w' filePath = supported w filePath.
Proof. unfold supported. by intros ->. Qed.

Lemma accepted_same (w w' : FileWatcherService) (events : list FileEvent) :
  includeExtensions w' = includeExtensions w ->
  accepted w' events = accepted w events
  /\ lastAccepted w' events = lastAccepted w events.
Proof.
  intros Hext. induction events as [|e events [IHa IHl]]; [done|].
  by rewrite !accepted_cons, !lastAccepted_cons, IHa, IHl,
    (supported_same w w' _ Hext).
Qed.

Lemma handleAll_run (events : list FileEvent) (w w' : FileWatcherService) :
  handleAll events w = Some w' ->
  w' = mkWatcher (watchFolders w) (includeExtensions w) (defaultTopicId w)
         (watchOnChanges w)
         (match lastAccepted w events with
          | Some t => Some (t + 2000)
          | None => updateTimer w
          end)
         (seenThen (pendingChanges w) (accepted w events)).
Proof.
  revert w. induction events as [|e events IH]; intros w.
  - intros [= <-]. by destruct w.
  - simpl. destruct (stillPending w e.1.1); [|done]. intros Hrun.
    apply IH in Hrun. subst w'. rewrite accepted_cons, lastAccepted_cons.
    unfold handleFileChange.
    destruct (supported w e.1.2) eqn:Hs; simpl; [|done].
    set (w1 := mkWatcher (watchFolders w) (includeExtensions w)
                 (defaultTopicId w) (watchOnChanges w) (Some (e.1.1 + 2000)) _).
    destruct (accepted_same w w1 events eq_refl) as [-> ->].
    simpl. by destruct (lastAccepted w events).
Qed.

Lemma handleAll_late (events : list FileEvent) (w w' : FileWatcherService)
    (late : FileEvent) (after : list FileEvent) :
  handleAll events w = Some w' ->
  stillPending w' late.1.1 = false ->
  handleAll (events ++ late :: after) w = None.
Proof.
  revert w. induction events as [|e events IH]; intros w; simpl.
  - intros [= ->] Hdue. by rewrite Hdue.
  - destruct (stillPending w e.1.1); [apply IH | done].
Qed.

(** X14. A burst of file events, each handled before the timer armed at
    that moment is due, leaves in the queue, after what it held, each file
    with a supported extension once, in the order in which the files were
    first reported, whatever the kind of the events; the timer stands two
    seconds after the last such event, or where it stood when there was
    none; nothing else of the service changes.  An event that comes when
    the timer is due ends the burst. *)
Theorem X14_events_are_queued_once_and_debounced
    (events : list FileEvent) (w w' : FileWatcherService) :
  NoDup (pendingChanges w) ->
  handleAll events w = Some w' ->
  pendingChanges w' = unique (pendingChanges w ++ accepted w events)
  /\ updateTimer w'
     = match lastAccepted w events with
       | Some t => Some (t + 2000)
       | None => updateTimer w
       end
  /\ watchFolders w' = watchFolders w
  /\ includeExtensions w' = includeExtensions w
  /\ defaultTopicId w' = defaultTopicId w
  /\ watchOnChanges w' = watchOnChanges w
  /\ forall (late : FileEvent) (after : list FileEvent),
       stillPending w' late.1.1 = false ->
       handleAll (events ++ late :: after) w = None.
Proof.
  intros Hnd Hrun. split; [|split; [|split; [|split; [|split; [|split]]]]];
    try (pose proof (handleAll_run events w w' Hrun) as ->; simpl;
         first [by rewrite unique_app | done]).
  intros late after Hdue. by eapply handleAll_late.
Qed.

(** *** [processQueuedChanges] *)

Lemma start_inOrder (topic : string) (files : list string) :
  Tracker.inOrder (Tracker.start topic files).
Proof. by unfold Tracker.inOrder. Qed.

Lemma takeQueuedChanges_batch (accessible : string -> bool)
    (w w' : FileWatcherService) (b : Tracker.Batch) :
  takeQueuedChanges accessible w = (w', Some b) ->
  pendingChanges w' = [] /\ updateTimer w' = None
  /\ exists topicId,
       truthy (defaultTopicId w) = Some topicId
       /\ b = Tracker.start topicId
                (filter (fun f => accessible f = true) (pendingChanges w)).
Proof.
  unfold takeQueuedChanges.
  destruct (pendingChanges w) as [|f rest] eqn:Hp; [by destruct (truthy _)|].
  destruct (truthy (defaultTopicId w)) as [topicId|]; [|done].
  destruct (filter _ (f :: rest)) eqn:Hf; [done|].
  intros [= <- <-]. repeat split. by exists topicId.
Qed.

(** X15. When [processQueuedChanges] starts a batch, the queue is empty
    and the timer cleared.  However the batch is then paused, resumed and
    run, the files it has handed to [removeDocumentByFilePath], and those
    handed to [addDocuments], are the first of the queued files that could
    still be accessed, in queue order; a queued file that could not be
    accessed is handed to neither; and once the batch has finished, every
    accessible queued file has been handed to both, once. *)
Theorem X15_batch_takes_the_accessible_queued_files
    (accessible : string -> bool) (w w' : FileWatcherService)
    (b : Tracker.Batch) (t : Tracker.ProgressTracker)
    (es : list Tracker.Event) :
  takeQueuedChanges accessible w = (w', Some b) ->
  let existing := filter (fun f => accessible f = true) (pendingChanges w) in
  let s := Tracker.steps (Tracker.mkState t b) es in
  pendingChanges w' = [] /\ updateTimer w' = None
  /\ Tracker.removals (Tracker.batch s) `prefix_of` existing
  /\ Tracker.additions (Tracker.batch s) `prefix_of` existing
  /\ (forall f, accessible f = false ->
        (f ∉ Tracker.removals (Tracker.batch s))
        /\ (f ∉ Tracker.additions (Tracker.batch s)))
  /\ (Tracker.position (Tracker.batch s) = Tracker.Finished ->
      Tracker.removals (Tracker.batch s) = existing
      /\ Tracker.additions (Tracker.batch s) = existing).
Proof.
  intros Htake existing.
  apply takeQueuedChanges_batch in Htake as (Hq & Ht & topicId & _ & ->).
  fold existing. intros s.
  pose proof (steps_inOrder es (Tracker.mkState t (Tracker.start topicId existing))
                (start_inOrder topicId existing)) as [Hr Ha].
  rewrite steps_existingFiles in Hr, Ha. simpl in Hr, Ha. fold s in Hr, Ha.
  assert (Hpr : Tracker.removals (Tracker.batch s) `prefix_of` existing).
  { rewrite <- Hr. by eexists. }
  assert (Hpa : Tracker.additions (Tracker.batch s) `prefix_of` existing).
  { rewrite <- Ha. by eexists. }
  assert (Hskip : forall (l : list string) (f : string),
            l `prefix_of` existing -> accessible f = false -> f ∉ l).
  { intros l f [k Hk] Hno Hin.
    assert (Hf : f ∈ existing) by (rewrite Hk; apply elem_of_app; by left).
    apply list_elem_of_filter in Hf as [Hacc _]. congruence. }
  split; [done|]. split; [done|]. split; [done|]. split; [done|]. split.
  - intros f Hno. split; by eapply Hskip.
  - intros Hfin. unfold Tracker.pending in Hr, Ha. rewrite Hfin in Hr, Ha.
    by rewrite app_nil_r in Hr, Ha.
Qed.

End WatcherFacts.

Lemma X14_witness :
  Watcher.pendingChanges Cases.queued = ["/w/docs/a.md"; "/w/docs/c.txt"]
  /\ Watcher.updateTimer Cases.queued = Some 4500
  /\ Watcher.handleAll (platform := Posix.posix) Cases.lateDeletion
       Cases.docsWatcher = None.
Proof.
  destruct (X14_events_are_queued_once_and_debounced (platform := Posix.posix)
              Cases.burst Cases.docsWatcher Cases.queued)
    as (Hq & Ht & _).
  - apply NoDup_nil_2.
  - vm_compute. reflexivity.
  - destruct (X14_events_are_queued_once_and_debounced
                (platform := Posix.posix)
                [(1000, "/w/docs/a.md", Watcher.change);
                 (1800, "/w/docs/a.md", Watcher.change)]
                Cases.docsWatcher
                (Watcher.mkWatcher ["/w/docs"] Watcher.INCLUDE_EXTENSIONS
                   (Some "topic-1") true (Some 3800) ["/w/docs/a.md"]))
      as (_ & _ & _ & _ & _ & _ & Hlate);
      [apply NoDup_nil_2 | vm_compute; reflexivity |].
    split; [rewrite Hq; vm_compute; reflexivity|].
    split; [rewrite Ht; vm_compute; reflexivity|].
    apply (Hlate (4800, "/w/docs/c.txt", Watcher.delete) []).
    vm_compute. reflexivity.
Defined.

Lemma X15_witness :
  let s := Tracker.steps (Tracker.mkState Tracker.initial Cases.queuedBatch)
             Cases.untilDone in
  Tracker.removals (Tracker.batch s) = ["/w/docs/a.md"]
  /\ Tracker.additions (Tracker.batch s) = ["/w/docs/a.md"].
Proof.
  destruct (X15_batch_takes_the_accessible_queued_files
              Cases.stillThere Cases.queued
              Cases.docsWatcher Cases.queuedBatch
              Tracker.initial Cases.untilDone) as (_ & _ & _ & _ & _ & Hdone).
  - vm_compute. reflexivity.
  - apply Hdone. vm_compute. reflexivity.
Defined.

(* ===================================================================== *)
(** ** Request routing and the read-only endpoints *)
(* ===================================================================== *)

Section RoutesFacts.
Context {platform : Platform}.
Import Registry Rest Routes.


(** [runQuery] touches nothing of the manager but the vector-store cache,
    and leaves [topicManager] set as it was. *)
Lemma runQuery_frame (e : SearchEnv) (searchQuery : QueryValue) (topK : Z)
    (targetTopic : Topic) (n : Node) :
  topicManager (server (runQuery e searchQuery topK targetTopic n).2)
  = topicManager (server n)
  /\ tm (Rest.sys (runQuery e searchQuery topK targetTopic n).2)
     = setVectorStoreCache
         (vectorStoreCache (tm (Rest.sys (runQuery e searchQuery topK targetTopic n).2)))
         (tm (Rest.sys n)).
Proof.
  unfold runQuery.
  pose proof (getVectorStore_frame (callEnv e) (t_id targetTopic) (Rest.sys n))
    as [_ Hm].
  destruct (getVectorStore _ _ _) as [[[st|]|err] s']; simpl in Hm;
    repeat case_match; simpl; (split; [done|]);
    first [exact Hm | by destruct (tm (Rest.sys n))].
Qed.

Lemma setWorldModel_same (w : World) : setWorldModel (currentModel w) w = w.
Proof. by destruct w. Qed.

Lemma setVectorStoreCache_twice (c c' : gmap string VectorStore) (m : TopicManager) :
  setVectorStoreCache c (setVectorStoreCache c' m) = setVectorStoreCache c m.
Proof. done. Qed.

(** A search changes at most the agent cache, the vector-store cache and
    the active model. *)
Lemma handleSearch_frame (e : SearchEnv) (query : ParsedUrlQuery) (n : Node) :
  topicManager (server (handleSearch e query n).2) = topicManager (server n)
  /\ tm (Rest.sys (handleSearch e query n).2)
     = setVectorStoreCache
         (vectorStoreCache (tm (Rest.sys (handleSearch e query n).2)))
         (tm (Rest.sys n))
  /\ world (Rest.sys (handleSearch e query n).2)
     = setWorldModel (currentModel (world (Rest.sys (handleSearch e query n).2)))
         (world (Rest.sys n)).
Proof.
  assert (Hsame : topicManager (server n) = topicManager (server n)
    /\ tm (Rest.sys n)
       = setVectorStoreCache (vectorStoreCache (tm (Rest.sys n))) (tm (Rest.sys n))
    /\ world (Rest.sys n)
       = setWorldModel (currentModel (world (Rest.sys n))) (world (Rest.sys n))).
  { split; [done|]. split; [by destruct (tm (Rest.sys n))|].
    by rewrite setWorldModel_same. }
  assert (Hquery : forall searchQuery topK targetTopic n0,
    topicManager (server n0) = topicManager (server n) ->
    tm (Rest.sys n0) = tm (Rest.sys n) ->
    world (Rest.sys n0)
    = setWorldModel (currentModel (world (Rest.sys n0))) (world (Rest.sys n)) ->
    let n' := (runQuery e searchQuery topK targetTopic n0).2 in
    topicManager (server n') = topicManager (server n)
    /\ tm (Rest.sys n')
       = setVectorStoreCache (vectorStoreCache (tm (Rest.sys n'))) (tm (Rest.sys n))
    /\ world (Rest.sys n')
       = setWorldModel (currentModel (world (Rest.sys n'))) (world (Rest.sys n))).
  { intros searchQuery topK targetTopic n0 Hs Hm Hw. simpl.
    destruct (runQuery_frame e searchQuery topK targetTopic n0) as [Hs' Hm'].
    rewrite (runQuery_world e searchQuery topK targetTopic n0).
    rewrite Hs', Hs, <- Hm. by repeat split. }
  assert (Htopic : forall searchQuery topK targetTopic,
    let n' := (searchTopic e searchQuery topK targetTopic n).2 in
    topicManager (server n') = topicManager (server n)
    /\ tm (Rest.sys n')
       = setVectorStoreCache (vectorStoreCache (tm (Rest.sys n'))) (tm (Rest.sys n))
    /\ world (Rest.sys n')
       = setWorldModel (currentModel (world (Rest.sys n'))) (world (Rest.sys n))).
  { intros searchQuery topK targetTopic. simpl.
    unfold searchTopic, initializeModel.
    repeat case_match; simplify_eq;
      first [ apply Hquery; by rewrite ?setWorldModel_same
            | exact Hsame
            | apply Hquery; simpl; done ]. }
  unfold handleSearch, answered.
  repeat case_match; first [exact Hsame | apply Htopic].
Qed.





(** X17. No request changes a topic, a document or a file: the pause
    state, the tracked operations and the file watcher stay as they are,
    of the topic manager only the vector-store cache may change and of its
    surroundings only the active model; and a request other than
    [GET /search] changes nothing at all. *)
Theorem X17_requests_only_read
    (e : RequestEnv) (req : Request) (s : Service) :
  let s' := (handleRequest e req s).2 in
  Routes.tracker s' = Routes.tracker s
  /\ operations s' = operations s
  /\ fileWatcherService s' = fileWatcherService s
  /\ topicManager (server (node s')) = topicManager (server (node s))
  /\ tm (Rest.sys (node s'))
     = setVectorStoreCache (vectorStoreCache (tm (Rest.sys (node s'))))
         (tm (Rest.sys (node s)))
  /\ world (Rest.sys (node s'))
     = setWorldModel (currentModel (world (Rest.sys (node s'))))
         (world (Rest.sys (node s)))
  /\ (~ (pathname req = "/search" /\ method req = "GET") -> s' = s).
Proof.
  simpl.
  assert (Hsame : Routes.tracker s = Routes.tracker s
    /\ operations s = operations s
    /\ fileWatcherService s = fileWatcherService s
    /\ topicManager (server (node s)) = topicManager (server (node s))
    /\ tm (Rest.sys (node s))
       = setVectorStoreCache (vectorStoreCache (tm (Rest.sys (node s))))
           (tm (Rest.sys (node s)))
    /\ world (Rest.sys (node s))
       = setWorldModel (currentModel (world (Rest.sys (node s))))
           (world (Rest.sys (node s)))
    /\ (~ (pathname req = "/search" /\ method req = "GET") -> s = s)).
  { repeat split; [by destruct (tm (Rest.sys (node s)))
                  | by rewrite setWorldModel_same]. }
  unfold handleRequest.
  destruct (bool_decide (method req = "OPTIONS")); [exact Hsame|].
  destruct (bool_decide (pathname req = "/health")); [exact Hsame|].
  destruct (bool_decide (pathname req = "/search")) eqn:Hp;
    destruct (bool_decide (method req = "GET")) eqn:Hg; simpl;
    repeat case_match; simplify_eq; try exact Hsame.
  all: match goal with
       | H : handleSearch ?e' ?q' ?n' = (_, ?n1) |- _ =>
           pose proof (handleSearch_frame e' q' n') as (Hs & Hm & Hw);
           rewrite H in Hs, Hm, Hw; simpl in Hs, Hm, Hw
       end.
  all: simpl; repeat split; try done.
  all: intros Hnot; exfalso; apply Hnot;
    by apply bool_decide_eq_true in Hp, Hg.
Qed.

Lemma find_map {A B : Type} (f : A -> B) (p : B -> bool) (l : list A) :
  List.find p (map f l) = f <$> List.find (fun x => p (f x)) l.
Proof.
  induction l as [|x l IH]; [done|]. simpl. by destruct (p (f x)).
Qed.

(** X18. With the topic manager set, [GET /topics/:name] answers with the
    first entry of the [GET /topics] listing whose name is the requested
    one up to case, together with the documents registered under that
    entry's id; and it answers 404 exactly when the listing has no such
    entry. *)
Theorem X18_topic_detail_agrees_with_the_listing
    (n : Node) (topicName : string) :
  topicManager (server n) = true ->
  exists listed,
    handleListTopics n = sendJson (TopicsJson listed)
    /\ match List.find (fun info => bool_decide
                          (toLowerCase (ti_name info) = toLowerCase topicName))
                       listed with
       | Some info =>
           handleGetTopic topicName n
           = sendJson
               (TopicJson info
                  (map documentInfo
                       (getTopicDocuments (tm (Rest.sys n)) (ti_id info))))
       | None =>
           handleGetTopic topicName n
           = sendError 404 ("Topic not found: " +:+ topicName)
       end.
Proof.
  intros Hm. unfold handleListTopics, handleGetTopic, findNamed.
  rewrite Hm. simpl. eexists. split; [done|].
  rewrite find_map. simpl.
  by destruct (List.find _ (getAllTopics (tm (Rest.sys n)))).
Qed.

End RoutesFacts.

(* ===================================================================== *)
(** ** Tracked operations *)
(* ===================================================================== *)

Section ProgressFacts.
Context {platform : Platform}.
Variable roundedPercent : Z -> Z -> Z.
Import Progress.

Lemma omap_delete_get_None {V : Type} (k : string) (m : list (string * V)) :
  OMap.get k m = None -> OMap.delete k m = m.
Proof.
  induction m as [|[k' v'] r IH]; simpl; [done|].
  destruct (decide (k = k')); [done|]. intros Hr. by rewrite IH.
Qed.

Lemma omap_values_set {V : Type} (k : string) (v : V) (m : list (string * V)) :
  v ∈ OMap.values (OMap.set k v m).
Proof.
  induction m as [|[k' v'] r IH]; simpl.
  - apply list_elem_of_here.
  - destruct (decide (k = k')); simpl;
      [apply list_elem_of_here | by apply list_elem_of_further].
Qed.

(** X19. The removal that [completeTracking] leaves for two seconds later
    goes by the topic id alone: when tracking of the topic has started
    anew in between, it is the new operation that is removed, and from
    then on [getProgress] finds nothing and every [updateProgress],
    [startFileProcessing] and [completeTracking] for the topic leaves the
    operations as they are. *)
Theorem X19_stale_removal_drops_a_restarted_tracking
    (ops : Operations) (topic name : string) (total now : Z)
    (updates : ProgressUpdates) (absolute relative : string) (st : Stage) :
  let restarted :=
    startTracking now topic name total (completeTracking topic ops) in
  let after := expire topic restarted in
  is_Some (getProgress topic restarted)
  /\ getProgress topic after = None
  /\ hasActiveIndexing topic after = false
  /\ updateProgress roundedPercent topic updates after = after
  /\ startFileProcessing now topic absolute relative st after = after
  /\ completeTracking topic after = after
  /\ after = expire topic ops.
Proof.
  simpl.
  assert (Hset : forall (v : IndexingProgress) m,
            OMap.delete topic (OMap.set topic v m) = OMap.delete topic m).
  { intros v m. induction m as [|[k' v'] r IH]; simpl.
    - by rewrite decide_True.
    - destruct (decide (topic = k')) as [->|Hne]; simpl.
      + by rewrite decide_True.
      + rewrite decide_False by done. by rewrite IH. }
  assert (Hafter :
    expire topic (startTracking now topic name total (completeTracking topic ops))
    = expire topic ops).
  { unfold expire, startTracking, completeTracking. rewrite Hset.
    destruct (OMap.get topic ops); by rewrite ?Hset. }
  split.
  { unfold getProgress, startTracking. rewrite omap_get_set_eq. by eexists. }
  rewrite Hafter.
  unfold expire, getProgress, hasActiveIndexing, OMap.has, updateProgress,
    startFileProcessing, completeTracking.
  by rewrite !omap_get_delete_eq.
Qed.

(** X20. While no pause is in force, [GET /status] answers [indexing] for
    an operation that [completeTracking] has just completed: the
    operation stays listed, at 100 percent and with all its files
    processed, until its removal two seconds later; once it is removed,
    and nothing else is tracked, the answer is [idle]. *)
Theorem X20_status_counts_a_completed_operation
    (s : Routes.Service) (topic : string) (p : IndexingProgress) :
  Tracker.isPaused (Routes.tracker s) = false ->
  getProgress topic (Routes.operations s) = Some p ->
  let completed :=
    Routes.mkService (Routes.node s) (Routes.tracker s)
      (completeTracking topic (Routes.operations s))
      (Routes.fileWatcherService s) in
  exists response done,
    Routes.handleStatus completed = Routes.sendJson (Routes.StatusJson response)
    /\ Routes.st_status response = Routes.indexing
    /\ done ∈ Routes.st_activeOperations response
    /\ topicId done = topicId p /\ stage done = complete
    /\ percentage done = 100 /\ processedFiles done = totalFiles p
    /\ (OMap.keys (Routes.operations s) = [topic] ->
        exists response',
          Routes.handleStatus
            (Routes.mkService (Routes.node s) (Routes.tracker s)
               (expire topic (completeTracking topic (Routes.operations s)))
               (Routes.fileWatcherService s))
          = Routes.sendJson (Routes.StatusJson response')
          /\ Routes.st_status response' = Routes.idle
          /\ Routes.st_activeOperations response' = []).
Proof.
  intros Hp Hget. simpl. unfold getProgress in Hget.
  unfold Routes.handleStatus. simpl. rewrite Hp.
  unfold completeTracking. rewrite Hget.
  set (done := mkProgress _ _ _ _ _ _ _ _ _).
  pose proof (omap_values_set topic done (Routes.operations s)) as Hin.
  unfold getAllProgress.
  destruct (OMap.values (OMap.set topic done (Routes.operations s)))
    as [|first others] eqn:Hvalues; [by apply elem_of_nil in Hin|].
  assert (Hgone : OMap.keys (Routes.operations s) = [topic] ->
            getAllProgress
              (expire topic (OMap.set topic done (Routes.operations s))) = []).
  { intros Hkeys. unfold expire, getAllProgress.
    destruct (Routes.operations s) as [|[k v] [|? ?]]; try done.
    injection Hkeys as ->.
    simpl. rewrite decide_True by done. simpl. by rewrite decide_True. }
  unfold getAllProgress in Hgone.
  destruct (Routes.fileWatcherService s) as [w|]; simpl;
    (eexists; exists done; split; [reflexivity|]; simpl;
     split; [done|]; split; [done|]; split; [done|]; split; [done|];
     split; [done|]; split; [done|];
     intros Hkeys; rewrite (Hgone Hkeys); eexists; by repeat split).
Qed.

End ProgressFacts.

Lemma X18_witness :
  exists listed,
    Routes.handleListTopics Examples.serving
    = Routes.sendJson (Routes.TopicsJson listed)
    /\ match List.find
               (fun info => bool_decide
                  (@toLowerCase Posix.posix (Routes.ti_name info)
                   = @toLowerCase Posix.posix "DOCS"))
               listed with
       | Some info =>
           Routes.handleGetTopic (platform := Posix.posix) "DOCS" Examples.serving
           = Routes.sendJson
               (Routes.TopicJson info
                  (map Routes.documentInfo
                       (Registry.getTopicDocuments
                          (Registry.tm (Rest.sys Examples.serving))
                          (Routes.ti_id info))))
       | None =>
           Routes.handleGetTopic (platform := Posix.posix) "DOCS" Examples.serving
           = Routes.sendError 404 "Topic not found: DOCS"
       end.
Proof.
  apply (X18_topic_detail_agrees_with_the_listing (platform := Posix.posix)
           Examples.serving "DOCS").
  reflexivity.
Defined.

Lemma X20_witness :
  exists response,
    Routes.handleStatus
      (Routes.mkService Examples.serving Tracker.initial
         (Progress.completeTracking "topic-1" [("topic-1", Cases.indexingThree)])
         None)
    = Routes.sendJson (Routes.StatusJson response)
    /\ Routes.st_status response = Routes.indexing.
Proof.
  destruct (X20_status_counts_a_completed_operation Cases.frontDesk "topic-1"
              Cases.indexingThree eq_refl eq_refl)
    as (response & done & Hreply & Hstatus & _).
  exists response. split; [exact Hreply | exact Hstatus].
Defined.

(* ===================================================================== *)
(** ** The command line *)
(* ===================================================================== *)

Section CliFacts.
Variable parseInt : string -> option Z.
Import Cli.

Lemma finish_sound (r : ParsedArgs) (positionalArgs : list string) :
  sound r -> sound (finish r positionalArgs).
Proof.
  unfold finish. intros Hr.
  destruct (command r), (truthy (query r)), positionalArgs; done.
Qed.

Lemma scan_sound (n : nat) :
  forall (args : list string) (r : ParsedArgs) (positionalArgs : list string),
    (length args <= n)%nat -> sound r ->
    sound (scan parseInt args r positionalArgs).
Proof.
  induction n as [|n IH]; intros args r positionalArgs Hlen Hr.
  - destruct args; [|simpl in Hlen; lia]. by apply finish_sound.
  - destruct args as [|arg rest]; [by apply finish_sound|].
    simpl in Hlen. destruct Hr as [Hl Hc].
    assert (Hnext : forall r' pos, sound r' -> sound (scan parseInt rest r' pos)).
    { intros r' pos Hr'. apply IH; [lia | done]. }
    assert (Hskip : forall next rest' r' pos,
              rest = next :: rest' -> sound r' ->
              sound (scan parseInt rest' r' pos)).
    { intros next rest' r' pos -> Hr'. apply IH; [simpl in Hlen; lia | done]. }
    simpl.
    repeat match goal with
           | |- context [isOneOf ?a ?l] => destruct (isOneOf a l)
           end;
      try (split; simpl; done);
      try lazymatch goal with
          | |- sound (match rest with _ => _ end) =>
              destruct rest as [|next rest'] eqn:Hrest
          end;
      repeat match goal with
             | |- context [negb (startsWith ?a ?p)] =>
                 destruct (negb (startsWith a p))
             end;
      first [ apply Hnext; by split
            | eapply Hskip; [reflexivity|]; first [by split | idtac] ].
    destruct (parseInt next) as [limitValue|]; [|by split].
    case_bool_decide; by split.
Qed.

(** X21. Whatever the arguments, the limit that [parseArgs] returns is
    positive, [json] is set whenever [compact] is, and what [main] then
    asks of the server is a search with a non-empty query and that limit,
    a topic with a non-empty name, the list of topics or the status. *)
Theorem X21_parsed_arguments_are_sound (args : list string) :
  let parsed := parseArgs parseInt args in
  0 < limit parsed
  /\ (compact parsed = true -> json parsed = true)
  /\ match asked parsed with
     | Some (AskSearch q l) => q <> EmptyString /\ l = limit parsed /\ 0 < l
     | Some (AskTopic n) => n <> EmptyString
     | Some AskTopics | Some AskStatus | None => True
     end.
Proof.
  simpl.
  destruct (scan_sound (length args) args
              (mkParsedArgs Search None None false false DEFAULT_LIMIT) [])
    as [Hl Hc]; [done | by split |].
  fold (parseArgs parseInt args) in Hl, Hc.
  split; [done|]. split; [done|].
  unfold asked, truthy.
  destruct (command _); try done.
  - destruct (query _) as [[|c q]|]; try done.
  - destruct (topicName _) as [[|c q]|]; try done.
Qed.

Lemma plain_is_no_label (arg : string) (labels : list string) :
  startsWith arg "-" = false ->
  Forall (fun label => startsWith label "-" = true) labels ->
  isOneOf arg labels = false.
Proof.
  intros Hplain Hlabels. unfold isOneOf. apply bool_decide_eq_false_2.
  intros Hin. rewrite Forall_forall in Hlabels.
  specialize (Hlabels arg Hin). congruence.
Qed.

Lemma scan_plain (args : list string) (r : ParsedArgs)
    (positionalArgs : list string) :
  plainWords args = true ->
  scan parseInt args r positionalArgs = finish r (positionalArgs ++ args).
Proof.
  revert positionalArgs.
  induction args as [|arg rest IH]; intros positionalArgs Hplain.
  - by rewrite app_nil_r.
  - simpl in Hplain. apply andb_true_iff in Hplain as [Harg Hrest].
    apply negb_true_iff in Harg. simpl.
    rewrite !plain_is_no_label by (done || by repeat constructor).
    rewrite Harg. simpl. rewrite IH by done. by rewrite <- app_assoc.
Qed.

(** X22. Arguments of which none starts with a dash are one search: the
    query is the arguments joined by single spaces, the limit is 10 and
    neither [json] nor [compact] is set; and unless that query is empty,
    it is what [main] asks the server for. *)
Theorem X22_plain_words_are_the_query (args : list string) :
  plainWords args = true -> args <> [] ->
  parseArgs parseInt args
  = mkParsedArgs Search (Some (String.concat " " args)) None false false 10
  /\ (String.concat " " args <> EmptyString ->
      asked (parseArgs parseInt args)
      = Some (AskSearch (String.concat " " args) 10)).
Proof.
  intros Hplain Hne.
  assert (Hparsed : parseArgs parseInt args
    = mkParsedArgs Search (Some (String.concat " " args)) None false false 10).
  { unfold parseArgs. rewrite scan_plain by done. simpl.
    unfold finish. simpl. by destruct args. }
  split; [done|]. rewrite Hparsed. unfold asked. simpl.
  by destruct (String.concat " " args).
Qed.

End CliFacts.

Lemma X22_witness :
  Cli.parseArgs (fun _ => None) ["vector"; "store"]
  = Cli.mkParsedArgs Cli.Search (Some "vector store") None false false 10.
Proof.
  destruct (X22_plain_words_are_the_query (fun _ => None) ["vector"; "store"])
    as [Hparsed _]; [reflexivity | discriminate |].
  exact Hparsed.
Defined.
